(** * Tool provisioning for the coding agent: policy, schema and wrappers

    A shallow embedding of [src/agents/pi-tools.ts]: tool-name
    normalization and allow/deny policies, the flattening of union
    parameter schemas, the correction of image results of the read tool,
    the binding of cancellation signals, and the assembly of the tool list.

    Conventions of the embedding.
    - A JavaScript string is a [string]: one character per code unit, the
      code units being those below 256 (the Latin-1 range).  [trim] and
      [toLowerCase] are those of ECMAScript on this range.
    - [undefined] for an optional field is [None].
    - A [Set] or [Map] is the list of its members in insertion order.
    - A thrown [Error] is the [inl] of a sum (or a constructor of an
      outcome type); a normal return is the [inr]. *)

From Stdlib Require Import List String Ascii Bool Arith ZArith Lia DecimalString.
Import ListNotations.

Local Open Scope string_scope.
Local Open Scope list_scope.
Local Open Scope nat_scope.

(** ** JavaScript strings *)

Module Js.

(** WhiteSpace and LineTerminator code units below 256: TAB, LF, VT, FF,
    CR, SPACE and NO-BREAK SPACE (U+00A0). *)
Definition isWhiteSpace (c : ascii) : bool :=
  let n := nat_of_ascii c in
  ((9 <=? n) && (n <=? 13)) || (n =? 32) || (n =? 160).

Fixpoint trimStart (s : string) : string :=
  match s with
  | EmptyString => EmptyString
  | String c rest => if isWhiteSpace c then trimStart rest else s
  end.

Fixpoint trimEnd (s : string) : string :=
  match s with
  | EmptyString => EmptyString
  | String c rest =>
      match trimEnd rest with
      | EmptyString => if isWhiteSpace c then EmptyString else String c EmptyString
      | kept => String c kept
      end
  end.

(** [String.prototype.trim]. *)
Definition trim (s : string) : string := trimEnd (trimStart s).

(** The lower-case mapping of Unicode below 256: the letters [A]-[Z] and
    the Latin-1 capitals U+00C0-U+00DE, the multiplication sign U+00D7
    apart, are 32 below their lower-case letters; no other code unit of the
    range has a lower-case mapping. *)
Definition lowerChar (c : ascii) : ascii :=
  let n := nat_of_ascii c in
  if ((65 <=? n) && (n <=? 90))
     || ((192 <=? n) && (n <=? 222) && negb (n =? 215))
  then ascii_of_nat (n + 32) else c.

(** [String.prototype.toLowerCase]. *)
Fixpoint toLowerCase (s : string) : string :=
  match s with
  | EmptyString => EmptyString
  | String c rest => String (lowerChar c) (toLowerCase rest)
  end.

(** [String.prototype.startsWith] and [endsWith]. *)
Definition startsWith (s p : string) : bool := String.prefix p s.

Definition endsWith (s p : string) : bool :=
  let n := String.length s in
  let m := String.length p in
  (m <=? n) && String.eqb (String.substring (n - m) m s) p.

(** [String.prototype.includes] for a one-character needle. *)
Fixpoint includesChar (s : string) (c : ascii) : bool :=
  match s with
  | EmptyString => false
  | String d rest => Ascii.eqb d c || includesChar rest c
  end.

(** Truthiness of a string: only the empty string is falsy. *)
Definition truthyStr (s : string) : bool :=
  match s with EmptyString => false | _ => true end.

(** [new Set(xs)]: members in first-insertion order, later members that an
    earlier one equals being dropped. *)
Section SetOf.
Context {A : Type} (same : A -> A -> bool).

Definition has (xs : list A) (x : A) : bool := existsb (same x) xs.

Fixpoint addAll (acc xs : list A) : list A :=
  match xs with
  | [] => acc
  | x :: rest => addAll (if has acc x then acc else acc ++ [x]) rest
  end.

Definition newSet (xs : list A) : list A := addAll [] xs.
End SetOf.

End Js.

(** ** Tool names and allow/deny policies *)

Module Policy.
Import Js.

(** [SandboxToolPolicy]: both lists are optional. *)
Record SandboxToolPolicy : Type := mkPolicy {
  allow : option (list string);
  deny : option (list string)
}.

(** The value [normalizeToolName] returns.  [TOOL_NAME_ALIASES] is an object
    literal, so the lookup [TOOL_NAME_ALIASES[normalized]] also sees the
    members of [Object.prototype]; of these, the two whose names survive
    lower-casing are [constructor] and [__proto__].  For them the lookup is
    not nullish and the function returns the inherited object instead of a
    string. *)
Inductive NormName : Type :=
| NStr (s : string)
| NObjectConstructor
| NObjectPrototype.

Definition NormName_eqb (a b : NormName) : bool :=
  match a, b with
  | NStr s, NStr t => String.eqb s t
  | NObjectConstructor, NObjectConstructor => true
  | NObjectPrototype, NObjectPrototype => true
  | _, _ => false
  end.

(** [TOOL_NAME_ALIASES[key]], [None] standing for [undefined]. *)
Definition TOOL_NAME_ALIASES (key : string) : option NormName :=
  if String.eqb key "bash" then Some (NStr "exec")
  else if String.eqb key "apply-patch" then Some (NStr "apply_patch")
  else if String.eqb key "constructor" then Some NObjectConstructor
  else if String.eqb key "__proto__" then Some NObjectPrototype
  else None.

Definition normalizeToolName (name : string) : NormName :=
  let normalized := toLowerCase (trim name) in
  match TOOL_NAME_ALIASES normalized with
  | Some canonical => canonical
  | None => NStr normalized
  end.

(** [Boolean(v)] on a normalized name. *)
Definition truthyName (n : NormName) : bool :=
  match n with
  | NStr s => truthyStr s
  | _ => true
  end.

Definition normalizeToolNames (names : option (list string)) : list NormName :=
  match names with
  | None => []
  | Some l => filter truthyName (map normalizeToolName l)
  end.

Definition isToolAllowedByPolicyName
    (name : string) (policy : option SandboxToolPolicy) : bool :=
  match policy with
  | None => true
  | Some policy =>
      let deny := newSet NormName_eqb (normalizeToolNames (deny policy)) in
      let allowRaw := normalizeToolNames (allow policy) in
      let allow :=
        if 0 <? List.length allowRaw
        then Some (newSet NormName_eqb allowRaw) else None in
      let normalized := normalizeToolName name in
      if has NormName_eqb deny normalized then false
      else
        match allow with
        | Some allow =>
            if has NormName_eqb allow normalized then true
            else if NormName_eqb normalized (NStr "apply_patch")
                    && has NormName_eqb allow (NStr "exec") then true
            else false
        | None => true
        end
  end.

Definition isToolAllowedByPolicy := isToolAllowedByPolicyName.

Definition isToolAllowedByPolicies
    (name : string) (policies : list (option SandboxToolPolicy)) : bool :=
  forallb (isToolAllowedByPolicy name) policies.

Definition filterToolsByPolicy {T : Type} (toolName : T -> string)
    (tools : list T) (policy : option SandboxToolPolicy) : list T :=
  match policy with
  | None => tools
  | Some _ => filter (fun tool => isToolAllowedByPolicyName (toolName tool) policy) tools
  end.

(** *** Configuration ([ClawdbotConfig], the fields this file reads) *)

Record ApplyPatchConfig : Type := mkApplyPatch {
  enabled : option bool;
  allowModels : option (list string)
}.

(** [config.tools]: the global allow/deny lists, [exec.applyPatch] and
    [subagents.tools]. *)
Record ToolsConfig : Type := mkTools {
  tools_allow : option (list string);
  tools_deny : option (list string);
  exec_applyPatch : option ApplyPatchConfig;
  subagents_tools : option SandboxToolPolicy
}.

(** The configuration of one agent; [agent_tools] is [agentConfig.tools]. *)
Record AgentConfig : Type := mkAgent {
  agent_tools : option SandboxToolPolicy
}.

Record ClawdbotConfig : Type := mkConfig {
  tools : option ToolsConfig;
  agents : list (string * AgentConfig)
}.

(** The global tools object read as a policy (its [allow] and [deny]). *)
Definition toolsPolicy (t : ToolsConfig) : SandboxToolPolicy :=
  mkPolicy (tools_allow t) (tools_deny t).

(** The functions imported from [agent-scope.js] and
    [routing/session-key.js], which are not part of this file. *)
Record AgentScope : Type := mkScope {
  resolveAgentIdFromSessionKey : string -> string;
  resolveAgentConfig : ClawdbotConfig -> string -> option AgentConfig;
  isSubagentSessionKey : option string -> bool
}.

Definition DEFAULT_SUBAGENT_TOOL_DENY : list string :=
  ["sessions_list"; "sessions_history"; "sessions_send"; "sessions_spawn"].

Definition resolveSubagentToolPolicy (cfg : option ClawdbotConfig)
    : SandboxToolPolicy :=
  let configured :=
    match cfg with
    | Some c => match tools c with Some t => subagents_tools t | None => None end
    | None => None
    end in
  let configuredDeny :=
    match configured with
    | Some p => match deny p with Some d => d | None => [] end
    | None => []
    end in
  let allow :=
    match configured with Some p => allow p | None => None end in
  mkPolicy allow (Some (DEFAULT_SUBAGENT_TOOL_DENY ++ configuredDeny)).

Definition isArray {A : Type} (field : option (list A)) : bool :=
  match field with Some _ => true | None => false end.

(** What [resolveEffectiveToolPolicy] returns. *)
Record EffectivePolicy : Type := mkEffective {
  agentId : option string;
  policy : option SandboxToolPolicy
}.

Definition resolveEffectiveToolPolicy (scope : AgentScope)
    (config : option ClawdbotConfig) (sessionKey : option string)
    : EffectivePolicy :=
  let agentId :=
    match sessionKey with
    | Some key =>
        if truthyStr key then Some (resolveAgentIdFromSessionKey scope key)
        else None
    | None => None
    end in
  let agentConfig :=
    match config, agentId with
    | Some cfg, Some id =>
        if truthyStr id then resolveAgentConfig scope cfg id else None
    | _, _ => None
    end in
  let agentTools :=
    match agentConfig with Some a => agent_tools a | None => None end in
  let hasAgentToolPolicy :=
    match agentTools with
    | Some t => isArray (allow t) || isArray (deny t)
    | None => false
    end in
  let globalTools :=
    match config with
    | Some cfg => option_map toolsPolicy (tools cfg)
    | None => None
    end in
  mkEffective agentId (if hasAgentToolPolicy then agentTools else globalTools).

End Policy.

(** ** Parameter schemas *)

Module Schema.
Import Js.

(** A schema is a JavaScript value.  [JObj] is an object literal or a
    parsed object: the list of its own properties in the order of
    [Object.entries] (array indices first, in ascending order, then the
    other keys in insertion order), keys distinct; its prototype is
    [Object.prototype].  Numbers are the integers.  Reading or writing an
    object literal under a key named like a member of [Object.prototype]
    brings in three more kinds of value: [JObjectPrototype] is
    [Object.prototype] itself, [JFunction m] is the built-in function that is
    its member [m], and [JDerived proto fields] is an object with own
    properties [fields] whose prototype has been replaced, through
    [__proto__], by the object literal with own properties [proto]. *)
#[warnings="-register-all"] Inductive JsVal : Type :=
| JUndefined
| JNull
| JBool (b : bool)
| JNum (n : Z)
| JStr (s : string)
| JArr (items : list JsVal)
| JObj (fields : list (string * JsVal))
| JObjectPrototype
| JFunction (member : string)
| JDerived (proto fields : list (string * JsVal)).

Definition truthy (v : JsVal) : bool :=
  match v with
  | JUndefined | JNull => false
  | JBool b => b
  | JNum n => negb (Z.eqb n 0)
  | JStr s => truthyStr s
  | JArr _ | JObj _ | JObjectPrototype | JFunction _ | JDerived _ _ => true
  end.

(** [typeof v]. *)
Definition typeOf (v : JsVal) : string :=
  match v with
  | JUndefined => "undefined"
  | JBool _ => "boolean"
  | JNum _ => "number"
  | JStr _ => "string"
  | JFunction _ => "function"
  | JNull | JArr _ | JObj _ | JObjectPrototype | JDerived _ _ => "object"
  end.

Definition isObjectType (v : JsVal) : bool := String.eqb (typeOf v) "object".

(** SameValueZero, the equality of [Set].  Objects and arrays are compared
    by reference; every object or array occurring in a schema is taken to be
    an allocation of its own, so two of them are never the same value.  The
    built-in objects exist once. *)
Definition sameValueZero (a b : JsVal) : bool :=
  match a, b with
  | JUndefined, JUndefined => true
  | JNull, JNull => true
  | JBool x, JBool y => Bool.eqb x y
  | JNum x, JNum y => Z.eqb x y
  | JStr x, JStr y => String.eqb x y
  | JObjectPrototype, JObjectPrototype => true
  | JFunction x, JFunction y => String.eqb x y
  | _, _ => false
  end.

Definition Fields : Type := list (string * JsVal).

(** [key] is an own key of the record. *)
Fixpoint hasKey (record : Fields) (key : string) : bool :=
  match record with
  | [] => false
  | (k, _) :: rest => String.eqb k key || hasKey rest key
  end.

(** The own property under [key], [undefined] without one. *)
Fixpoint get (record : Fields) (key : string) : JsVal :=
  match record with
  | [] => JUndefined
  | (k, v) :: rest => if String.eqb k key then v else get rest key
  end.

(** The array index a key denotes, if any: a canonical decimal numeral
    below 2^32 - 1. *)
Definition arrayIndex (key : string) : option N :=
  match NilEmpty.uint_of_string key with
  | Some digits =>
      let n := N.of_uint digits in
      if String.eqb (NilEmpty.string_of_uint (N.to_uint n)) key
         && (n <? 4294967295)%N
      then Some n else None
  | None => None
  end.

(** The value of an own property is replaced in place. *)
Fixpoint replaceProp (record : Fields) (key : string) (value : JsVal)
    : Fields :=
  match record with
  | [] => []
  | (k, v) :: rest =>
      if String.eqb k key then (k, value) :: rest
      else (k, v) :: replaceProp rest key value
  end.

(** A new property whose key is the array index [i] goes among the array
    indices, which come first and ascend. *)
Fixpoint insertIndex (record : Fields) (i : N) (key : string) (value : JsVal)
    : Fields :=
  match record with
  | [] => [(key, value)]
  | (k, v) :: rest =>
      match arrayIndex k with
      | Some j =>
          if (j <? i)%N then (k, v) :: insertIndex rest i key value
          else (key, value) :: record
      | None => (key, value) :: record
      end
  end.

(** [record[key] = value] on the own properties of an object whose
    prototype chain has no setter for [key]: an own property is updated in
    place, a new one takes its place in the order of the keys. *)
Definition setProp (record : Fields) (key : string) (value : JsVal) : Fields :=
  if hasKey record key then replaceProp record key value
  else
    match arrayIndex key with
    | Some i => insertIndex record i key value
    | None => record ++ [(key, value)]
    end.

Definition isArrayVal (v : JsVal) : bool :=
  match v with JArr _ => true | _ => false end.

Definition orEmpty {A : Type} (l : option (list A)) : list A :=
  match l with Some l => l | None => [] end.

Definition isSome {A : Type} (o : option A) : bool :=
  match o with Some _ => true | None => false end.

(** The members of [Object.prototype]. *)
Definition objectPrototypeMembers : list string :=
  ["constructor"; "__defineGetter__"; "__defineSetter__"; "hasOwnProperty";
   "__lookupGetter__"; "__lookupSetter__"; "isPrototypeOf";
   "propertyIsEnumerable"; "toString"; "valueOf"; "__proto__";
   "toLocaleString"].

Definition inObjectPrototype (key : string) : bool :=
  existsb (String.eqb key) objectPrototypeMembers.

(** What [key in v] and [v[key]] see of a value of type object, for a key
    that is no array index, not [length] and no member of a built-in
    prototype (every key that this file reads by name is such a key): the
    own properties and, behind them, those of a replaced prototype.  An
    array and [Object.prototype] have no property under such a key. *)
Definition visible (v : JsVal) : Fields :=
  match v with
  | JObj fields => fields
  | JDerived proto fields => fields ++ proto
  | _ => []
  end.

Definition indexKey (i : nat) : string :=
  NilEmpty.string_of_uint (Nat.to_uint i).

(** [Object.entries(v)], and the properties that [{...v}] copies, for a
    truthy value of type object: the own properties; those of an array are
    its elements under their indices. *)
Definition entries (v : JsVal) : Fields :=
  match v with
  | JObj fields => fields
  | JDerived _ fields => fields
  | JArr l => combine (map indexKey (seq 0 (List.length l))) l
  | _ => []
  end.

(** The decision of [extractEnumValues] on a record, given what the
    alternatives under [anyOf] and [oneOf] yield ([None] when the property
    is no array). *)
Definition enumeration (record : Fields) (anyOf oneOf : option (list JsVal))
    : option (list JsVal) :=
  match get record "enum" with
  | JArr values => Some values
  | _ =>
      if hasKey record "const" then Some [get record "const"]
      else
        let variants :=
          match anyOf with
          | Some values => Some values
          | None => oneOf
          end in
        match variants with
        | Some (v :: values) => Some (v :: values)
        | _ => None
        end
  end.

Fixpoint extractEnumValues (schema : JsVal) : option (list JsVal) :=
  let fix flatMap (variants : list JsVal) : list JsVal :=
    match variants with
    | [] => []
    | variant :: rest => orEmpty (extractEnumValues variant) ++ flatMap rest
    end in
  let fix arrayAt (key : string) (fields : Fields)
      (absent : option (list JsVal)) : option (list JsVal) :=
    match fields with
    | [] => absent
    | (k, v) :: rest =>
        if String.eqb k key
        then match v with
             | JArr variants => Some (flatMap variants)
             | _ => None
             end
        else arrayAt key rest absent
    end in
  match schema with
  | JObj record =>
      enumeration record
        (arrayAt "anyOf" record None) (arrayAt "oneOf" record None)
  | JDerived proto record =>
      enumeration (record ++ proto)
        (arrayAt "anyOf" record (arrayAt "anyOf" proto None))
        (arrayAt "oneOf" record (arrayAt "oneOf" proto None))
  | _ => None
  end.

(** The inner loops of [mergePropertySchemas]: for each source, for each of
    [title], [description], [default], copy the key if [merged] lacks it. *)
Definition copyAnnotations (merged : Fields) (source : JsVal) : Fields :=
  if negb (truthy source && isObjectType source) then merged
  else
    let record := visible source in
    fold_left
      (fun merged key =>
         if negb (hasKey merged key) && hasKey record key
         then setProp merged key (get record key) else merged)
      ["title"; "description"; "default"] merged.

Definition mergePropertySchemas (existing incoming : JsVal) : JsVal :=
  if negb (truthy existing) then incoming
  else if negb (truthy incoming) then existing
  else
    let existingEnum := extractEnumValues existing in
    let incomingEnum := extractEnumValues incoming in
    if isSome existingEnum || isSome incomingEnum then
      let values :=
        newSet sameValueZero (orEmpty existingEnum ++ orEmpty incomingEnum) in
      let merged := fold_left copyAnnotations [existing; incoming] [] in
      let types := newSet String.eqb (map typeOf values) in
      let merged :=
        match types with
        | [t] => setProp merged "type" (JStr t)
        | _ => merged
        end in
      JObj (setProp merged "enum" (JArr values))
    else existing.

(** *** Tools *)

(** How the [execute] entry point of a tool was built: by a collaborator, or
    by one of the wrappers of this file around another entry point. *)
Inductive Execute : Type :=
| Native (origin : string)
| ParamNormalization (inner : Execute)
| SandboxPathGuard (root : string) (inner : Execute)
| ClawdbotRead (inner : Execute)
| WithAbortSignal (signal : nat) (inner : Execute).

Record AnyAgentTool : Type := mkTool {
  name : string;
  parameters : JsVal;
  execute : Execute
}.

(** *** Flattening of union schemas *)

Definition variantKey (schema : Fields) : option string :=
  if isArrayVal (get schema "anyOf") then Some "anyOf"
  else if isArrayVal (get schema "oneOf") then Some "oneOf"
  else None.

Definition items (v : JsVal) : list JsVal :=
  match v with JArr l => l | _ => [] end.

(** [Map.prototype.get] and [set] on [requiredCounts]. *)
Fixpoint mapGet (m : list (string * nat)) (key : string) : option nat :=
  match m with
  | [] => None
  | (k, n) :: rest => if String.eqb k key then Some n else mapGet rest key
  end.

Fixpoint mapSet (m : list (string * nat)) (key : string) (n : nat)
    : list (string * nat) :=
  match m with
  | [] => [(key, n)]
  | (k, c) :: rest =>
      if String.eqb k key then (k, n) :: rest else (k, c) :: mapSet rest key n
  end.

(** The object [mergedProperties], which starts as [{}]: its own
    properties, and its prototype once an assignment to [__proto__] has
    replaced it ([None] as long as it is [Object.prototype]). *)
Record Accumulator : Type := mkAccumulator {
  ownProperties : Fields;
  replacedPrototype : option Fields
}.

(** [Object.getPrototypeOf(mergedProperties)]. *)
Definition prototypeOf (acc : Accumulator) : JsVal :=
  match replacedPrototype acc with
  | Some proto => JObj proto
  | None => JObjectPrototype
  end.

(** [key in mergedProperties]: an own key, a key of a replaced prototype,
    or a member of [Object.prototype]. *)
Definition inMerged (acc : Accumulator) (key : string) : bool :=
  hasKey (ownProperties acc) key
  || hasKey (orEmpty (replacedPrototype acc)) key
  || inObjectPrototype key.

(** [mergedProperties[key]], along the prototype chain.  The member
    [__proto__] of [Object.prototype] is an accessor that gives the
    prototype of the object read; the other members are functions. *)
Definition readMerged (acc : Accumulator) (key : string) : JsVal :=
  if hasKey (ownProperties acc) key then get (ownProperties acc) key
  else if hasKey (orEmpty (replacedPrototype acc)) key
  then get (orEmpty (replacedPrototype acc)) key
  else if String.eqb key "__proto__" then prototypeOf acc
  else if inObjectPrototype key then JFunction key
  else JUndefined.

(** [mergedProperties[key] = value].  Under [__proto__], unless a property
    of that name shadows the accessor, the setter of [Object.prototype]
    runs and makes [value] the prototype; the loop assigns there what
    [mergePropertySchemas] returns for the prototype, which is the prototype
    itself or a new object literal.  Any other key becomes or stays an own
    property. *)
Definition writeMerged (acc : Accumulator) (key : string) (value : JsVal)
    : Accumulator :=
  if String.eqb key "__proto__"
     && negb (hasKey (ownProperties acc) key)
     && negb (hasKey (orEmpty (replacedPrototype acc)) key)
  then
    match value with
    | JObj fields => mkAccumulator (ownProperties acc) (Some fields)
    | JObjectPrototype => mkAccumulator (ownProperties acc) None
    | _ => acc
    end
  else
    mkAccumulator (setProp (ownProperties acc) key value)
      (replacedPrototype acc).

(** The body of the loop over [Object.entries(props)]. *)
Definition mergeProperty (acc : Accumulator) (kv : string * JsVal)
    : Accumulator :=
  let '(key, value) := kv in
  if negb (inMerged acc key) then writeMerged acc key value
  else writeMerged acc key (mergePropertySchemas (readMerged acc key) value).

(** The variables the loop over the variants updates. *)
Record FlattenState : Type := mkFlatten {
  mergedProperties : Accumulator;
  requiredCounts : list (string * nat);
  objectVariants : nat
}.

Definition countRequired (counts : list (string * nat)) (key : JsVal)
    : list (string * nat) :=
  match key with
  | JStr k =>
      mapSet counts k
        (match mapGet counts k with Some n => n | None => 0 end + 1)
  | _ => counts
  end.

(** One iteration of [for (const entry of variants)]. *)
Definition visitVariant (st : FlattenState) (entry : JsVal) : FlattenState :=
  if negb (truthy entry && isObjectType entry) then st
  else
    let props := get (visible entry) "properties" in
    if negb (truthy props && isObjectType props) then st
    else
      let required :=
        match get (visible entry) "required" with JArr r => r | _ => [] end in
      mkFlatten
        (fold_left mergeProperty (entries props) (mergedProperties st))
        (fold_left countRequired required (requiredCounts st))
        (objectVariants st + 1).

Definition visitVariants (variants : list JsVal) : FlattenState :=
  fold_left visitVariant variants (mkFlatten (mkAccumulator [] None) [] 0).

Definition isStr (v : JsVal) : bool :=
  match v with JStr _ => true | _ => false end.

Definition baseRequired (schema : Fields) : option (list JsVal) :=
  match get schema "required" with
  | JArr r => Some (filter isStr r)
  | _ => None
  end.

Definition mergedRequired (schema : Fields) (st : FlattenState)
    : option (list JsVal) :=
  match baseRequired schema with
  | Some (key :: keys) => Some (key :: keys)
  | _ =>
      if 0 <? objectVariants st
      then Some (map (fun kc => JStr (fst kc))
                   (filter (fun kc => snd kc =? objectVariants st)
                      (requiredCounts st)))
      else None
  end.

(** The object [mergedProperties] as a value. *)
Definition accumulated (acc : Accumulator) : JsVal :=
  match replacedPrototype acc with
  | Some proto => JDerived proto (ownProperties acc)
  | None => JObj (ownProperties acc)
  end.

(** The object literal handed to [cleanSchemaForGemini] for a union.
    [schema] is what reads of the schema see, [nextSchema] its copy
    [{...schema}], which has the own properties only. *)
Definition flattenedSchema (schema nextSchema : Fields) (st : FlattenState)
    : JsVal :=
  JObj
    ([("type", JStr "object")]
     ++ (if isStr (get nextSchema "title")
         then [("title", get nextSchema "title")] else [])
     ++ (if isStr (get nextSchema "description")
         then [("description", get nextSchema "description")] else [])
     ++ [("properties",
          if 0 <? List.length (ownProperties (mergedProperties st))
          then accumulated (mergedProperties st)
          else match get schema "properties" with
               | JUndefined | JNull => JObj []
               | props => props
               end)]
     ++ match mergedRequired schema st with
        | Some (key :: keys) => [("required", JArr (key :: keys))]
        | _ => []
        end
     ++ [("additionalProperties",
          if hasKey schema "additionalProperties"
          then get schema "additionalProperties" else JBool true)]).

Definition withParameters (tool : AnyAgentTool) (p : JsVal) : AnyAgentTool :=
  mkTool (name tool) p (execute tool).

Section Normalize.
(** [cleanSchemaForGemini] of [schema/clean-for-gemini.js]. *)
Variable cleanSchemaForGemini : JsVal -> JsVal.

Definition normalizeToolParameters (tool : AnyAgentTool) : AnyAgentTool :=
  if negb (truthy (parameters tool) && isObjectType (parameters tool))
  then tool
  else
    let schema := visible (parameters tool) in
    if hasKey schema "type" && hasKey schema "properties"
       && negb (isArrayVal (get schema "anyOf"))
    then withParameters tool (cleanSchemaForGemini (parameters tool))
    else if negb (hasKey schema "type")
            && (isObjectType (get schema "properties")
                || isArrayVal (get schema "required"))
            && negb (isArrayVal (get schema "anyOf"))
            && negb (isArrayVal (get schema "oneOf"))
    then withParameters tool
           (cleanSchemaForGemini
              (JObj (setProp (entries (parameters tool)) "type"
                       (JStr "object"))))
    else
      match variantKey schema with
      | None => tool
      | Some key =>
          let variants := items (get schema key) in
          withParameters tool
            (cleanSchemaForGemini
               (flattenedSchema schema (entries (parameters tool))
                  (visitVariants variants)))
      end.
End Normalize.

End Schema.

(** ** Image results of the read tool *)

Module ReadImage.
Import Js.

(** A content block of a tool result.  [ImageBlock] is any object whose
    [type] is ["image"]; a field that is not a string is [None].
    [OtherBlock] is every other value (a text block without a string text
    included), which the code passes through. *)
Inductive ContentBlock : Type :=
| TextBlock (text : string)
| ImageBlock (data mimeType : option string)
| OtherBlock (tag : nat).

Record AgentToolResult : Type := mkResult {
  content : list ContentBlock;
  details : nat
}.

(** The two functions the sniffing relies on: Node's
    [Buffer.from(_, "base64")], and [detectMime] of [media/mime.js], whose
    promise resolves to a type or to [undefined] ([inr]) or rejects ([inl]). *)
Record Sniffer : Type := mkSniffer {
  bufferFromBase64 : string -> list Byte.byte;
  detectMime : list Byte.byte -> string + option string
}.

Definition sniffMimeFromBase64 (env : Sniffer) (base64 : string)
    : option string :=
  let trimmed := trim base64 in
  if negb (truthyStr trimmed) then None
  else
    let take := Nat.min 256 (String.length trimmed) in
    let sliceLen := take - (take mod 4) in
    if sliceLen <? 8 then None
    else
      let head := bufferFromBase64 env (String.substring 0 sliceLen trimmed) in
      match detectMime env head with
      | inr sniffed => sniffed
      | inl _ => None
      end.

Definition readImageHeader (mimeType : string) : string :=
  String.append "Read image file [" (String.append mimeType "]").

Definition rewriteReadImageHeader (text mimeType : string) : string :=
  if startsWith text "Read image file [" && endsWith text "]"
  then readImageHeader mimeType
  else text.

(** The predicate of [content.find]: an image block with string [data] and
    string [mimeType]. *)
Fixpoint findImage (content : list ContentBlock) : option (string * string) :=
  match content with
  | [] => None
  | ImageBlock (Some data) (Some mimeType) :: _ => Some (data, mimeType)
  | _ :: rest => findImage rest
  end.

Definition rewriteBlock (sniffed : string) (block : ContentBlock)
    : ContentBlock :=
  match block with
  | ImageBlock data _ => ImageBlock data (Some sniffed)
  | TextBlock text => TextBlock (rewriteReadImageHeader text sniffed)
  | OtherBlock _ => block
  end.

Definition emptyPayloadError (filePath : string) : string :=
  String.append "read: image payload is empty ("
    (String.append filePath ")").

Definition notAnImageError (sniffed mimeType filePath : string) : string :=
  String.append "read: file looks like "
    (String.append sniffed
       (String.append " but was treated as "
          (String.append mimeType
             (String.append " (" (String.append filePath ")"))))).

(** [inl message] is the thrown [Error(message)]. *)
Definition normalizeReadImageResult (env : Sniffer)
    (result : AgentToolResult) (filePath : string)
    : string + AgentToolResult :=
  match findImage (content result) with
  | None => inr result
  | Some (data, mimeType) =>
      if negb (truthyStr (trim data)) then inl (emptyPayloadError filePath)
      else
        match sniffMimeFromBase64 env data with
        | None => inr result
        | Some sniffed =>
            if negb (truthyStr sniffed) then inr result
            else if negb (startsWith sniffed "image/")
            then inl (notAnImageError sniffed mimeType filePath)
            else if String.eqb sniffed mimeType then inr result
            else inr (mkResult (map (rewriteBlock sniffed) (content result))
                        (details result))
        end
  end.

End ReadImage.

(** ** Cancellation *)

Module Abort.

(** The abort signals alive at some moment.  A signal is its index.
    [fired] lists the signals whose own controller has aborted; [sources]
    lists, for a signal made from others ([AbortSignal.any], or a controller
    with listeners on them), the signals it follows. *)
Record Signals : Type := mkSignals {
  count : nat;
  fired : list nat;
  sources : list (nat * nat)
}.

Definition sourcesOf (st : Signals) (s : nat) : list nat :=
  map snd (filter (fun link => fst link =? s) (sources st)).

(** A signal is aborted when its controller has aborted or when one of the
    signals it follows is aborted.  A signal follows older signals only, so
    [depth] beyond the index adds nothing. *)
Fixpoint abortedWithin (depth : nat) (st : Signals) (s : nat) : bool :=
  existsb (Nat.eqb s) (fired st)
  || match depth with
     | 0 => false
     | S d => existsb (abortedWithin d st) (sourcesOf st s)
     end.

(** [signal.aborted]. *)
Definition aborted (st : Signals) (s : nat) : bool := abortedWithin s st s.

(** [controller.abort()] on the controller of [s]. *)
Definition abort (s : nat) (st : Signals) : Signals :=
  mkSignals (count st) (s :: fired st) (sources st).

(** [new AbortController()]. *)
Definition newAbortController (st : Signals) : nat * Signals :=
  (count st, mkSignals (S (count st)) (fired st) (sources st)).

(** [source.addEventListener("abort", () => controller.abort(), {once})]
    for the controller of [derived].  The code adds such a listener only to
    a signal that is not aborted yet, so the listener runs when the source
    aborts and [derived] is aborted from then on. *)
Definition addAbortListener (source derived : nat) (st : Signals) : Signals :=
  mkSignals (count st) (fired st) ((derived, source) :: sources st).

(** [AbortSignal.any(signals)]. *)
Definition AbortSignal_any (signals : list nat) (st : Signals)
    : nat * Signals :=
  let c := count st in
  (c, mkSignals (S c) (fired st) (map (fun s => (c, s)) signals ++ sources st)).

Section Combine.
(** [typeof AbortSignal.any === "function"]. *)
Variable hasAbortSignalAny : bool.

Definition combineAbortSignals (a b : option nat) (st : Signals)
    : option nat * Signals :=
  match a, b with
  | None, None => (None, st)
  | Some a, None => (Some a, st)
  | None, Some b => (Some b, st)
  | Some a, Some b =>
      if aborted st a then (Some a, st)
      else if aborted st b then (Some b, st)
      else if hasAbortSignalAny
      then let '(c, st) := AbortSignal_any [a; b] st in (Some c, st)
      else
        let '(c, st) := newAbortController st in
        let st := addAbortListener a c st in
        let st := addAbortListener b c st in
        (Some c, st)
  end.

(** What a call of [execute] does: it throws (the [name] and [message] of
    the error) or returns. *)
Inductive Outcome (R : Type) : Type :=
| Threw (errName message : string)
| Returned (result : R).

(** [World] is everything an [execute] can act on besides the signals;
    [Params] and [R] are the parameters and the result of a call. *)
Context {World Params R : Type}.

Definition ExecuteFn : Type :=
  string -> Params -> option nat -> Signals * World
  -> Outcome R * (Signals * World).

Record Tool : Type := mkTool {
  name : string;
  execute : option ExecuteFn
}.

Definition throwAbortError (w : Signals * World)
    : Outcome R * (Signals * World) :=
  (Threw R "AbortError" "Aborted", w).

Definition wrapToolWithAbortSignal (tool : Tool) (abortSignal : option nat)
    : Tool :=
  match abortSignal with
  | None => tool
  | Some abortSignal =>
      match execute tool with
      | None => tool
      | Some execute =>
          mkTool (name tool)
            (Some (fun toolCallId params signal w =>
               let '(combined, st) :=
                 combineAbortSignals signal (Some abortSignal) (fst w) in
               let w := (st, snd w) in
               if match combined with
                  | Some c => aborted st c
                  | None => false
                  end
               then throwAbortError w
               else execute toolCallId params combined w))
      end
  end.
End Combine.

End Abort.

(** ** Assembly of the tool list *)

Module Assembly.
Import Js Policy Schema.

(** [SandboxContext], the fields the assembly itself reads; the container
    and browser settings are only forwarded to collaborators. *)
Record SandboxContext : Type := mkSandbox {
  sandbox_enabled : bool;
  sandbox_workspaceDir : string;
  sandbox_workspaceAccess : string;
  sandbox_tools : option SandboxToolPolicy
}.

(** The [options] of [createClawdbotCodingTools]. *)
Record Options : Type := mkOptions {
  exec_scopeKey : option string;
  sandbox : option SandboxContext;
  sessionKey : option string;
  workspaceDir : option string;
  config : option ClawdbotConfig;
  abortSignal : option nat;
  modelProvider : option string;
  modelId : option string
}.

(** The collaborators that supply tools. *)
Record ToolSources : Type := mkSources {
  codingTools : list AnyAgentTool;
  readTool : AnyAgentTool;
  createReadTool : string -> AnyAgentTool;
  createWriteTool : string -> AnyAgentTool;
  createEditTool : string -> AnyAgentTool;
  createExecTool :
    Options -> bool -> option string -> option SandboxContext -> AnyAgentTool;
  createProcessTool : Options -> option string -> AnyAgentTool;
  createApplyPatchTool : string -> option string -> AnyAgentTool;
  listProviderAgentTools : option ClawdbotConfig -> list AnyAgentTool;
  createClawdbotTools : Options -> option SandboxContext -> list AnyAgentTool;
  process_cwd : string;
  cleanSchemaForGemini : JsVal -> JsVal;
  agentScope : AgentScope
}.

Definition isOpenAIProvider (provider : option string) : bool :=
  match provider with
  | Some p =>
      let normalized := toLowerCase (trim p) in
      String.eqb normalized "openai" || String.eqb normalized "openai-codex"
  | None => false
  end.

Definition isApplyPatchAllowedForModel
    (modelProvider modelId : option string)
    (allowModels : option (list string)) : bool :=
  let allowModels := match allowModels with Some l => l | None => [] end in
  if List.length allowModels =? 0 then true
  else
    let modelId := option_map trim modelId in
    match modelId with
    | None => false
    | Some modelId =>
        if negb (truthyStr modelId) then false
        else
          let normalizedModelId := toLowerCase modelId in
          let provider :=
            option_map (fun p => toLowerCase (trim p)) modelProvider in
          let normalizedFull :=
            match provider with
            | Some provider =>
                if truthyStr provider
                   && negb (includesChar normalizedModelId "/"%char)
                then String.append provider
                       (String.append "/" normalizedModelId)
                else normalizedModelId
            | None => normalizedModelId
            end in
          existsb
            (fun entry =>
               let normalized := toLowerCase (trim entry) in
               if negb (truthyStr normalized) then false
               else String.eqb normalized normalizedModelId
                    || String.eqb normalized normalizedFull)
            allowModels
    end.

Definition wrapToolParamNormalization (tool : AnyAgentTool) : AnyAgentTool :=
  mkTool (name tool) (parameters tool) (ParamNormalization (execute tool)).

Definition wrapSandboxPathGuard (tool : AnyAgentTool) (root : string)
    : AnyAgentTool :=
  mkTool (name tool) (parameters tool) (SandboxPathGuard root (execute tool)).

Definition createClawdbotReadTool (base : AnyAgentTool) : AnyAgentTool :=
  mkTool (name base) (parameters base) (ClawdbotRead (execute base)).

Definition wrapToolWithAbortSignal (tool : AnyAgentTool)
    (abortSignal : option nat) : AnyAgentTool :=
  match abortSignal with
  | None => tool
  | Some signal =>
      mkTool (name tool) (parameters tool) (WithAbortSignal signal (execute tool))
  end.

(** [Boolean(s)] for an optional string. *)
Definition truthyOpt (s : option string) : bool :=
  match s with Some s => truthyStr s | None => false end.

Section Create.
Variable src : ToolSources.
Variable options : Options.

Definition createSandboxedReadTool (root : string) : AnyAgentTool :=
  wrapSandboxPathGuard (createClawdbotReadTool (createReadTool src root)) root.

Definition createSandboxedWriteTool (root : string) : AnyAgentTool :=
  wrapSandboxPathGuard
    (wrapToolParamNormalization (createWriteTool src root)) root.

Definition createSandboxedEditTool (root : string) : AnyAgentTool :=
  wrapSandboxPathGuard
    (wrapToolParamNormalization (createEditTool src root)) root.

(** The constants of [createClawdbotCodingTools], in its order. *)
Definition theSandbox : option SandboxContext :=
  match sandbox options with
  | Some sb => if sandbox_enabled sb then Some sb else None
  | None => None
  end.

Definition effective : EffectivePolicy :=
  resolveEffectiveToolPolicy (agentScope src) (config options)
    (sessionKey options).

Definition scopeKey : option string :=
  match exec_scopeKey options with
  | Some k => Some k
  | None =>
      match agentId effective with
      | Some id =>
          if truthyStr id then Some (String.append "agent:" id) else None
      | None => None
      end
  end.

Definition subagentPolicy : option SandboxToolPolicy :=
  if isSubagentSessionKey (agentScope src) (sessionKey options)
     && truthyOpt (sessionKey options)
  then Some (resolveSubagentToolPolicy (config options))
  else None.

Definition sandboxTools : option SandboxToolPolicy :=
  match theSandbox with Some sb => sandbox_tools sb | None => None end.

Definition allowBackground : bool :=
  isToolAllowedByPolicies "process"
    [policy effective; sandboxTools; subagentPolicy].

Definition sandboxRoot : option string :=
  option_map sandbox_workspaceDir theSandbox.

Definition allowWorkspaceWrites : bool :=
  match theSandbox with
  | Some sb => negb (String.eqb (sandbox_workspaceAccess sb) "ro")
  | None => true
  end.

Definition workspaceRoot : string :=
  match workspaceDir options with
  | Some dir => dir
  | None => process_cwd src
  end.

Definition applyPatchConfig : option ApplyPatchConfig :=
  match config options with
  | Some cfg =>
      match tools cfg with Some t => exec_applyPatch t | None => None end
  | None => None
  end.

Definition applyPatchEnabled : bool :=
  match applyPatchConfig with
  | Some c => match enabled c with Some b => b | None => false end
  | None => false
  end
  && isOpenAIProvider (modelProvider options)
  && isApplyPatchAllowedForModel (modelProvider options) (modelId options)
       (match applyPatchConfig with
        | Some c => allowModels c
        | None => None
        end).

Definition baseTool (tool : AnyAgentTool) : list AnyAgentTool :=
  if String.eqb (name tool) (name (readTool src)) then
    match sandboxRoot with
    | Some root =>
        if truthyStr root then [createSandboxedReadTool root]
        else [createClawdbotReadTool (createReadTool src workspaceRoot)]
    | None => [createClawdbotReadTool (createReadTool src workspaceRoot)]
    end
  else if String.eqb (name tool) "bash" || String.eqb (name tool) "exec"
  then []
  else if String.eqb (name tool) "write" then
    if truthyOpt sandboxRoot then []
    else [wrapToolParamNormalization (createWriteTool src workspaceRoot)]
  else if String.eqb (name tool) "edit" then
    if truthyOpt sandboxRoot then []
    else [wrapToolParamNormalization (createEditTool src workspaceRoot)]
  else [tool].

Definition base : list AnyAgentTool := flat_map baseTool (codingTools src).

Definition execTool : AnyAgentTool :=
  createExecTool src options allowBackground scopeKey theSandbox.

Definition processTool : AnyAgentTool :=
  createProcessTool src options scopeKey.

Definition applyPatchTool : option AnyAgentTool :=
  if negb applyPatchEnabled
     || (truthyOpt sandboxRoot && negb allowWorkspaceWrites)
  then None
  else
    Some (createApplyPatchTool src
            (match sandboxRoot with
             | Some root => root
             | None => workspaceRoot
             end)
            (if truthyOpt sandboxRoot && allowWorkspaceWrites
             then sandboxRoot else None)).

Definition tools : list AnyAgentTool :=
  base
  ++ match sandboxRoot with
     | Some root =>
         if truthyStr root then
           if allowWorkspaceWrites
           then [createSandboxedEditTool root; createSandboxedWriteTool root]
           else []
         else []
     | None => []
     end
  ++ match applyPatchTool with Some t => [t] | None => [] end
  ++ [execTool; processTool]
  ++ listProviderAgentTools src (config options)
  ++ createClawdbotTools src options theSandbox.

Definition createClawdbotCodingTools : list AnyAgentTool :=
  let toolsFiltered :=
    match policy effective with
    | Some p => filterToolsByPolicy name tools (Some p)
    | None => tools
    end in
  let sandboxed :=
    match theSandbox with
    | Some sb => filterToolsByPolicy name toolsFiltered (sandbox_tools sb)
    | None => toolsFiltered
    end in
  let subagentFiltered :=
    match subagentPolicy with
    | Some p => filterToolsByPolicy name sandboxed (Some p)
    | None => sandboxed
    end in
  let normalized :=
    map (normalizeToolParameters (cleanSchemaForGemini src)) subagentFiltered in
  match abortSignal options with
  | Some _ =>
      map (fun tool => wrapToolWithAbortSignal tool (abortSignal options))
        normalized
  | None => normalized
  end.
End Create.

End Assembly.

(** * Properties *)

(** ** Sets in insertion order *)

Module JsFacts.
Import Js.

Section SetFacts.
Context {A : Type} (same : A -> A -> bool).

(** Spec side: the members of [xs] in first-seen order, a member being
    dropped when [seen] or an earlier member already holds the same value. *)
Fixpoint firstSeen (seen xs : list A) : list A :=
  match xs with
  | [] => []
  | x :: rest =>
      if has same seen x then firstSeen seen rest
      else x :: firstSeen (seen ++ [x]) rest
  end.

Lemma addAll_firstSeen (xs acc : list A) :
  addAll same acc xs = acc ++ firstSeen acc xs.
Proof.
  revert acc; induction xs as [|x rest IH]; intros acc; simpl.
  - now rewrite app_nil_r.
  - destruct (has same acc x); rewrite IH; [reflexivity|].
    now rewrite <- app_assoc.
Qed.

Lemma newSet_firstSeen (xs : list A) : newSet same xs = firstSeen [] xs.
Proof. unfold newSet. now rewrite addAll_firstSeen. Qed.

Lemma has_app (xs ys : list A) (x : A) :
  has same (xs ++ ys) x = has same xs x || has same ys x.
Proof. unfold has. apply existsb_app. Qed.

Lemma has_false_Forall (xs : list A) (x : A) :
  has same xs x = false -> Forall (fun a => same x a = false) xs.
Proof.
  unfold has. induction xs as [|a xs IH]; simpl; intros H; constructor.
  - now apply orb_false_iff in H.
  - apply IH. now apply orb_false_iff in H.
Qed.

(** No member of a set is the same value as an earlier member. *)
Definition distinct (l : list A) : Prop :=
  ForallOrdPairs (fun earlier later => same later earlier = false) l.

Lemma distinct_snoc (l : list A) (x : A) :
  distinct l -> has same l x = false -> distinct (l ++ [x]).
Proof.
  unfold distinct. induction 1 as [|a l Ha Hl IH]; simpl; intros Hx.
  - repeat constructor.
  - unfold has in Hx. simpl in Hx. apply orb_false_iff in Hx as [Hxa Hxl].
    constructor.
    + apply Forall_app. split; [exact Ha|]. now repeat constructor.
    + now apply IH.
Qed.

Lemma addAll_distinct (xs acc : list A) :
  distinct acc -> distinct (addAll same acc xs).
Proof.
  revert acc; induction xs as [|x rest IH]; intros acc Hacc; simpl.
  - exact Hacc.
  - destruct (has same acc x) eqn:Hx; apply IH; [exact Hacc|].
    now apply distinct_snoc.
Qed.

Lemma newSet_distinct (xs : list A) : distinct (newSet same xs).
Proof. apply addAll_distinct. constructor. Qed.

(** From here on, two values that are the same are equal. *)
Hypothesis same_eq : forall a b, same a b = true -> a = b.

Lemma has_In (xs : list A) (x : A) : has same xs x = true -> In x xs.
Proof.
  unfold has. intros H. apply existsb_exists in H as [a [Ha Hs]].
  apply same_eq in Hs. now subst.
Qed.

Lemma In_addAll (xs acc : list A) (y : A) :
  In y (addAll same acc xs) <-> In y acc \/ In y xs.
Proof.
  revert acc; induction xs as [|x rest IH]; intros acc; simpl.
  - tauto.
  - destruct (has same acc x) eqn:Hx; rewrite IH.
    + apply has_In in Hx. split; [tauto|].
      intros [H|[H|H]]; subst; auto.
    + rewrite in_app_iff. simpl. tauto.
Qed.

Lemma In_newSet (xs : list A) (y : A) : In y (newSet same xs) <-> In y xs.
Proof. unfold newSet. rewrite In_addAll. simpl. tauto. Qed.

(** ... and every value is the same as itself. *)
Hypothesis same_refl : forall a, same a a = true.

Lemma has_iff (xs : list A) (x : A) : has same xs x = true <-> In x xs.
Proof.
  split; [apply has_In|].
  intros H. unfold has. apply existsb_exists. exists x. auto.
Qed.

Lemma has_newSet (xs : list A) (x : A) :
  has same (newSet same xs) x = has same xs x.
Proof.
  apply eq_true_iff_eq. rewrite !has_iff. apply In_newSet.
Qed.

Lemma distinct_all_equal (l : list A) (t : A) :
  distinct l -> l <> [] -> (forall a, In a l -> a = t) -> l = [t].
Proof.
  intros Hd Hne Hall. destruct l as [|a [|b l]]; [congruence| |].
  - now rewrite (Hall a (or_introl eq_refl)).
  - exfalso. inversion Hd as [|? ? Hfa _]; subst.
    inversion Hfa as [|? ? Hab _]; subst.
    rewrite (Hall a), (Hall b) in Hab by (simpl; auto).
    now rewrite same_refl in Hab.
Qed.
End SetFacts.

Lemma truthyStr_false (s : string) : truthyStr s = false <-> s = "".
Proof. destruct s; simpl; split; congruence. Qed.

Lemma truthyStr_true (s : string) : truthyStr s = true <-> s <> "".
Proof. destruct s; simpl; split; congruence. Qed.

End JsFacts.

(** ** Policies *)

Module PolicyFacts.
Import Js JsFacts Policy.

Lemma NormName_eqb_eq (a b : NormName) : NormName_eqb a b = true -> a = b.
Proof.
  destruct a, b; simpl; try discriminate; try reflexivity.
  intros H. apply String.eqb_eq in H. now subst.
Qed.

Lemma NormName_eqb_refl (a : NormName) : NormName_eqb a a = true.
Proof. destruct a; simpl; auto. apply String.eqb_refl. Qed.

Lemma has_name_iff (l : list NormName) (n : NormName) :
  has NormName_eqb l n = true <-> In n l.
Proof. apply has_iff; [apply NormName_eqb_eq | apply NormName_eqb_refl]. Qed.

Lemma has_name_newSet (l : list NormName) (n : NormName) :
  has NormName_eqb (newSet NormName_eqb l) n = has NormName_eqb l n.
Proof. apply has_newSet; [apply NormName_eqb_eq | apply NormName_eqb_refl]. Qed.

Lemma has_name_false (l : list NormName) (n : NormName) :
  has NormName_eqb l n = false <-> ~ In n l.
Proof.
  rewrite <- has_name_iff. destruct (has NormName_eqb l n); split; congruence.
Qed.

Example trim_toLowerCase_examples :
  trim "  a b  " = "a b"
  /\ trim "   " = ""
  /\ toLowerCase "Apply-Patch" = "apply-patch"
  /\ trim (String "160" (String "011" (String "133" " "))) = String "133" ""
  /\ toLowerCase (String "192" (String "215" (String "222" (String "223" "Z"))))
     = String "224" (String "215" (String "254" (String "223" "z"))).
Proof. repeat split. Qed.

Example normalizeToolName_examples :
  normalizeToolName " Bash " = NStr "exec"
  /\ normalizeToolName "Apply-Patch" = NStr "apply_patch"
  /\ normalizeToolName "exec" = NStr "exec"
  /\ normalizeToolName "Constructor" = NObjectConstructor
  /\ normalizeToolNames (Some ["Read"; "  "; "bash"])
     = [NStr "read"; NStr "exec"].
Proof. repeat split. Qed.

(** An entry of a configured list reaches the normalized list unless it
    normalizes to the empty string. *)
Lemma In_normalizeToolNames (l : list string) (n : NormName) :
  In n (normalizeToolNames (Some l))
  <-> exists entry, In entry l /\ normalizeToolName entry = n /\ truthyName n = true.
Proof.
  unfold normalizeToolNames. rewrite filter_In, in_map_iff.
  split.
  - intros [[e [He Hin]] Ht]. exists e. auto.
  - intros [e [Hin [He Ht]]]. split; [exists e|]; auto.
Qed.

(** The decision of [isToolAllowedByPolicyName] in terms of membership in the
    normalized lists. *)
Lemma isToolAllowedByPolicyName_eq (name : string) (p : SandboxToolPolicy) :
  isToolAllowedByPolicyName name (Some p)
  = let n := normalizeToolName name in
    let denied := normalizeToolNames (deny p) in
    let allowed := normalizeToolNames (allow p) in
    if has NormName_eqb denied n then false
    else match allowed with
         | [] => true
         | _ :: _ =>
             has NormName_eqb allowed n
             || (NormName_eqb n (NStr "apply_patch")
                 && has NormName_eqb allowed (NStr "exec"))
         end.
Proof.
  unfold isToolAllowedByPolicyName. cbv zeta.
  rewrite has_name_newSet.
  destruct (has NormName_eqb _ (normalizeToolName name)); [reflexivity|].
  destruct (normalizeToolNames (allow p)) as [|a l] eqn:Ha; [reflexivity|].
  cbn [List.length Nat.ltb Nat.leb].
  rewrite !has_name_newSet.
  destruct (has NormName_eqb (a :: l) (normalizeToolName name)); [reflexivity|].
  cbn [orb].
  now destruct (NormName_eqb _ _ && has NormName_eqb (a :: l) (NStr "exec")).
Qed.

(** The alias table, key by key. *)
Lemma normalizeToolName_cases (s : string) :
  let k := toLowerCase (trim s) in
  (k = "bash" -> normalizeToolName s = NStr "exec")
  /\ (k = "apply-patch" -> normalizeToolName s = NStr "apply_patch")
  /\ (k <> "bash" -> k <> "apply-patch" -> k <> "constructor" ->
      k <> "__proto__" -> normalizeToolName s = NStr k).
Proof.
  cbv zeta. unfold normalizeToolName, TOOL_NAME_ALIASES.
  split; [|split].
  - now intros ->.
  - now intros ->.
  - intros H1 H2 H3 H4.
    apply String.eqb_neq in H1, H2, H3, H4. now rewrite H1, H2, H3, H4.
Qed.

(** A configured list names [n]: one of its entries normalizes to [n], and
    [n] is not the empty string. *)
Definition lists (entries : option (list string)) (n : NormName) : Prop :=
  exists entry,
    In entry (match entries with Some l => l | None => [] end)
    /\ normalizeToolName entry = n /\ n <> NStr "".

Lemma truthyName_iff (n : NormName) : truthyName n = true <-> n <> NStr "".
Proof.
  destruct n as [s| |]; simpl; try (split; [discriminate|reflexivity]).
  rewrite truthyStr_true. split; congruence.
Qed.

(** The normalized list holds the names the configured list names: every
    entry is normalized, and the entries that normalize to the empty string
    are dropped. *)
Lemma lists_iff (entries : option (list string)) (n : NormName) :
  lists entries n <-> In n (normalizeToolNames entries).
Proof.
  unfold lists. destruct entries as [l|].
  - rewrite In_normalizeToolNames. split.
    + intros [e [Hin [He Hn]]]. exists e. now rewrite truthyName_iff.
    + intros [e [Hin [He Hn]]]. exists e. now rewrite <- truthyName_iff.
  - simpl. split; [intros [e [[] _]]|intros []].
Qed.

Lemma no_lists (entries : option (list string)) :
  (forall m, ~ lists entries m) <-> normalizeToolNames entries = [].
Proof.
  split.
  - intros H. destruct (normalizeToolNames entries) as [|a l] eqn:E;
      [reflexivity|].
    exfalso. apply (H a). apply lists_iff. rewrite E. now left.
  - intros E m Hm. apply lists_iff in Hm. now rewrite E in Hm.
Qed.

(** C1, as amended.  The tool name and every allow/deny entry are normalized
    by [normalizeToolName]: trimmed, lower-cased, then looked up in the alias
    table, under which ["bash"] is ["exec"] and ["apply-patch"] is
    ["apply_patch"]; entries that normalize to the empty string are dropped.
    A name whose normal form a deny entry names is rejected, also when an
    allow entry names it; when no allow entry is left every other name is
    accepted; otherwise a name is accepted exactly when an allow entry names
    its normal form, or when that is ["apply_patch"] and an allow entry
    names ["exec"].  A policy with a deny entry that names ["exec"] rejects
    ["bash"]; without a policy every name is accepted. *)
Theorem isToolAllowedByPolicyName_rule (name : string) (p : SandboxToolPolicy) :
  let n := normalizeToolName name in
  let denied := lists (deny p) in
  let allowed := lists (allow p) in
  (forall s,
     let k := toLowerCase (trim s) in
     (k = "bash" -> normalizeToolName s = NStr "exec")
     /\ (k = "apply-patch" -> normalizeToolName s = NStr "apply_patch")
     /\ (k <> "bash" -> k <> "apply-patch" -> k <> "constructor" ->
         k <> "__proto__" -> normalizeToolName s = NStr k))
  /\ normalizeToolName (String "009" (String "160" " BaSH ")) = NStr "exec"
  /\ normalizeToolName (String "201" "cole") = NStr (String "233" "cole")
  /\ (denied n -> isToolAllowedByPolicyName name (Some p) = false)
  /\ (~ denied n -> (forall m, ~ allowed m) ->
      isToolAllowedByPolicyName name (Some p) = true)
  /\ (~ denied n -> (exists m, allowed m) ->
      (isToolAllowedByPolicyName name (Some p) = true
       <-> allowed n \/ (n = NStr "apply_patch" /\ allowed (NStr "exec"))))
  /\ (denied (NStr "exec") ->
      isToolAllowedByPolicyName "bash" (Some p) = false)
  /\ isToolAllowedByPolicyName name None = true.
Proof.
  cbv zeta.
  split; [exact normalizeToolName_cases|].
  split; [reflexivity|]. split; [reflexivity|].
  split; [|split; [|split; [|split; [|reflexivity]]]].
  - intros Hd. rewrite isToolAllowedByPolicyName_eq. cbv zeta.
    apply lists_iff, has_name_iff in Hd. now rewrite Hd.
  - intros Hd Ha. rewrite isToolAllowedByPolicyName_eq. cbv zeta.
    rewrite lists_iff in Hd. apply has_name_false in Hd.
    apply no_lists in Ha. now rewrite Hd, Ha.
  - intros Hd [m Hm]. rewrite isToolAllowedByPolicyName_eq. cbv zeta.
    rewrite lists_iff in Hd. apply has_name_false in Hd. rewrite Hd.
    rewrite !lists_iff. apply lists_iff in Hm.
    destruct (normalizeToolNames (allow p)) as [|a l]; [destruct Hm|].
    rewrite orb_true_iff, andb_true_iff, !has_name_iff.
    split.
    + intros [H|[Hn He]]; [now left|right].
      split; [now apply NormName_eqb_eq|exact He].
    + intros [H|[Hn He]]; [now left|right].
      split; [rewrite Hn; reflexivity|exact He].
  - intros Hd. rewrite isToolAllowedByPolicyName_eq. cbv zeta.
    change (normalizeToolName "bash") with (NStr "exec").
    apply lists_iff, has_name_iff in Hd. now rewrite Hd.
Qed.

(** The rule at work: with [exec] allowed and [read] denied, [" Read "],
    here with a no-break space in front, is rejected by the deny list and
    ["write"] by the allow list. *)
Lemma isToolAllowedByPolicyName_rule_witness :
  isToolAllowedByPolicyName (String "160" " Read ")
    (Some (mkPolicy (Some ["exec"; "READ"]) (Some ["read "]))) = false
  /\ isToolAllowedByPolicyName "write"
       (Some (mkPolicy (Some ["exec"; "READ"]) (Some ["read "]))) = false.
Proof.
  split.
  - apply (isToolAllowedByPolicyName_rule (String "160" " Read ")
             (mkPolicy (Some ["exec"; "READ"]) (Some ["read "]))).
    exists "read ". split; [simpl; auto|]. split; [reflexivity|discriminate].
  - destruct (isToolAllowedByPolicyName_rule "write"
                (mkPolicy (Some ["exec"; "READ"]) (Some ["read "])))
      as [_ [_ [_ [_ [_ [H _]]]]]].
    assert (Hd : ~ lists (Some ["read "]) (normalizeToolName "write")).
    { intros [e [Hin [He _]]]. simpl in Hin.
      destruct Hin as [<-|[]]. discriminate. }
    assert (Ha : exists m, lists (Some ["exec"; "READ"]) m).
    { exists (NStr "exec"), "exec". split; [simpl; auto|].
      split; [reflexivity|discriminate]. }
    specialize (H Hd Ha).
    destruct (isToolAllowedByPolicyName "write" _); [|reflexivity].
    exfalso.
    destruct (proj1 H eq_refl) as [[e [Hin [He _]]]|[He _]]; [|discriminate].
    simpl in Hin. destruct Hin as [<-|[<-|[]]]; discriminate.
Defined.

(** C1, the claim as stated fails: with an allow set that holds only
    ["exec"], the name ["apply_patch"] is accepted although its normal form
    is neither denied nor in the allow set. *)
Lemma isToolAllowedByPolicyName_not_only_allow_set :
  let p := mkPolicy (Some ["exec"]) (Some []) in
  normalizeToolNames (allow p) <> []
  /\ ~ In (normalizeToolName "apply_patch") (normalizeToolNames (deny p))
  /\ ~ In (normalizeToolName "apply_patch") (normalizeToolNames (allow p))
  /\ isToolAllowedByPolicyName "apply_patch" (Some p) = true.
Proof.
  vm_compute. repeat split; try discriminate; try tauto.
  intros [H|[]]. discriminate.
Qed.

(** C9.  A policy whose allow list is present but holds no entry, or only
    entries that normalize to the empty string, has no allow set: a tool
    name is accepted exactly when its normal form is not denied. *)
Theorem isToolAllowedByPolicyName_blank_allow
    (name : string) (p : SandboxToolPolicy) (entries : list string) :
  allow p = Some entries ->
  Forall (fun entry => normalizeToolName entry = NStr "") entries ->
  normalizeToolNames (allow p) = []
  /\ (isToolAllowedByPolicyName name (Some p) = true
      <-> ~ In (normalizeToolName name) (normalizeToolNames (deny p))).
Proof.
  intros Ha Hblank.
  assert (Hnil : normalizeToolNames (allow p) = []).
  { rewrite Ha. unfold normalizeToolNames. clear Ha.
    induction Hblank as [|e l He _ IH]; cbn [map filter]; [reflexivity|].
    rewrite He. exact IH. }
  split; [exact Hnil|].
  rewrite isToolAllowedByPolicyName_eq. cbv zeta. rewrite Hnil.
  rewrite <- has_name_false.
  destruct (has NormName_eqb _ _); split; congruence.
Qed.

Lemma isToolAllowedByPolicyName_blank_allow_witness :
  isToolAllowedByPolicyName "write"
    (Some (mkPolicy (Some [""; String "160" "  "]) (Some ["exec"]))) = true
  /\ isToolAllowedByPolicyName "Bash"
       (Some (mkPolicy (Some []) (Some ["exec"]))) = false.
Proof.
  split.
  - apply (isToolAllowedByPolicyName_blank_allow "write"
             (mkPolicy (Some [""; String "160" "  "]) (Some ["exec"])) [""; String "160" "  "]).
    + reflexivity.
    + repeat constructor.
    + vm_compute. intros [H|[]]. discriminate.
  - destruct (isToolAllowedByPolicyName_blank_allow "Bash"
                (mkPolicy (Some []) (Some ["exec"])) [] eq_refl
                (Forall_nil _)) as [_ [H _]].
    destruct (isToolAllowedByPolicyName "Bash" _) eqn:E; [|reflexivity].
    exfalso. apply (H eq_refl). vm_compute. auto.
Defined.

(** C10.  When the allow set is not empty and holds ["exec"] (listed under
    that name or under its alias ["bash"]), the name ["apply_patch"] passes
    although the allow set does not list it, provided it is not denied. *)
Theorem isToolAllowedByPolicyName_apply_patch_via_exec
    (name : string) (p : SandboxToolPolicy) :
  normalizeToolName name = NStr "apply_patch" ->
  In (NStr "exec") (normalizeToolNames (allow p)) ->
  ~ In (NStr "apply_patch") (normalizeToolNames (deny p)) ->
  isToolAllowedByPolicyName name (Some p) = true.
Proof.
  intros Hn He Hd.
  rewrite isToolAllowedByPolicyName_eq. cbv zeta. rewrite Hn.
  apply has_name_false in Hd. rewrite Hd.
  destruct (normalizeToolNames (allow p)) as [|a l]; [reflexivity|].
  apply has_name_iff in He. rewrite He. simpl.
  apply orb_true_r.
Qed.

Lemma isToolAllowedByPolicyName_apply_patch_via_exec_witness :
  ~ In (NStr "apply_patch") (normalizeToolNames (Some ["read"; "bash"]))
  /\ isToolAllowedByPolicyName "apply_patch"
       (Some (mkPolicy (Some ["read"; "bash"]) (Some ["write"]))) = true.
Proof.
  split.
  - vm_compute. intros [H|[H|[]]]; discriminate.
  - apply (isToolAllowedByPolicyName_apply_patch_via_exec "apply_patch"
             (mkPolicy (Some ["read"; "bash"]) (Some ["write"]))).
    + reflexivity.
    + vm_compute. auto.
    + vm_compute. intros [H|[]]. discriminate.
Defined.

(** *** The effective policy *)

(** [agentConfig?.tools] for the agent the session key resolves to, as
    [resolveEffectiveToolPolicy] computes it. *)
Definition resolvedAgentTools (scope : AgentScope)
    (config : option ClawdbotConfig) (agent : option string)
    : option SandboxToolPolicy :=
  match config, agent with
  | Some cfg, Some id =>
      if truthyStr id then
        match resolveAgentConfig scope cfg id with
        | Some a => agent_tools a
        | None => None
        end
      else None
  | _, _ => None
  end.

Definition globalPolicy (config : option ClawdbotConfig)
    : option SandboxToolPolicy :=
  match config with
  | Some cfg => option_map toolsPolicy (tools cfg)
  | None => None
  end.

(** The agent's tools object has an [allow] or a [deny] that is an array,
    be it empty. *)
Definition hasAgentToolPolicy (agentTools : option SandboxToolPolicy) : bool :=
  match agentTools with
  | Some t => isArray (allow t) || isArray (deny t)
  | None => false
  end.

Lemma resolveEffectiveToolPolicy_policy (scope : AgentScope)
    (config : option ClawdbotConfig) (sessionKey : option string) :
  let r := resolveEffectiveToolPolicy scope config sessionKey in
  policy r
  = if hasAgentToolPolicy (resolvedAgentTools scope config (agentId r))
    then resolvedAgentTools scope config (agentId r)
    else globalPolicy config.
Proof.
  unfold resolveEffectiveToolPolicy, resolvedAgentTools, hasAgentToolPolicy,
    globalPolicy. cbn [policy agentId].
  destruct config as [cfg|]; [|now destruct sessionKey as [k|]; [destruct (truthyStr k)|]].
  destruct sessionKey as [k|]; [|reflexivity].
  destruct (truthyStr k); [|reflexivity].
  destruct (truthyStr (resolveAgentIdFromSessionKey scope k)); [|reflexivity].
  destruct (resolveAgentConfig scope cfg _) as [a|]; reflexivity.
Qed.

(** The agent a session key resolves to: [resolveAgentIdFromSessionKey] of
    the key, and none without a key. *)
Definition resolvedAgent (scope : AgentScope) (sessionKey : option string)
    : option string :=
  match sessionKey with
  | Some key =>
      if truthyStr key then Some (resolveAgentIdFromSessionKey scope key)
      else None
  | None => None
  end.

Lemma resolveEffectiveToolPolicy_agentId (scope : AgentScope)
    (config : option ClawdbotConfig) (sessionKey : option string) :
  agentId (resolveEffectiveToolPolicy scope config sessionKey)
  = resolvedAgent scope sessionKey.
Proof. reflexivity. Qed.

(** C2, as amended.  The agent is the one the session key resolves to
    through [resolveAgentIdFromSessionKey], and its configuration is the one
    [resolveAgentConfig] gives for that id.  [resolveEffectiveToolPolicy]
    returns the tools policy of this agent, and nothing of the global one,
    whenever that policy has an [allow] or a [deny] list, even an empty one;
    otherwise (no session key, no such agent, no tools object, or neither
    list) it returns the global tools policy.  The decision for a tool name
    is taken on the returned policy alone: a name the selected policy denies
    is rejected whatever the other level says. *)
Theorem resolveEffectiveToolPolicy_exclusive (scope : AgentScope)
    (config : option ClawdbotConfig) (sessionKey : option string) :
  let r := resolveEffectiveToolPolicy scope config sessionKey in
  let agentTools :=
    resolvedAgentTools scope config (resolvedAgent scope sessionKey) in
  (forall key, sessionKey = Some key -> key <> "" ->
               agentId r = Some (resolveAgentIdFromSessionKey scope key))
  /\ (sessionKey = None \/ sessionKey = Some "" ->
      agentId r = None
      /\ policy r = match config with
                    | Some cfg => option_map toolsPolicy (tools cfg)
                    | None => None
                    end)
  /\ (forall cfg key agent selected,
        config = Some cfg -> sessionKey = Some key -> key <> "" ->
        resolveAgentIdFromSessionKey scope key <> "" ->
        resolveAgentConfig scope cfg (resolveAgentIdFromSessionKey scope key)
        = Some agent ->
        agent_tools agent = Some selected ->
        (allow selected <> None \/ deny selected <> None ->
         policy r = Some selected)
        /\ (allow selected = None -> deny selected = None ->
            policy r = option_map toolsPolicy (tools cfg)))
  /\ (forall cfg key,
        config = Some cfg -> sessionKey = Some key -> key <> "" ->
        resolveAgentIdFromSessionKey scope key = ""
        \/ resolveAgentConfig scope cfg (resolveAgentIdFromSessionKey scope key)
           = None
        \/ (exists agent,
              resolveAgentConfig scope cfg
                (resolveAgentIdFromSessionKey scope key) = Some agent
              /\ agent_tools agent = None) ->
        policy r = option_map toolsPolicy (tools cfg))
  /\ (config = None -> policy r = None)
  /\ (hasAgentToolPolicy agentTools = true -> policy r = agentTools)
  /\ (hasAgentToolPolicy agentTools = false -> policy r = globalPolicy config)
  /\ (forall selected name,
        policy r = Some selected ->
        lists (deny selected) (normalizeToolName name) ->
        isToolAllowedByPolicyName name (policy r) = false).
Proof.
  cbv zeta.
  pose proof (resolveEffectiveToolPolicy_policy scope config sessionKey) as Hp.
  cbv zeta in Hp. rewrite resolveEffectiveToolPolicy_agentId in Hp.
  rewrite resolveEffectiveToolPolicy_agentId.
  split; [|split; [|split; [|split; [|split; [|split; [|split]]]]]].
  - intros key -> Hne. apply truthyStr_true in Hne. simpl. now rewrite Hne.
  - intros [-> | ->]; (split; [reflexivity|]); rewrite Hp; simpl;
      now destruct config.
  - intros cfg key agent selected -> -> Hkey Hid Hcfg Htools.
    apply truthyStr_true in Hkey, Hid. rewrite Hp.
    unfold resolvedAgent, resolvedAgentTools, hasAgentToolPolicy.
    rewrite Hkey, Hid, Hcfg, Htools. split.
    + intros H. destruct (allow selected), (deny selected); simpl; auto.
      destruct H; congruence.
    + now intros -> ->.
  - intros cfg key -> -> Hkey H. apply truthyStr_true in Hkey. rewrite Hp.
    unfold resolvedAgent, resolvedAgentTools, hasAgentToolPolicy.
    rewrite Hkey.
    destruct H as [H|[H|[agent [H Ht]]]].
    + now rewrite H.
    + destruct (truthyStr (resolveAgentIdFromSessionKey scope key));
        [rewrite H|]; reflexivity.
    + destruct (truthyStr (resolveAgentIdFromSessionKey scope key));
        [rewrite H, Ht|]; reflexivity.
  - intros ->. rewrite Hp. unfold resolvedAgentTools.
    now destruct (resolvedAgent scope sessionKey).
  - intros H. now rewrite Hp, H.
  - intros H. now rewrite Hp, H.
  - intros selected name Hsel Hden. rewrite Hsel.
    rewrite isToolAllowedByPolicyName_eq. cbv zeta.
    apply lists_iff, has_name_iff in Hden. now rewrite Hden.
Qed.

(** A sample of the agent-scope functions: the agent of a session key
    [agent:<id>:...] is [<id>], the agent of any other key is ["main"], and
    the configuration of an agent is the entry under its id. *)
Definition sampleAgentId (key : string) : string :=
  if Js.startsWith key "agent:"
  then
    let rest := String.substring 6 (String.length key - 6) key in
    match String.index 0 ":" rest with
    | Some n => String.substring 0 n rest
    | None => rest
    end
  else "main".

Definition sampleScope : AgentScope :=
  mkScope
    sampleAgentId
    (fun cfg id =>
       option_map snd
         (find (fun entry => String.eqb (fst entry) id) (agents cfg)))
    (fun _ => false).

Definition sampleAgentTools : SandboxToolPolicy :=
  mkPolicy (Some ["read"]) (Some ["exec"]).

Definition sampleConfig : ClawdbotConfig :=
  mkConfig
    (Some (mkTools (Some ["exec"; "read"]) (Some ["write"]) None None))
    [("main", mkAgent (Some (mkPolicy None None)));
     ("work", mkAgent (Some sampleAgentTools))].

Lemma resolveEffectiveToolPolicy_exclusive_witness :
  policy (resolveEffectiveToolPolicy sampleScope (Some sampleConfig)
            (Some "agent:work:main"))
  = Some sampleAgentTools
  /\ isToolAllowedByPolicyName "bash"
       (policy (resolveEffectiveToolPolicy sampleScope (Some sampleConfig)
                  (Some "agent:work:main"))) = false
  /\ policy (resolveEffectiveToolPolicy sampleScope (Some sampleConfig)
               (Some "agent:main:main"))
     = Some (mkPolicy (Some ["exec"; "read"]) (Some ["write"]))
  /\ policy (resolveEffectiveToolPolicy sampleScope (Some sampleConfig) None)
     = globalPolicy (Some sampleConfig).
Proof.
  split; [|split; [|split]].
  - apply (proj1 (proj2 (proj2 (resolveEffectiveToolPolicy_exclusive sampleScope
             (Some sampleConfig) (Some "agent:work:main"))))
             sampleConfig "agent:work:main" (mkAgent (Some sampleAgentTools))
             sampleAgentTools eq_refl eq_refl);
      try reflexivity; try discriminate.
    left. discriminate.
  - apply (proj2 (proj2 (proj2 (proj2 (proj2 (proj2 (proj2
             (resolveEffectiveToolPolicy_exclusive sampleScope
                (Some sampleConfig) (Some "agent:work:main"))))))))
             sampleAgentTools).
    + reflexivity.
    + exists "exec". split; [simpl; auto|]. split; [reflexivity|discriminate].
  - apply (proj1 (proj2 (proj2 (resolveEffectiveToolPolicy_exclusive sampleScope
             (Some sampleConfig) (Some "agent:main:main"))))
             sampleConfig "agent:main:main" (mkAgent (Some (mkPolicy None None)))
             (mkPolicy None None) eq_refl eq_refl);
      try reflexivity; discriminate.
  - apply (proj1 (proj2 (resolveEffectiveToolPolicy_exclusive sampleScope
                           (Some sampleConfig) None))).
    now left.
Defined.

(** C2, the claim as stated fails: an agent whose tools object has
    [allow: []] and no [deny] defines no allow or deny entry, yet its policy
    is returned in place of the global one, and ["exec"], which the global
    policy denies, is accepted under the returned policy. *)
Lemma resolveEffectiveToolPolicy_empty_agent_list_selected :
  let agentTools := mkPolicy (Some []) None in
  let cfg :=
    mkConfig (Some (mkTools None (Some ["exec"]) None None))
      [("main", mkAgent (Some agentTools))] in
  let r := resolveEffectiveToolPolicy sampleScope (Some cfg) (Some "main") in
  (forall entry,
     ~ In entry (match allow agentTools with Some l => l | None => [] end
                 ++ match deny agentTools with Some l => l | None => [] end))
  /\ policy r = Some agentTools
  /\ policy r <> globalPolicy (Some cfg)
  /\ isToolAllowedByPolicyName "exec" (globalPolicy (Some cfg)) = false
  /\ isToolAllowedByPolicyName "exec" (policy r) = true.
Proof.
  cbv zeta. repeat split; try reflexivity.
  - intros entry [].
  - discriminate.
Qed.

End PolicyFacts.

(** ** Schemas *)

Module SchemaFacts.
Import Js JsFacts Schema.

Lemma sameValueZero_eq (a b : JsVal) : sameValueZero a b = true -> a = b.
Proof.
  destruct a, b; simpl; try discriminate; try reflexivity; intros H.
  - apply Bool.eqb_prop in H. now subst.
  - apply Z.eqb_eq in H. now subst.
  - apply String.eqb_eq in H. now subst.
  - apply String.eqb_eq in H. now subst.
Qed.

Lemma String_eqb_true (a b : string) : String.eqb a b = true -> a = b.
Proof. apply String.eqb_eq. Qed.

(** *** Reading and writing properties *)

Lemma hasKey_app (r r' : Fields) (k : string) :
  hasKey (r ++ r') k = hasKey r k || hasKey r' k.
Proof.
  induction r as [|[k0 v0] r IH]; simpl; [reflexivity|].
  now rewrite IH, orb_assoc.
Qed.

Lemma get_app (r r' : Fields) (k : string) :
  get (r ++ r') k = if hasKey r k then get r k else get r' k.
Proof.
  induction r as [|[k0 v0] r IH]; simpl; [reflexivity|].
  destruct (String.eqb k0 k); simpl; [reflexivity|exact IH].
Qed.

Lemma get_absent (r : Fields) (k : string) :
  hasKey r k = false -> get r k = JUndefined.
Proof.
  induction r as [|[k0 v0] r IH]; simpl; [reflexivity|].
  destruct (String.eqb k0 k); simpl; [discriminate|exact IH].
Qed.

Lemma hasKey_replaceProp (r : Fields) (k k' : string) (v : JsVal) :
  hasKey (replaceProp r k v) k' = hasKey r k'.
Proof.
  induction r as [|[k0 v0] r IH]; simpl; [reflexivity|].
  destruct (String.eqb k0 k); simpl; [reflexivity|now rewrite IH].
Qed.

Lemma get_replaceProp (r : Fields) (k k' : string) (v : JsVal) :
  hasKey r k = true ->
  get (replaceProp r k v) k' = if String.eqb k k' then v else get r k'.
Proof.
  induction r as [|[k0 v0] r IH]; simpl; [discriminate|].
  destruct (String.eqb_spec k0 k) as [->|Hne]; simpl.
  - intros _. now destruct (String.eqb k k').
  - intros H. rewrite (IH H).
    destruct (String.eqb_spec k0 k') as [->|_]; [|reflexivity].
    destruct (String.eqb_spec k k') as [->|_]; [congruence|reflexivity].
Qed.

Lemma hasKey_insertIndex (r : Fields) (i : N) (k k' : string) (v : JsVal) :
  hasKey (insertIndex r i k v) k' = String.eqb k k' || hasKey r k'.
Proof.
  induction r as [|[k0 v0] r IH]; simpl; [reflexivity|].
  destruct (arrayIndex k0) as [j|]; [|reflexivity].
  destruct (j <? i)%N; [|reflexivity].
  simpl. rewrite IH.
  now destruct (String.eqb k0 k'), (String.eqb k k').
Qed.

Lemma get_insertIndex (r : Fields) (i : N) (k k' : string) (v : JsVal) :
  hasKey r k = false ->
  get (insertIndex r i k v) k' = if String.eqb k k' then v else get r k'.
Proof.
  induction r as [|[k0 v0] r IH]; simpl; [reflexivity|].
  intros H. apply orb_false_iff in H as [Hk Hr].
  destruct (arrayIndex k0) as [j|]; [|reflexivity].
  destruct (j <? i)%N; [|reflexivity].
  simpl. rewrite (IH Hr).
  destruct (String.eqb_spec k0 k') as [->|_]; [|reflexivity].
  now rewrite String.eqb_sym, Hk.
Qed.

Lemma hasKey_setProp (r : Fields) (k k' : string) (v : JsVal) :
  hasKey (setProp r k v) k' = String.eqb k k' || hasKey r k'.
Proof.
  unfold setProp. destruct (hasKey r k) eqn:Hk.
  - rewrite hasKey_replaceProp.
    destruct (String.eqb_spec k k') as [<-|_]; [now rewrite Hk|reflexivity].
  - destruct (arrayIndex k) as [i|]; [apply hasKey_insertIndex|].
    rewrite hasKey_app. simpl. rewrite orb_false_r. apply orb_comm.
Qed.

Lemma get_setProp (r : Fields) (k k' : string) (v : JsVal) :
  get (setProp r k v) k' = if String.eqb k k' then v else get r k'.
Proof.
  unfold setProp. destruct (hasKey r k) eqn:Hk.
  - now apply get_replaceProp.
  - destruct (arrayIndex k) as [i|]; [now apply get_insertIndex|].
    rewrite get_app. simpl.
    destruct (String.eqb_spec k k') as [<-|_].
    + now rewrite Hk.
    + destruct (hasKey r k') eqn:E; [reflexivity|]. now rewrite get_absent.
Qed.

(** A key that is no array index is added behind the others. *)
Lemma setProp_new (r : Fields) (k : string) (v : JsVal) :
  hasKey r k = false -> arrayIndex k = None -> setProp r k v = r ++ [(k, v)].
Proof. intros Hk Hi. unfold setProp. now rewrite Hk, Hi. Qed.

(** The order of the keys: array indices ascend at the front, whatever the
    order they are added in; other keys follow in the order they are added;
    a numeral that is no array index is such a key. *)
Example setProp_order :
  setProp (setProp (setProp (setProp (setProp [] "b" JNull) "10" JNull)
                      "a" JNull) "9" JNull) "007" JNull
  = [("9", JNull); ("10", JNull); ("b", JNull); ("a", JNull); ("007", JNull)]
  /\ setProp [("9", JNull); ("b", JNull)] "9" (JBool true)
     = [("9", JBool true); ("b", JNull)]
  /\ arrayIndex "4294967294" = Some 4294967294%N
  /\ arrayIndex "4294967295" = None.
Proof. repeat split. Qed.

(** A value that is no truthy object shows no property. *)
Lemma visible_object (v : JsVal) :
  truthy v && isObjectType v = false -> visible v = [].
Proof. destruct v; simpl; try reflexivity; discriminate. Qed.

(** *** The annotations carried into a merged property *)

Definition annotationKeys : list string := ["title"; "description"; "default"].

Definition isAnnotationKey (k : string) : bool :=
  existsb (String.eqb k) annotationKeys.

(** [key in source] and [source[key]] for a source of a merge, under one of
    the annotation keys. *)
Definition annotated (source : JsVal) (key : string) : bool :=
  hasKey (visible source) key.

Definition annotation (source : JsVal) (key : string) : JsVal :=
  get (visible source) key.

Section CopyKeys.
Variable r : Fields.

Let step (merged : Fields) (key : string) : Fields :=
  if negb (hasKey merged key) && hasKey r key
  then setProp merged key (get r key) else merged.

Lemma hasKey_copy (ks : list string) (m : Fields) (k : string) :
  hasKey (fold_left step ks m) k
  = hasKey m k || (existsb (String.eqb k) ks && hasKey r k).
Proof.
  revert m; induction ks as [|key ks IH]; intros m; simpl.
  - now rewrite orb_false_r.
  - rewrite IH. unfold step.
    destruct (String.eqb_spec k key) as [->|Hne].
    + destruct (hasKey m key) eqn:Hm, (hasKey r key) eqn:Hr; simpl;
        rewrite ?hasKey_setProp, ?String.eqb_refl, ?Hm, ?Hr; simpl;
        now rewrite ?orb_false_r, ?andb_false_r, ?andb_true_r.
    + destruct (negb (hasKey m key) && hasKey r key); [|reflexivity].
      rewrite hasKey_setProp.
      destruct (String.eqb_spec key k) as [->|_]; [congruence|reflexivity].
Qed.

Lemma get_copy (ks : list string) (m : Fields) (k : string) :
  get (fold_left step ks m) k
  = if hasKey m k then get m k
    else if existsb (String.eqb k) ks && hasKey r k then get r k
    else get m k.
Proof.
  revert m; induction ks as [|key ks IH]; intros m; simpl.
  - now destruct (hasKey m k).
  - rewrite IH. unfold step.
    destruct (String.eqb_spec k key) as [->|Hne].
    + destruct (hasKey m key) eqn:Hm, (hasKey r key) eqn:Hr; simpl;
        rewrite ?hasKey_setProp, ?get_setProp, ?String.eqb_refl, ?Hm, ?Hr;
        simpl; try reflexivity.
      now rewrite andb_false_r.
    + destruct (negb (hasKey m key) && hasKey r key); [|reflexivity].
      rewrite hasKey_setProp, get_setProp.
      destruct (String.eqb_spec key k) as [->|_]; [congruence|reflexivity].
Qed.
End CopyKeys.

Lemma hasKey_copyAnnotations (m : Fields) (source : JsVal) (k : string) :
  hasKey (copyAnnotations m source) k
  = hasKey m k || (isAnnotationKey k && annotated source k).
Proof.
  unfold copyAnnotations, annotated, isAnnotationKey.
  destruct (truthy source && isObjectType source) eqn:E; cbn [negb].
  - apply hasKey_copy.
  - rewrite (visible_object _ E). simpl.
    now rewrite andb_false_r, orb_false_r.
Qed.

Lemma get_copyAnnotations (m : Fields) (source : JsVal) (k : string) :
  get (copyAnnotations m source) k
  = if hasKey m k then get m k
    else if isAnnotationKey k && annotated source k then annotation source k
    else get m k.
Proof.
  unfold copyAnnotations, annotated, annotation, isAnnotationKey.
  destruct (truthy source && isObjectType source) eqn:E; cbn [negb].
  - apply get_copy.
  - rewrite (visible_object _ E). simpl. rewrite andb_false_r.
    now destruct (hasKey m k).
Qed.

Lemma annotation_absent (source : JsVal) (key : string) :
  annotated source key = false -> annotation source key = JUndefined.
Proof. apply get_absent. Qed.

(** *** The merge of two property schemas *)

(** The type tags of the values are one tag exactly when there is a value
    and all values have that tag. *)
Lemma types_singleton (values : list JsVal) (t : string) :
  newSet String.eqb (map typeOf values) = [t]
  <-> values <> [] /\ (forall v, In v values -> typeOf v = t).
Proof.
  split.
  - intros H. split.
    + intros ->. discriminate H.
    + intros v Hv.
      assert (Hin : In (typeOf v) (newSet String.eqb (map typeOf values))).
      { apply (In_newSet _ String_eqb_true). now apply in_map. }
      rewrite H in Hin. destruct Hin as [Hin|[]]. now symmetry.
  - intros [Hne Hall].
    apply (distinct_all_equal String.eqb String_eqb_true String.eqb_refl).
    + apply newSet_distinct.
    + destruct values as [|v values]; [congruence|].
      intros Hnil.
      assert (Hin : In (typeOf v)
                      (newSet String.eqb (map typeOf (v :: values)))).
      { apply (In_newSet _ String_eqb_true). simpl. auto. }
      now rewrite Hnil in Hin.
    + intros a Ha. apply (proj1 (In_newSet _ String_eqb_true _ _)) in Ha.
      apply in_map_iff in Ha as [v [<- Hv]]. now apply Hall.
Qed.

(** The object [mergePropertySchemas] builds when a side is an enumeration. *)
Definition mergedEnumeration (existing incoming : JsVal) : Fields :=
  let values :=
    newSet sameValueZero
      (orEmpty (extractEnumValues existing)
       ++ orEmpty (extractEnumValues incoming)) in
  let merged := copyAnnotations (copyAnnotations [] existing) incoming in
  let merged :=
    match newSet String.eqb (map typeOf values) with
    | [t] => setProp merged "type" (JStr t)
    | _ => merged
    end in
  setProp merged "enum" (JArr values).

Lemma mergePropertySchemas_eq (existing incoming : JsVal) :
  truthy existing = true -> truthy incoming = true ->
  mergePropertySchemas existing incoming
  = if isSome (extractEnumValues existing)
       || isSome (extractEnumValues incoming)
    then JObj (mergedEnumeration existing incoming)
    else existing.
Proof.
  intros He Hi. unfold mergePropertySchemas. rewrite He, Hi. reflexivity.
Qed.

Lemma hasKey_annotations (existing incoming : JsVal) (k : string) :
  hasKey (copyAnnotations (copyAnnotations [] existing) incoming) k
  = isAnnotationKey k && (annotated existing k || annotated incoming k).
Proof.
  rewrite !hasKey_copyAnnotations. simpl.
  now destruct (isAnnotationKey k), (annotated existing k).
Qed.

Lemma get_annotations (existing incoming : JsVal) (k : string) :
  isAnnotationKey k = true ->
  get (copyAnnotations (copyAnnotations [] existing) incoming) k
  = if annotated existing k then annotation existing k
    else annotation incoming k.
Proof.
  intros Hk. rewrite !get_copyAnnotations, hasKey_copyAnnotations. simpl.
  rewrite Hk. simpl.
  destruct (annotated existing k); [reflexivity|].
  destruct (annotated incoming k) eqn:Hi; [reflexivity|].
  now rewrite annotation_absent.
Qed.

Lemma mergedEnumeration_enum (existing incoming : JsVal) :
  get (mergedEnumeration existing incoming) "enum"
  = JArr (firstSeen sameValueZero []
            (orEmpty (extractEnumValues existing)
             ++ orEmpty (extractEnumValues incoming))).
Proof.
  unfold mergedEnumeration. cbv zeta.
  rewrite get_setProp, String.eqb_refl. now rewrite newSet_firstSeen.
Qed.

Lemma mergedEnumeration_type (existing incoming : JsVal) (t : string) :
  let values :=
    firstSeen sameValueZero []
      (orEmpty (extractEnumValues existing)
       ++ orEmpty (extractEnumValues incoming)) in
  get (mergedEnumeration existing incoming) "type" = JStr t
  <-> values <> [] /\ (forall v, In v values -> typeOf v = t).
Proof.
  cbv zeta. rewrite <- types_singleton, <- newSet_firstSeen.
  unfold mergedEnumeration. cbv zeta.
  rewrite get_setProp. change (String.eqb "enum" "type") with false. cbv iota.
  set (values := newSet sameValueZero _).
  assert (Hnone : get (copyAnnotations (copyAnnotations [] existing) incoming)
                    "type" = JUndefined).
  { apply get_absent. now rewrite hasKey_annotations. }
  destruct (newSet String.eqb (map typeOf values)) as [|t0 [|t1 l]].
  - rewrite Hnone. split; discriminate.
  - rewrite get_setProp, String.eqb_refl. split; congruence.
  - rewrite Hnone. split; discriminate.
Qed.

(** Without one tag for all values the merged schema has no [type]. *)
Lemma mergedEnumeration_untyped (existing incoming : JsVal) :
  let values :=
    firstSeen sameValueZero []
      (orEmpty (extractEnumValues existing)
       ++ orEmpty (extractEnumValues incoming)) in
  hasKey (mergedEnumeration existing incoming) "type" = true ->
  forall a b, In a values -> In b values -> typeOf a = typeOf b.
Proof.
  cbv zeta. rewrite <- newSet_firstSeen.
  unfold mergedEnumeration. cbv zeta.
  rewrite hasKey_setProp. change (String.eqb "enum" "type") with false.
  cbn [orb].
  set (values := newSet sameValueZero _).
  destruct (newSet String.eqb (map typeOf values)) as [|t0 [|t1 l]] eqn:E;
    try (rewrite hasKey_annotations; discriminate).
  intros _ a b Ha Hb. apply types_singleton in E as [_ E].
  now rewrite (E a Ha), (E b Hb).
Qed.

Lemma mergedEnumeration_annotation (existing incoming : JsVal) (key : string) :
  In key annotationKeys ->
  hasKey (mergedEnumeration existing incoming) key
  = annotated existing key || annotated incoming key
  /\ get (mergedEnumeration existing incoming) key
     = if annotated existing key then annotation existing key
       else annotation incoming key.
Proof.
  intros Hk.
  assert (Hann : isAnnotationKey key = true
                 /\ String.eqb "enum" key = false
                 /\ String.eqb "type" key = false).
  { destruct Hk as [<-|[<-|[<-|[]]]]; repeat split. }
  destruct Hann as [Ha [He Ht]].
  unfold mergedEnumeration. cbv zeta.
  rewrite hasKey_setProp, get_setProp, He. cbn [orb].
  destruct (newSet String.eqb _) as [|t0 [|t1 l]];
    rewrite ?hasKey_setProp, ?get_setProp, ?Ht; cbn [orb];
    rewrite hasKey_annotations, get_annotations, Ha by exact Ha; auto.
Qed.

(** The equation of [extractEnumValues] on an object literal. *)
Definition unionValues (variants : list JsVal) : list JsVal :=
  flat_map (fun variant => orEmpty (extractEnumValues variant)) variants.

Definition nonEmpty (values : list JsVal) : option (list JsVal) :=
  match values with
  | [] => None
  | _ :: _ => Some values
  end.

(** What [extractEnumValues] finds along the alternatives under [key]. *)
Definition unionAt (record : Fields) (key : string) : option (list JsVal) :=
  match get record key with
  | JArr variants => Some (unionValues variants)
  | _ => None
  end.

Lemma extractEnumValues_visible (schema : JsVal) :
  truthy schema && isObjectType schema = true ->
  extractEnumValues schema
  = let record := visible schema in
    match get record "enum" with
    | JArr values => Some values
    | _ =>
        if hasKey record "const" then Some [get record "const"]
        else
          match get record "anyOf" with
          | JArr variants => nonEmpty (unionValues variants)
          | _ =>
              match get record "oneOf" with
              | JArr variants => nonEmpty (unionValues variants)
              | _ => None
              end
          end
    end.
Proof.
  intros Hobj.
  assert (Henum : forall record,
             enumeration record (unionAt record "anyOf") (unionAt record "oneOf")
             = match get record "enum" with
               | JArr values => Some values
               | _ =>
                   if hasKey record "const" then Some [get record "const"]
                   else
                     match get record "anyOf" with
                     | JArr variants => nonEmpty (unionValues variants)
                     | _ =>
                         match get record "oneOf" with
                         | JArr variants => nonEmpty (unionValues variants)
                         | _ => None
                         end
                     end
               end).
  { intros record. unfold enumeration, unionAt.
    destruct (get record "enum"); try reflexivity;
      destruct (hasKey record "const"); try reflexivity;
      destruct (get record "anyOf"); try reflexivity;
      try (destruct (get record "oneOf"); try reflexivity;
           now destruct (unionValues _));
      now destruct (unionValues _). }
  destruct schema; try discriminate Hobj; cbn [visible];
    try (cbv zeta; cbn [get hasKey]; reflexivity);
    cbn [extractEnumValues];
    match goal with
    | |- context [?arrayAt "anyOf" _ _] =>
        assert (HA : forall key fs absent,
                   arrayAt key fs absent
                   = if hasKey fs key then unionAt fs key else absent)
    end.
  1, 3: intros key fs absent; induction fs as [|[k v] fs IH];
        [reflexivity|];
        unfold unionAt; cbn [get hasKey];
        destruct (String.eqb k key); [now destruct v|exact IH].
  - rewrite !HA. cbv zeta. rewrite <- Henum. f_equal; unfold unionAt;
      match goal with
      | |- context [hasKey fields ?k] =>
          destruct (hasKey fields k) eqn:E; [reflexivity|];
          now rewrite (get_absent _ _ E)
      end.
  - rewrite !HA. cbv zeta. rewrite <- Henum.
    assert (Hu : forall key,
               (if hasKey fields key then unionAt fields key
                else if hasKey proto key then unionAt proto key else None)
               = unionAt (fields ++ proto) key).
    { intros key. unfold unionAt. rewrite get_app.
      destruct (hasKey fields key); [reflexivity|].
      destruct (hasKey proto key) eqn:E; [reflexivity|].
      now rewrite (get_absent _ _ E). }
    now rewrite !Hu.
Qed.

Lemma extractEnumValues_object (record : Fields) :
  extractEnumValues (JObj record)
  = match get record "enum" with
    | JArr values => Some values
    | _ =>
        if hasKey record "const" then Some [get record "const"]
        else
          match get record "anyOf" with
          | JArr variants => nonEmpty (unionValues variants)
          | _ =>
              match get record "oneOf" with
              | JArr variants => nonEmpty (unionValues variants)
              | _ => None
              end
          end
    end.
Proof. now rewrite extractEnumValues_visible. Qed.

(** A value that is no truthy object is no enumeration. *)
Lemma extractEnumValues_nonobject (schema : JsVal) :
  truthy schema && isObjectType schema = false ->
  extractEnumValues schema = None.
Proof. destruct schema; try reflexivity; discriminate. Qed.

(** The scalar types, in the words of [typeof], and the scalar type of a
    value that is a string, a number or a boolean. *)
Definition scalarTypes : list string := ["string"; "number"; "boolean"].

Definition primitiveType (v : JsVal) : option string :=
  match v with
  | JBool _ => Some "boolean"
  | JNum _ => Some "number"
  | JStr _ => Some "string"
  | _ => None
  end.

Lemma primitiveType_typeOf (v : JsVal) (t : string) :
  primitiveType v = Some t -> typeOf v = t.
Proof. destruct v; simpl; intros H; inversion H; reflexivity. Qed.

Lemma typeOf_primitiveType (v : JsVal) :
  In (typeOf v) scalarTypes -> primitiveType v = Some (typeOf v).
Proof.
  destruct v; simpl; intros H; try reflexivity;
    repeat (destruct H as [H|H]; [discriminate H|]); destruct H.
Qed.

(** The union schema of the example: two object alternatives whose
    [action] property is an enumeration. *)
Definition actionVariant (values : list string) : JsVal :=
  JObj [("type", JStr "object");
        ("properties",
         JObj [("action", JObj [("enum", JArr (map JStr values))])])].

Definition actionUnion : JsVal :=
  JObj [("anyOf", JArr [actionVariant ["x"; "y"]; actionVariant ["y"; "z"]])].

(** C3, as amended.  For two property schemas that are both truthy:
    when neither is an enumeration the first one is kept; when one is (it
    has an [enum] array, a [const], or an [anyOf]/[oneOf] of such), the
    merged schema is an object whose [enum] lists the values of both sides in
    first-seen order, a value being dropped when an earlier one is the same.
    A scalar [type] ([string], [number] or [boolean]) is set only if there
    is a value and every value has that primitive type, and it is set then;
    no [type] at all is set when two values differ in their [typeof].  [title], [description] and [default]
    are each taken from the first of the two schemas that has the key,
    whatever the value under it, empty ones included.  A schema that is
    falsy gives way to the other one.  The alternatives
    [{action: enum[x,y]}] and [{action: enum[y,z]}] flatten to
    [{action: {type: string, enum: [x,y,z]}}]. *)
Theorem mergePropertySchemas_enumeration :
  (forall existing incoming,
     truthy existing = true -> truthy incoming = true ->
     let existingEnum := extractEnumValues existing in
     let incomingEnum := extractEnumValues incoming in
     let values :=
       firstSeen sameValueZero []
         (orEmpty existingEnum ++ orEmpty incomingEnum) in
     (existingEnum = None -> incomingEnum = None ->
      mergePropertySchemas existing incoming = existing)
     /\ (existingEnum <> None \/ incomingEnum <> None ->
         exists merged,
           mergePropertySchemas existing incoming = JObj merged
           /\ get merged "enum" = JArr values
           /\ (forall v, In v values
                         <-> In v (orEmpty existingEnum)
                             \/ In v (orEmpty incomingEnum))
           /\ distinct sameValueZero values
           /\ (forall t, In t scalarTypes ->
                         (get merged "type" = JStr t
                          <-> values <> []
                              /\ forall v, In v values ->
                                           primitiveType v = Some t))
           /\ (forall a b, In a values -> In b values ->
                           typeOf a <> typeOf b ->
                           hasKey merged "type" = false)
           /\ (forall key, In key annotationKeys ->
                 hasKey merged key
                 = annotated existing key || annotated incoming key
                 /\ get merged key
                    = if annotated existing key
                      then annotation existing key
                      else annotation incoming key)))
  /\ (forall record values,
        get record "enum" = JArr values ->
        extractEnumValues (JObj record) = Some values)
  /\ (forall record,
        isArrayVal (get record "enum") = false ->
        hasKey record "const" = true ->
        extractEnumValues (JObj record) = Some [get record "const"])
  /\ (forall record variants,
        isArrayVal (get record "enum") = false ->
        hasKey record "const" = false ->
        get record "anyOf" = JArr variants
        \/ (isArrayVal (get record "anyOf") = false
            /\ get record "oneOf" = JArr variants) ->
        extractEnumValues (JObj record)
        = match flat_map (fun variant => orEmpty (extractEnumValues variant))
                  variants with
          | [] => None
          | values => Some values
          end)
  /\ (forall record,
        isArrayVal (get record "enum") = false ->
        hasKey record "const" = false ->
        isArrayVal (get record "anyOf") = false ->
        isArrayVal (get record "oneOf") = false ->
        extractEnumValues (JObj record) = None)
  /\ mergePropertySchemas
       (JObj [("enum", JArr [JStr "x"; JStr "y"])])
       (JObj [("enum", JArr [JStr "y"; JStr "z"])])
     = JObj [("type", JStr "string");
             ("enum", JArr [JStr "x"; JStr "y"; JStr "z"])]
  /\ (forall clean toolName run,
        normalizeToolParameters clean (mkTool toolName actionUnion run)
        = mkTool toolName
            (clean
               (JObj [("type", JStr "object");
                      ("properties",
                       JObj [("action",
                              JObj [("type", JStr "string");
                                    ("enum",
                                     JArr [JStr "x"; JStr "y"; JStr "z"])])]);
                      ("additionalProperties", JBool true)]))
            run)
  /\ (forall existing incoming,
        truthy existing = false ->
        mergePropertySchemas existing incoming = incoming)
  /\ (forall existing incoming,
        truthy existing = true -> truthy incoming = false ->
        mergePropertySchemas existing incoming = existing).
Proof.
  split; [|split; [|split; [|split; [|split; [|split; [|split; [|split]]]]]]].
  - intros existing incoming He Hi. cbv zeta.
    rewrite (mergePropertySchemas_eq _ _ He Hi). split.
    + intros -> ->. reflexivity.
    + intros Hsome.
      assert (Hb : isSome (extractEnumValues existing)
                   || isSome (extractEnumValues incoming) = true).
      { destruct (extractEnumValues existing), (extractEnumValues incoming);
          simpl; auto. destruct Hsome; congruence. }
      rewrite Hb. exists (mergedEnumeration existing incoming).
      split; [reflexivity|]. split; [apply mergedEnumeration_enum|].
      split; [|split; [|split; [|split]]].
      * intros v. rewrite <- newSet_firstSeen.
        rewrite (In_newSet _ sameValueZero_eq). apply in_app_iff.
      * rewrite <- newSet_firstSeen. apply newSet_distinct.
      * intros t Hscalar. rewrite mergedEnumeration_type. split.
        -- intros [Hne Hall]. split; [exact Hne|]. intros v Hv.
           rewrite <- (Hall v Hv) in *. now apply typeOf_primitiveType.
        -- intros [Hne Hall]. split; [exact Hne|]. intros v Hv.
           now apply primitiveType_typeOf, Hall.
      * intros a b Ha Hb' Hdiff.
        destruct (hasKey (mergedEnumeration existing incoming) "type") eqn:E;
          [|reflexivity].
        exfalso. apply Hdiff.
        now apply (mergedEnumeration_untyped existing incoming E).
      * intros key Hk. now apply mergedEnumeration_annotation.
  - intros record values H. rewrite extractEnumValues_object. now rewrite H.
  - intros record Hnot Hc. rewrite extractEnumValues_object, Hc.
    destruct (get record "enum"); try reflexivity. discriminate.
  - intros record variants He Hc Hv.
    rewrite extractEnumValues_object, Hc.
    fold (unionValues variants).
    destruct Hv as [Ha|[Ha Ho]].
    + rewrite Ha.
      destruct (get record "enum"); try discriminate;
        now destruct (unionValues variants).
    + rewrite Ho.
      destruct (get record "enum"); try discriminate;
        destruct (get record "anyOf"); try discriminate;
        now destruct (unionValues variants).
  - intros record He Hc Ha Ho. rewrite extractEnumValues_object, Hc.
    destruct (get record "enum"); try discriminate;
      destruct (get record "anyOf"); try discriminate;
      destruct (get record "oneOf"); try discriminate; reflexivity.
  - reflexivity.
  - intros clean toolName run. reflexivity.
  - intros existing incoming He. unfold mergePropertySchemas. now rewrite He.
  - intros existing incoming He Hi. unfold mergePropertySchemas.
    now rewrite He, Hi.
Qed.

Lemma mergePropertySchemas_enumeration_witness :
  let existing :=
    JObj [("const", JNum 1); ("description", JStr "one")] in
  let incoming :=
    JObj [("title", JStr "T"); ("description", JStr "more");
          ("anyOf", JArr [JObj [("const", JNum 2)];
                          JObj [("enum", JArr [JNum 1; JNum 3])]])] in
  exists merged,
    mergePropertySchemas existing incoming = JObj merged
    /\ get merged "enum" = JArr [JNum 1; JNum 2; JNum 3]
    /\ get merged "type" = JStr "number"
    /\ get merged "description" = JStr "one"
    /\ get merged "title" = JStr "T".
Proof.
  cbv zeta.
  destruct (proj1 mergePropertySchemas_enumeration
              (JObj [("const", JNum 1); ("description", JStr "one")])
              (JObj [("title", JStr "T"); ("description", JStr "more");
                     ("anyOf", JArr [JObj [("const", JNum 2)];
                                     JObj [("enum", JArr [JNum 1; JNum 3])]])])
              eq_refl eq_refl) as [_ H].
  destruct H as [merged [Hm [He [_ [_ [Ht [_ Ha]]]]]]].
  - left. discriminate.
  - exists merged. split; [exact Hm|]. split; [exact He|]. split.
    + apply (Ht "number"); [simpl; auto|].
      split; [discriminate|].
      intros v [<-|[<-|[<-|[]]]]; reflexivity.
    + split.
      * apply (Ha "description"). simpl. auto.
      * apply (Ha "title"). simpl. auto.
Defined.

(** C3, the claim as stated fails: the first schema has an empty title and
    the second a title that is not empty; the merged schema carries the
    empty title of the first, not the first title that is not empty. *)
Lemma mergePropertySchemas_keeps_empty_title :
  let existing := JObj [("enum", JArr [JStr "x"]); ("title", JStr "")] in
  let incoming := JObj [("enum", JArr [JStr "y"]); ("title", JStr "T")] in
  mergePropertySchemas existing incoming
  = JObj [("title", JStr ""); ("type", JStr "string");
          ("enum", JArr [JStr "x"; JStr "y"])]
  /\ truthy (annotation existing "title") = false
  /\ truthy (annotation incoming "title") = true
  /\ annotation incoming "title" <> JStr "".
Proof.
  cbv zeta. repeat split. discriminate.
Qed.

(** *** The required list of a flattened union *)

(** [entry.properties] and the [required] array of an alternative, empty
    when it has none. *)
Definition propertiesOf (entry : JsVal) : JsVal :=
  get (visible entry) "properties".

Definition requiredOf (entry : JsVal) : list JsVal :=
  match get (visible entry) "required" with JArr r => r | _ => [] end.

(** The alternative defines object properties: the loop does not skip it. *)
Definition definesObjectProperties (entry : JsVal) : bool :=
  truthy entry && isObjectType entry
  && (truthy (propertiesOf entry) && isObjectType (propertiesOf entry)).

Definition objectAlternatives (variants : list JsVal) : list JsVal :=
  filter definesObjectProperties variants.

(** [requiredCounts.get(k) ?? 0]. *)
Definition countOf (m : list (string * nat)) (k : string) : nat :=
  match mapGet m k with Some n => n | None => 0 end.

(** 1 when [key] is the string [k]. *)
Definition occurs (k : string) (key : JsVal) : nat :=
  match key with
  | JStr s => if String.eqb s k then 1 else 0
  | _ => 0
  end.

Definition occurrences (k : string) (keys : list JsVal) : nat :=
  list_sum (map (occurs k) keys).

Lemma mapGet_mapSet (m : list (string * nat)) (k k' : string) (n : nat) :
  mapGet (mapSet m k n) k' = if String.eqb k k' then Some n else mapGet m k'.
Proof.
  induction m as [|[k0 c] m IH]; simpl.
  - reflexivity.
  - destruct (String.eqb_spec k0 k) as [->|Hne]; simpl.
    + now destruct (String.eqb k k').
    + rewrite IH. destruct (String.eqb_spec k0 k') as [->|_]; [|reflexivity].
      destruct (String.eqb_spec k k') as [->|_]; [congruence|reflexivity].
Qed.

Lemma keys_mapSet (m : list (string * nat)) (k : string) (n : nat) :
  map fst (mapSet m k n)
  = if existsb (String.eqb k) (map fst m) then map fst m
    else map fst m ++ [k].
Proof.
  induction m as [|[k0 c] m IH]; simpl.
  - reflexivity.
  - rewrite (String.eqb_sym k k0).
    destruct (String.eqb k0 k); simpl; [reflexivity|].
    rewrite IH. now destruct (existsb _ _).
Qed.

Lemma NoDup_keys_mapSet (m : list (string * nat)) (k : string) (n : nat) :
  NoDup (map fst m) -> NoDup (map fst (mapSet m k n)).
Proof.
  intros H. rewrite keys_mapSet.
  destruct (existsb (String.eqb k) (map fst m)) eqn:E; [exact H|].
  apply NoDup_app; [exact H|repeat constructor; auto|].
  intros x Hx [Heq|[]]. subst x.
  assert (existsb (String.eqb k) (map fst m) = true); [|congruence].
  apply existsb_exists. exists k. split; [exact Hx|apply String.eqb_refl].
Qed.

Lemma mapGet_In (m : list (string * nat)) (k : string) (n : nat) :
  NoDup (map fst m) -> (In (k, n) m <-> mapGet m k = Some n).
Proof.
  induction m as [|[k0 c] m IH]; simpl; intros Hnd.
  - split; [tauto|discriminate].
  - inversion Hnd as [|? ? Hnotin Hnd']; subst.
    destruct (String.eqb_spec k0 k) as [->|Hne].
    + split.
      * intros [H|H]; [congruence|].
        exfalso. apply Hnotin. apply in_map_iff. now exists (k, n).
      * intros H. left. congruence.
    + rewrite <- (IH Hnd'). split; [|tauto].
      intros [H|H]; [congruence|exact H].
Qed.

(** Every key of the map has been counted at least once. *)
Definition positive (m : list (string * nat)) : Prop :=
  forall k n, mapGet m k = Some n -> 0 < n.

Lemma countRequired_spec (m : list (string * nat)) (key : JsVal) :
  NoDup (map fst m) -> positive m ->
  NoDup (map fst (countRequired m key))
  /\ positive (countRequired m key)
  /\ (forall k, countOf (countRequired m key) k = countOf m k + occurs k key).
Proof.
  intros Hnd Hpos. destruct key; simpl;
    try (split; [exact Hnd|split; [exact Hpos|intros; lia]]).
  split; [now apply NoDup_keys_mapSet|]. split.
  - intros k n. rewrite mapGet_mapSet.
    destruct (String.eqb s k); [|apply Hpos].
    intros H. injection H as <-. lia.
  - intros k. unfold countOf. rewrite mapGet_mapSet.
    destruct (String.eqb_spec s k) as [->|_]; [|lia].
    destruct (mapGet m k); lia.
Qed.

Lemma countRequired_fold (keys : list JsVal) (m : list (string * nat)) :
  NoDup (map fst m) -> positive m ->
  NoDup (map fst (fold_left countRequired keys m))
  /\ positive (fold_left countRequired keys m)
  /\ (forall k, countOf (fold_left countRequired keys m) k
                = countOf m k + occurrences k keys).
Proof.
  revert m; induction keys as [|key keys IH]; intros m Hnd Hpos; simpl.
  - split; [exact Hnd|]. split; [exact Hpos|]. intros k.
    unfold occurrences. simpl. lia.
  - destruct (countRequired_spec m key Hnd Hpos) as [Hnd' [Hpos' Hc]].
    destruct (IH _ Hnd' Hpos') as [Hnd2 [Hpos2 Hc2]].
    split; [exact Hnd2|]. split; [exact Hpos2|].
    intros k. rewrite Hc2, Hc. unfold occurrences. simpl. lia.
Qed.

Lemma visitVariant_eq (st : FlattenState) (entry : JsVal) :
  visitVariant st entry
  = if definesObjectProperties entry
    then mkFlatten
           (fold_left mergeProperty (entries (propertiesOf entry))
              (mergedProperties st))
           (fold_left countRequired (requiredOf entry) (requiredCounts st))
           (objectVariants st + 1)
    else st.
Proof.
  unfold visitVariant, definesObjectProperties, propertiesOf, requiredOf.
  destruct (truthy entry && isObjectType entry); [|reflexivity].
  cbn [negb andb].
  now destruct (truthy (get (visible entry) "properties")
                && isObjectType (get (visible entry) "properties")).
Qed.

(** What the loop has counted after all variants. *)
Lemma visitVariants_counts (variants : list JsVal) (st : FlattenState) :
  NoDup (map fst (requiredCounts st)) -> positive (requiredCounts st) ->
  let st' := fold_left visitVariant variants st in
  NoDup (map fst (requiredCounts st'))
  /\ positive (requiredCounts st')
  /\ objectVariants st'
     = objectVariants st + List.length (objectAlternatives variants)
  /\ (forall k, countOf (requiredCounts st') k
                = countOf (requiredCounts st) k
                  + list_sum (map (fun entry => occurrences k (requiredOf entry))
                                (objectAlternatives variants))).
Proof.
  revert st; induction variants as [|entry variants IH]; intros st Hnd Hpos;
    cbv zeta; simpl.
  - repeat split; auto; intros; lia.
  - rewrite visitVariant_eq.
    destruct (definesObjectProperties entry) eqn:Hobj.
    + destruct (countRequired_fold (requiredOf entry) _ Hnd Hpos)
        as [Hnd' [Hpos' Hc]].
      match goal with
      | |- context [fold_left visitVariant variants ?s] =>
          specialize (IH s Hnd' Hpos')
      end.
      cbv zeta in IH. cbn [requiredCounts objectVariants] in IH.
      destruct IH as [H1 [H2 [H3 H4]]].
      split; [exact H1|]. split; [exact H2|]. split.
      * rewrite H3. simpl. lia.
      * intros k. rewrite H4, Hc. simpl. lia.
    + apply IH; assumption.
Qed.

Lemma occurrences_absent (k : string) (keys : list JsVal) :
  ~ In (JStr k) keys -> occurrences k keys = 0.
Proof.
  unfold occurrences. induction keys as [|key keys IH]; simpl; intros H.
  - reflexivity.
  - rewrite IH by tauto.
    destruct key; simpl; try reflexivity.
    destruct (String.eqb_spec s k) as [->|_]; [|reflexivity].
    exfalso. apply H. now left.
Qed.

(** In a list that names no key twice, a key occurs once or not at all. *)
Lemma occurrences_NoDup (k : string) (keys : list JsVal) :
  NoDup (filter isStr keys) ->
  occurrences k keys <= 1 /\ (occurrences k keys = 1 <-> In (JStr k) keys).
Proof.
  induction keys as [|key keys IH]; simpl; intros Hnd.
  - unfold occurrences. simpl. split; [lia|]. split; [lia|tauto].
  - assert (Hstep : occurrences k (key :: keys)
                    = occurs k key + occurrences k keys) by reflexivity.
    rewrite Hstep.
    destruct key; simpl in *;
      try (destruct (IH Hnd) as [H1 H2]; split; [lia|];
           rewrite H2; split; [tauto|]; intros [H|H]; [discriminate|exact H]).
    inversion Hnd as [|? ? Hnotin Hnd']; subst.
    destruct (String.eqb_spec s k) as [->|Hne].
    + rewrite occurrences_absent.
      * split; [lia|]. split; auto.
      * intros Hin. apply Hnotin. apply filter_In. now split.
    + destruct (IH Hnd') as [H1 H2]. split; [lia|].
      rewrite H2. split; [tauto|]. intros [H|H]; [congruence|exact H].
Qed.

(** A sum of zeros and ones reaches the length exactly when all are ones. *)
Lemma list_sum_full {A : Type} (f : A -> nat) (l : list A) :
  (forall x, In x l -> f x <= 1) ->
  list_sum (map f l) <= List.length l
  /\ (list_sum (map f l) = List.length l <-> forall x, In x l -> f x = 1).
Proof.
  induction l as [|a l IH]; simpl; intros Hle.
  - split; [lia|]. split; [tauto|reflexivity].
  - destruct IH as [IH1 IH2]; [intros x Hx; apply Hle; auto|].
    pose proof (Hle a (or_introl eq_refl)) as Ha.
    split; [lia|]. split.
    + intros Hsum x [<-|Hx]; [lia|]. apply IH2; [lia|exact Hx].
    + intros Hall. rewrite (Hall a) by auto.
      assert (Hl : list_sum (map f l) = List.length l).
      { apply IH2. intros x Hx. apply Hall. auto. }
      lia.
Qed.

Lemma filter_all {A : Type} (f : A -> bool) (l : list A) :
  forallb f l = true -> filter f l = l.
Proof.
  induction l as [|x l IH]; simpl; intros H; [reflexivity|].
  apply andb_true_iff in H as [Hx Hl]. rewrite Hx. f_equal. auto.
Qed.

(** The [required] of the flattened schema is the merged list, the key
    being left out when there is no list or an empty one. *)
Lemma flattenedSchema_required_key (schema nextSchema : Fields)
    (st : FlattenState) :
  exists flat,
    flattenedSchema schema nextSchema st = JObj flat
    /\ get flat "required"
       = match mergedRequired schema st with
         | Some (key :: keys) => JArr (key :: keys)
         | _ => JUndefined
         end
    /\ hasKey flat "required"
       = match mergedRequired schema st with
         | Some (_ :: _) => true
         | _ => false
         end.
Proof.
  unfold flattenedSchema. eexists. split; [reflexivity|].
  destruct (isStr (get nextSchema "title")),
    (isStr (get nextSchema "description")),
    (mergedRequired schema st) as [[|key keys]|]; split; reflexivity.
Qed.

(** The keys the loop keeps: those counted once per object alternative. *)
Lemma In_counted (m : list (string * nat)) (n : nat) (v : JsVal) :
  NoDup (map fst m) ->
  (In v (map (fun kc => JStr (fst kc)) (filter (fun kc => snd kc =? n) m))
   <-> exists k, v = JStr k /\ mapGet m k = Some n).
Proof.
  intros Hnd. rewrite in_map_iff. split.
  - intros [[k c] [<- Hin]]. apply filter_In in Hin as [Hin Hc].
    simpl in *. apply Nat.eqb_eq in Hc. subst c.
    exists k. split; [reflexivity|]. now apply mapGet_In.
  - intros [k [-> Hget]]. exists (k, n). split; [reflexivity|].
    apply filter_In. split; [now apply mapGet_In|].
    simpl. apply Nat.eqb_refl.
Qed.

(** [normalizeToolParameters] on a tool whose schema is an object literal. *)
Lemma normalizeToolParameters_object (clean : JsVal -> JsVal)
    (tool : AnyAgentTool) (schema : Fields) :
  parameters tool = JObj schema ->
  normalizeToolParameters clean tool
  = if hasKey schema "type" && hasKey schema "properties"
       && negb (isArrayVal (get schema "anyOf"))
    then withParameters tool (clean (JObj schema))
    else if negb (hasKey schema "type")
            && (isObjectType (get schema "properties")
                || isArrayVal (get schema "required"))
            && negb (isArrayVal (get schema "anyOf"))
            && negb (isArrayVal (get schema "oneOf"))
    then withParameters tool
           (clean (JObj (setProp schema "type" (JStr "object"))))
    else
      match variantKey schema with
      | None => tool
      | Some key =>
          withParameters tool
            (clean (flattenedSchema schema schema
                      (visitVariants (items (get schema key)))))
      end.
Proof. intros Hp. unfold normalizeToolParameters. now rewrite Hp. Qed.

(** The union of the example: [A] requires [a] and [b], [B] requires [a]. *)
Definition requiredUnion : Fields :=
  [("anyOf",
    JArr [JObj [("type", JStr "object");
                ("properties",
                 JObj [("a", JObj [("type", JStr "string")]);
                       ("b", JObj [("type", JStr "string")])]);
                ("required", JArr [JStr "a"; JStr "b"])];
          JObj [("type", JStr "object");
                ("properties", JObj [("a", JObj [("type", JStr "string")])]);
                ("required", JArr [JStr "a"])]])].

(** The alternatives of a union schema: the [anyOf] array, or else the
    [oneOf] array. *)
Definition alternatives (schema : Fields) : list JsVal :=
  if isArrayVal (get schema "anyOf") then items (get schema "anyOf")
  else items (get schema "oneOf").

(** The schema is one that [normalizeToolParameters] flattens: it has an
    [anyOf] array, or it has a [oneOf] array and lacks [type] or
    [properties]. *)
Definition isFlattened (schema : Fields) : bool :=
  isArrayVal (get schema "anyOf")
  || (isArrayVal (get schema "oneOf")
      && negb (hasKey schema "type" && hasKey schema "properties")).

Lemma normalizeToolParameters_flattened (clean : JsVal -> JsVal)
    (tool : AnyAgentTool) :
  truthy (parameters tool) && isObjectType (parameters tool) = true ->
  isFlattened (visible (parameters tool)) = true ->
  normalizeToolParameters clean tool
  = withParameters tool
      (clean (flattenedSchema (visible (parameters tool))
                (entries (parameters tool))
                (visitVariants (alternatives (visible (parameters tool)))))).
Proof.
  intros Hobj Hflat. unfold normalizeToolParameters, variantKey, alternatives.
  rewrite Hobj. cbn [negb]. cbv zeta. unfold isFlattened in Hflat.
  set (schema := visible (parameters tool)) in *.
  destruct (isArrayVal (get schema "anyOf")) eqn:Ha; cbn [orb negb] in *.
  - rewrite !andb_false_r. cbn [andb]. reflexivity.
  - apply andb_true_iff in Hflat as [Ho Hn].
    apply negb_true_iff in Hn. rewrite Hn, Ho.
    rewrite !andb_true_r, !andb_false_r. reflexivity.
Qed.

(** The keys that every alternative defining object properties lists. *)
Definition requiredByAll (variants : list JsVal) (k : string) : Prop :=
  forall entry, In entry (objectAlternatives variants) ->
                In (JStr k) (requiredOf entry).

(** What the loop leaves in [requiredCounts] at full count, when no
    alternative names a key twice. *)
Lemma counted_requiredByAll (variants : list JsVal) :
  objectAlternatives variants <> [] ->
  (forall entry, In entry (objectAlternatives variants) ->
                 NoDup (filter isStr (requiredOf entry))) ->
  let st := visitVariants variants in
  (0 <? objectVariants st) = true
  /\ forall v,
       In v (map (fun kc => JStr (fst kc))
               (filter (fun kc => snd kc =? objectVariants st)
                  (requiredCounts st)))
       <-> exists k, v = JStr k /\ requiredByAll variants k.
Proof.
  intros Hobj Hnd. cbv zeta.
  destruct (visitVariants_counts variants
              (mkFlatten (mkAccumulator [] None) [] 0))
    as [Hkeys [Hpos [Hn Hc]]];
    [constructor | intros k n; discriminate |].
  fold (visitVariants variants) in Hkeys, Hpos, Hn, Hc.
  cbn [objectVariants requiredCounts] in Hn, Hc.
  assert (Hlen : 0 < objectVariants (visitVariants variants)).
  { rewrite Hn. destruct (objectAlternatives variants); [congruence|].
    simpl. lia. }
  split; [now apply Nat.ltb_lt|].
  intros v. rewrite (In_counted _ _ _ Hkeys).
  assert (Hfull : forall k,
             mapGet (requiredCounts (visitVariants variants)) k
             = Some (objectVariants (visitVariants variants))
             <-> requiredByAll variants k).
  { intros k. unfold requiredByAll.
    destruct (list_sum_full (fun entry => occurrences k (requiredOf entry))
                (objectAlternatives variants)) as [_ Hsum].
    { intros x Hx. now apply occurrences_NoDup, Hnd. }
    specialize (Hc k). unfold countOf in Hc. simpl in Hc, Hn.
    split.
    - intros Hget entry Hin. rewrite Hget in Hc.
      apply (occurrences_NoDup k _ (Hnd entry Hin)).
      apply Hsum; [lia|exact Hin].
    - intros Hall.
      assert (Hs : list_sum (map (fun entry => occurrences k (requiredOf entry))
                               (objectAlternatives variants))
                   = List.length (objectAlternatives variants)).
      { apply Hsum. intros x Hx.
        apply (occurrences_NoDup k _ (Hnd x Hx)). now apply Hall. }
      destruct (mapGet (requiredCounts (visitVariants variants)) k) as [n|];
        [f_equal; lia|].
      exfalso. rewrite Hn in Hlen. lia. }
  split.
  - intros [k [-> Hget]]. exists k. split; [reflexivity|]. now apply Hfull.
  - intros [k [-> Hall]]. exists k. split; [reflexivity|]. now apply Hfull.
Qed.

Lemma visitVariants_none (variants : list JsVal) :
  objectAlternatives variants = [] ->
  objectVariants (visitVariants variants) = 0.
Proof.
  intros Hobj.
  destruct (visitVariants_counts variants
              (mkFlatten (mkAccumulator [] None) [] 0))
    as [_ [_ [Hn _]]]; [constructor | intros k n; discriminate |].
  fold (visitVariants variants) in Hn. rewrite Hn, Hobj. reflexivity.
Qed.

(** C4, as amended.  When [normalizeToolParameters] flattens a union (a
    schema with an [anyOf] array, or with a [oneOf] array and without [type]
    or [properties]), the schema it hands to the cleaner has this
    [required]: if the union itself has a [required] array with at least one
    string entry, that array without its entries that are not strings (the
    array itself when all are strings); otherwise, when some alternative
    defines object properties and no alternative names a key twice, exactly
    the keys that every alternative defining object properties lists, the
    key [required] being left out when there is no such key; and no
    [required] when no alternative defines object properties.  [A]
    requiring [a, b] and [B] requiring [a] flatten to [required = [a]]. *)
Theorem flattenedSchema_required (clean : JsVal -> JsVal)
    (tool : AnyAgentTool) :
  truthy (parameters tool) && isObjectType (parameters tool) = true ->
  let schema := visible (parameters tool) in
  isFlattened schema = true ->
  let variants := alternatives schema in
  exists flat,
    parameters (normalizeToolParameters clean tool) = clean (JObj flat)
    /\ (forall r,
          get schema "required" = JArr r -> filter isStr r <> [] ->
          get flat "required" = JArr (filter isStr r))
    /\ (forall r,
          get schema "required" = JArr r -> r <> [] ->
          forallb isStr r = true ->
          get flat "required" = JArr r)
    /\ ((forall r, get schema "required" = JArr r -> filter isStr r = []) ->
        objectAlternatives variants <> [] ->
        (forall entry, In entry (objectAlternatives variants) ->
                       NoDup (filter isStr (requiredOf entry))) ->
        (forall v, In v (items (get flat "required"))
                   <-> exists k, v = JStr k /\ requiredByAll variants k)
        /\ (hasKey flat "required" = true
            <-> exists k, requiredByAll variants k)
        /\ (hasKey flat "required" = true ->
            isArrayVal (get flat "required") = true))
    /\ ((forall r, get schema "required" = JArr r -> filter isStr r = []) ->
        objectAlternatives variants = [] ->
        hasKey flat "required" = false).
Proof.
  intros Hobj schema Hflat variants.
  rewrite (normalizeToolParameters_flattened clean tool Hobj Hflat).
  fold schema. fold variants.
  destruct (flattenedSchema_required_key schema (entries (parameters tool))
              (visitVariants variants)) as [flat [Hf [Hget Hhas]]].
  exists flat. split; [now rewrite Hf|].
  assert (Hbase : (forall r, get schema "required" = JArr r ->
                             filter isStr r = []) ->
                  mergedRequired schema (visitVariants variants)
                  = if 0 <? objectVariants (visitVariants variants)
                    then Some (map (fun kc => JStr (fst kc))
                                 (filter
                                    (fun kc =>
                                       snd kc
                                       =? objectVariants (visitVariants variants))
                                    (requiredCounts (visitVariants variants))))
                    else None).
  { intros Hnone. unfold mergedRequired, baseRequired.
    destruct (get schema "required") eqn:Hr; try reflexivity.
    now rewrite (Hnone _ eq_refl). }
  assert (Hkept : forall r,
             get schema "required" = JArr r -> filter isStr r <> [] ->
             get flat "required" = JArr (filter isStr r)).
  { intros r Hr Hne. rewrite Hget. unfold mergedRequired, baseRequired.
    rewrite Hr. now destruct (filter isStr r). }
  split; [exact Hkept|]. split; [|split].
  - intros r Hr Hne Hall. pose proof (Hkept r Hr) as H.
    rewrite (filter_all isStr r Hall) in H. now apply H.
  - intros Hnone Hsome Hnd.
    destruct (counted_requiredByAll variants Hsome Hnd) as [Hpos Hin].
    cbv zeta in Hpos, Hin.
    rewrite (Hbase Hnone), Hpos in Hget, Hhas.
    destruct (map _ (filter _ (requiredCounts (visitVariants variants))))
      as [|key keys] eqn:Hl.
    + rewrite Hget, Hhas. split; [|split].
      * intros v. rewrite <- Hin. simpl. tauto.
      * split; [discriminate|]. intros [k Hk]. exfalso.
        apply (proj2 (Hin (JStr k))). now exists k.
      * discriminate.
    + rewrite Hget, Hhas. split; [|split].
      * intros v. rewrite <- Hin. reflexivity.
      * split; [|reflexivity]. intros _.
        destruct (proj1 (Hin key) (or_introl eq_refl)) as [k [_ Hk]].
        now exists k.
      * reflexivity.
  - intros Hnone Hzero. rewrite Hhas, (Hbase Hnone).
    now rewrite (visitVariants_none variants Hzero).
Qed.

Lemma flattenedSchema_required_witness :
  exists flat,
    parameters (normalizeToolParameters (fun s => s)
                  (mkTool "act" (JObj requiredUnion) (Native "act")))
    = JObj flat
    /\ In (JStr "a") (items (get flat "required"))
    /\ ~ In (JStr "b") (items (get flat "required")).
Proof.
  destruct (flattenedSchema_required (fun s => s)
              (mkTool "act" (JObj requiredUnion) (Native "act"))
              eq_refl eq_refl) as [flat [Hp [_ [_ [H _]]]]].
  exists flat. split; [exact Hp|].
  destruct H as [Hin _].
  - intros r Hr. discriminate Hr.
  - discriminate.
  - intros entry Hin. vm_compute in Hin.
    destruct Hin as [<-|[<-|[]]]; vm_compute.
    + constructor; [intros [H|[]]; discriminate|].
      constructor; [intros []|constructor].
    + constructor; [intros []|constructor].
  - split.
    + apply Hin. exists "a". split; [reflexivity|].
      intros entry He. vm_compute in He.
      destruct He as [<-|[<-|[]]]; vm_compute; auto.
    + intros Hb. apply Hin in Hb as [k [Hk Hall]]. injection Hk as <-.
      specialize (Hall (JObj [("type", JStr "object");
                              ("properties",
                               JObj [("a", JObj [("type", JStr "string")])]);
                              ("required", JArr [JStr "a"])])).
      vm_compute in Hall. destruct Hall as [H|[]]; [auto|discriminate].
Defined.

(** The example of the claim, evaluated. *)
Example flattenedSchema_required_example :
  normalizeToolParameters (fun s => s)
    (mkTool "act" (JObj requiredUnion) (Native "act"))
  = mkTool "act"
      (JObj [("type", JStr "object");
             ("properties",
              JObj [("a", JObj [("type", JStr "string")]);
                    ("b", JObj [("type", JStr "string")])]);
             ("required", JArr [JStr "a"]);
             ("additionalProperties", JBool true)])
      (Native "act").
Proof. reflexivity. Qed.

(** C4, the claim as stated fails: the union declares a top-level
    [required] list, the empty one, and it is not kept; the flattened
    schema requires [a], the key its only alternative requires. *)
Lemma flattenedSchema_required_empty_top_level :
  let schema :=
    [("anyOf",
      JArr [JObj [("properties", JObj [("a", JObj [("type", JStr "string")])]);
                  ("required", JArr [JStr "a"])]]);
     ("required", JArr [])] in
  get schema "required" = JArr []
  /\ normalizeToolParameters (fun s => s)
       (mkTool "tool" (JObj schema) (Native "tool"))
     = mkTool "tool"
         (JObj [("type", JStr "object");
                ("properties", JObj [("a", JObj [("type", JStr "string")])]);
                ("required", JArr [JStr "a"]);
                ("additionalProperties", JBool true)])
         (Native "tool").
Proof.
  cbv zeta. repeat split.
Qed.

End SchemaFacts.

(** ** Image results *)

Module ReadImageFacts.
Import Js JsFacts ReadImage.

Lemma length_append (a b : string) :
  String.length (String.append a b) = String.length a + String.length b.
Proof. induction a as [|c a IH]; simpl; [reflexivity|now rewrite IH]. Qed.

Lemma substring_all (b : string) : String.substring 0 (String.length b) b = b.
Proof. induction b as [|c b IH]; simpl; [reflexivity|now rewrite IH]. Qed.

Lemma substring_suffix (a b : string) :
  String.substring (String.length a) (String.length b) (String.append a b) = b.
Proof. induction a as [|c a IH]; simpl; [apply substring_all|exact IH]. Qed.

Lemma endsWith_append (a b : string) : endsWith (String.append a b) b = true.
Proof.
  unfold endsWith. rewrite length_append.
  replace (String.length a + String.length b - String.length b)
    with (String.length a) by lia.
  rewrite substring_suffix, String.eqb_refl.
  apply andb_true_iff. split; [apply Nat.leb_le; lia|reflexivity].
Qed.

Lemma append_assoc (a b c : string) :
  String.append a (String.append b c) = String.append (String.append a b) c.
Proof. induction a as [|x a IH]; simpl; [reflexivity|now rewrite IH]. Qed.

Lemma startsWith_append (a b : string) : startsWith (String.append a b) a = true.
Proof.
  unfold startsWith. induction a as [|c a IH]; simpl.
  - now destruct b.
  - destruct (Ascii.ascii_dec c c); [exact IH|congruence].
Qed.

(** A text that is exactly the header of the read tool for some type is
    rewritten to the header for the new type. *)
Lemma rewriteReadImageHeader_header (declared sniffed : string) :
  rewriteReadImageHeader (readImageHeader declared) sniffed
  = readImageHeader sniffed.
Proof.
  unfold rewriteReadImageHeader.
  assert (Hs : startsWith (readImageHeader declared) "Read image file [" = true)
    by apply startsWith_append.
  assert (He : endsWith (readImageHeader declared) "]" = true).
  { unfold readImageHeader. rewrite append_assoc.
    apply endsWith_append. }
  now rewrite Hs, He.
Qed.

(** The length of the slice that is decoded for sniffing. *)
Definition sliceLen (base64 : string) : nat :=
  let take := Nat.min 256 (String.length (trim base64)) in
  take - (take mod 4).

Lemma sliceLen_bound (base64 : string) :
  sliceLen base64 <= 256
  /\ sliceLen base64 <= String.length (trim base64)
  /\ sliceLen base64 mod 4 = 0.
Proof.
  unfold sliceLen. cbv zeta.
  set (take := Nat.min 256 (String.length (trim base64))).
  assert (Htake : take <= 256 /\ take <= String.length (trim base64))
    by (unfold take; lia).
  pose proof (Nat.mod_upper_bound take 4 ltac:(lia)) as Hm.
  pose proof (Nat.div_mod_eq take 4) as Hd.
  split; [lia|]. split; [lia|].
  replace (take - take mod 4) with (take / 4 * 4) by lia.
  apply Nat.Div0.mod_mul.
Qed.

Lemma sniffMimeFromBase64_eq (env : Sniffer) (base64 : string) :
  sniffMimeFromBase64 env base64
  = if negb (truthyStr (trim base64)) then None
    else if sliceLen base64 <? 8 then None
    else match detectMime env
                 (bufferFromBase64 env
                    (String.substring 0 (sliceLen base64) (trim base64))) with
         | inr sniffed => sniffed
         | inl _ => None
         end.
Proof. reflexivity. Qed.












(** *** A sample sniffer *)

(** The value of a character of the base64 alphabet. *)
Definition base64Digit (c : ascii) : N :=
  let n := N_of_ascii c in
  if ((65 <=? n) && (n <=? 90))%N then (n - 65)%N
  else if ((97 <=? n) && (n <=? 122))%N then (n - 71)%N
  else if ((48 <=? n) && (n <=? 57))%N then (n + 4)%N
  else if (n =? 43)%N then 62%N
  else 63%N.

Definition byteOfN (n : N) : Byte.byte := byte_of_ascii (ascii_of_N n).

(** Decoding of well-formed base64 text, four characters at a time. *)
Fixpoint sampleDecode (s : string) : list Byte.byte :=
  match s with
  | String a (String b (String c (String d rest))) =>
      let pad := "="%char in
      let n := (base64Digit a * 262144 + base64Digit b * 4096
                + (if Ascii.eqb c pad then 0 else base64Digit c) * 64
                + (if Ascii.eqb d pad then 0 else base64Digit d))%N in
      [byteOfN (n / 65536)]
      ++ (if Ascii.eqb c pad then [] else [byteOfN ((n / 256) mod 256)])
      ++ (if Ascii.eqb d pad then [] else [byteOfN (n mod 256)])
      ++ sampleDecode rest
  | _ => []
  end.

(** Detection by signature: PNG, JPEG and PDF. *)
Definition sampleDetect (head : list Byte.byte) : string + option string :=
  match map (fun b => N_of_ascii (ascii_of_byte b)) head with
  | 137%N :: 80%N :: 78%N :: 71%N :: _ => inr (Some "image/png")
  | 255%N :: 216%N :: 255%N :: _ => inr (Some "image/jpeg")
  | 37%N :: 80%N :: 68%N :: 70%N :: _ => inr (Some "application/pdf")
  | _ => inr None
  end.

Definition sampleSniffer : Sniffer := mkSniffer sampleDecode sampleDetect.

(** A result declared [image/jpeg] whose payload starts with the PNG
    signature, with its header text. *)
Definition mislabelled : AgentToolResult :=
  mkResult
    [TextBlock "Read image file [image/jpeg]";
     ImageBlock (Some "iVBORw0KGgo=") (Some "image/jpeg")]
    0.



End ReadImageFacts.

(** ** Cancellation *)

Module AbortFacts.
Import Abort.

(** A store is well formed when the fired signals exist and every signal
    follows older, existing signals only. *)
Definition wf (st : Signals) : Prop :=
  (forall s, In s (fired st) -> s < count st)
  /\ (forall d s, In (d, s) (sources st) -> s < d /\ d < count st).

(** [st'] is a later state of the store [st]: signals may have been created,
    linked and aborted; nothing is undone. *)
Definition later (st st' : Signals) : Prop :=
  count st <= count st'
  /\ incl (fired st) (fired st')
  /\ incl (sources st) (sources st')
  /\ wf st'.

Lemma existsb_ext_in {A : Type} (f g : A -> bool) (l : list A) :
  (forall x, In x l -> f x = g x) -> existsb f l = existsb g l.
Proof.
  induction l as [|a l IH]; simpl; intros H; [reflexivity|].
  rewrite (H a) by auto. f_equal. apply IH. auto.
Qed.

Lemma In_sourcesOf (st : Signals) (d s : nat) :
  In s (sourcesOf st d) <-> In (d, s) (sources st).
Proof.
  unfold sourcesOf. rewrite in_map_iff. split.
  - intros [[d' s'] [<- Hin]]. apply filter_In in Hin as [Hin Hd].
    simpl in *. apply Nat.eqb_eq in Hd. now subst.
  - intros Hin. exists (d, s). split; [reflexivity|].
    apply filter_In. split; [exact Hin|]. simpl. apply Nat.eqb_refl.
Qed.

Lemma wasFired_iff (st : Signals) (s : nat) :
  existsb (Nat.eqb s) (fired st) = true <-> In s (fired st).
Proof.
  rewrite existsb_exists. split.
  - intros [x [Hx He]]. apply Nat.eqb_eq in He. now subst.
  - intros H. exists s. split; [exact H|apply Nat.eqb_refl].
Qed.

Lemma abortedWithin_mono (st : Signals) (d d' s : nat) :
  d <= d' -> abortedWithin d st s = true -> abortedWithin d' st s = true.
Proof.
  revert d' s; induction d as [|d IH]; intros d' s Hle; simpl.
  - rewrite orb_false_r. intros H. destruct d'; simpl; now rewrite H.
  - destruct d' as [|d']; [lia|]. simpl.
    intros H. apply orb_true_iff in H as [H|H]; apply orb_true_iff; auto.
    right. apply existsb_exists in H as [x [Hx Hab]].
    apply existsb_exists. exists x. split; [exact Hx|].
    apply IH; [lia|exact Hab].
Qed.

Lemma abortedWithin_later (st st' : Signals) (d s : nat) :
  incl (fired st) (fired st') -> incl (sources st) (sources st') ->
  abortedWithin d st s = true -> abortedWithin d st' s = true.
Proof.
  intros Hf Hs. revert s; induction d as [|d IH]; intros s; simpl.
  - rewrite !orb_false_r, !wasFired_iff. apply Hf.
  - intros H. apply orb_true_iff in H as [H|H]; apply orb_true_iff.
    + left. apply wasFired_iff. apply Hf. now apply wasFired_iff.
    + right. apply existsb_exists in H as [x [Hx Hab]].
      apply existsb_exists. exists x. split; [|now apply IH].
      apply In_sourcesOf. apply Hs. now apply In_sourcesOf.
Qed.

(** A signal that is aborted stays aborted. *)
Lemma aborted_later (st st' : Signals) (s : nat) :
  later st st' -> aborted st s = true -> aborted st' s = true.
Proof.
  intros [_ [Hf [Hs _]]]. now apply abortedWithin_later.
Qed.

(** A signal is aborted as soon as a signal it follows is. *)
Lemma aborted_follows (st : Signals) (c a : nat) :
  wf st -> In (c, a) (sources st) -> aborted st a = true ->
  aborted st c = true.
Proof.
  intros [_ Hw] Hin Ha. destruct (Hw c a Hin) as [Hlt _].
  unfold aborted in *. destruct c as [|c]; [lia|]. simpl.
  apply orb_true_iff. right. apply existsb_exists. exists a.
  split; [now apply In_sourcesOf|].
  apply (abortedWithin_mono st a c a); [lia|exact Ha].
Qed.

(** Depth beyond the index of a signal adds nothing. *)
Lemma abortedWithin_enough (st : Signals) :
  wf st ->
  forall n x d, x < n -> x <= d ->
                abortedWithin d st x = abortedWithin x st x.
Proof.
  intros [_ Hw]. induction n as [|n IH]; intros x d Hx Hd; [lia|].
  destruct x as [|x], d as [|d]; try lia; try reflexivity.
  - simpl. f_equal.
    destruct (sourcesOf st 0) as [|s l] eqn:E; [reflexivity|].
    assert (Hin : In s (sourcesOf st 0)) by (rewrite E; simpl; auto).
    apply In_sourcesOf in Hin. apply Hw in Hin. lia.
  - simpl. f_equal. apply existsb_ext_in. intros s Hs.
    apply In_sourcesOf in Hs. apply Hw in Hs as [Hs _].
    rewrite (IH s d) by lia. rewrite (IH s x) by lia. reflexivity.
Qed.

Lemma aborted_within (st : Signals) (x d : nat) :
  wf st -> x <= d -> abortedWithin d st x = aborted st x.
Proof.
  intros Hw Hle. apply (abortedWithin_enough st Hw (S x)); lia.
Qed.

Lemma later_refl (st : Signals) : wf st -> later st st.
Proof.
  intros H. unfold later.
  split; [lia|]. split; [apply incl_refl|]. split; [apply incl_refl|exact H].
Qed.

Lemma existsb_same_members {A : Type} (f : A -> bool) (l1 l2 : list A) :
  (forall x, In x l1 <-> In x l2) -> existsb f l1 = existsb f l2.
Proof.
  intros H. apply eq_true_iff_eq. rewrite !existsb_exists.
  split; intros [x [Hx Hf]]; exists x; split; auto; now apply H.
Qed.

(** [st'] is [st] with one new signal [c] that follows [a] and [b]. *)
Definition derives (st : Signals) (a b c : nat) (st' : Signals) : Prop :=
  c = count st
  /\ count st' = S c
  /\ fired st' = fired st
  /\ (forall l, In l (sources st')
                <-> l = (c, a) \/ l = (c, b) \/ In l (sources st)).

Lemma derives_later (st st' : Signals) (a b c : nat) :
  wf st -> a < count st -> b < count st -> derives st a b c st' ->
  later st st'.
Proof.
  intros [Hf Hs] Ha Hb [-> [Hc [Hfired Hsrc]]].
  split; [lia|]. split; [rewrite Hfired; apply incl_refl|].
  split; [intros l Hl; apply Hsrc; auto|].
  split.
  - intros s Hin. rewrite Hfired in Hin. apply Hf in Hin. lia.
  - intros d s Hin. apply Hsrc in Hin as [H|[H|H]].
    + injection H as -> ->. lia.
    + injection H as -> ->. lia.
    + apply Hs in H. lia.
Qed.

(** The new signal changes nothing for the older ones. *)
Lemma derives_old (st st' : Signals) (a b c : nat) :
  wf st -> derives st a b c st' ->
  forall d x, x < count st -> abortedWithin d st' x = abortedWithin d st x.
Proof.
  intros [Hf Hs] [-> [Hc [Hfired Hsrc]]].
  induction d as [|d IH]; intros x Hx; simpl; rewrite Hfired; [reflexivity|].
  f_equal.
  rewrite (existsb_same_members _ (sourcesOf st' x) (sourcesOf st x)).
  - apply existsb_ext_in. intros s Hin. apply IH.
    apply In_sourcesOf in Hin. apply Hs in Hin. lia.
  - intros s. rewrite !In_sourcesOf, Hsrc. split; [|auto].
    intros [H|[H|H]]; [injection H; lia|injection H; lia|exact H].
Qed.

(** A signal made from two signals that are not aborted is not aborted. *)
Lemma derives_not_aborted (st st' : Signals) (a b c : nat) :
  wf st -> a < count st -> b < count st -> derives st a b c st' ->
  aborted st a = false -> aborted st b = false -> aborted st' c = false.
Proof.
  intros Hwf Ha Hb Hder Hna Hnb.
  pose proof (derives_later _ _ _ _ _ Hwf Ha Hb Hder) as [_ [_ [_ Hwf']]].
  pose proof (derives_old _ _ _ _ _ Hwf Hder) as Hold.
  destruct Hwf as [Hf Hs]. destruct Hder as [-> [Hc [Hfired Hsrc]]].
  unfold aborted. destruct (count st) as [|c] eqn:Ecount; [lia|].
  cbn [abortedWithin]. apply orb_false_iff. split.
  - rewrite Hfired. destruct (existsb _ _) eqn:E; [|reflexivity].
    apply wasFired_iff in E. apply Hf in E. lia.
  - destruct (existsb _ _) eqn:E; [|reflexivity].
    apply existsb_exists in E as [s [Hin Hab]].
    apply In_sourcesOf, Hsrc in Hin.
    assert (Hcases : s = a \/ s = b).
    { destruct Hin as [H|[H|H]]; [injection H; auto|injection H; auto|].
      apply Hs in H. lia. }
    assert (Hs' : s <= c) by (destruct Hcases; subst; lia).
    rewrite (aborted_within st' s c Hwf' Hs') in Hab.
    unfold aborted in Hab. rewrite Hold in Hab by lia.
    destruct Hcases; subst; unfold aborted in *; congruence.
Qed.

Lemma combineAbortSignals_fresh (hasAny : bool) (st : Signals) (a b : nat) :
  aborted st a = false -> aborted st b = false ->
  exists st',
    combineAbortSignals hasAny (Some a) (Some b) st = (Some (count st), st')
    /\ derives st a b (count st) st'.
Proof.
  intros Ha Hb. unfold combineAbortSignals. rewrite Ha, Hb.
  destruct hasAny; simpl; eexists; (split; [reflexivity|]);
    (split; [reflexivity|]); (split; [reflexivity|]);
    (split; [reflexivity|]); intros l; simpl; intuition auto.
Qed.

(** Aborting a signal of the store leads to a later state. *)
Lemma later_abort (st : Signals) (s : nat) :
  wf st -> s < count st -> later st (abort s st).
Proof.
  intros [Hf Hs] Hlt. split; [simpl; lia|].
  split; [intros x Hx; simpl; auto|].
  split; [apply incl_refl|]. split.
  - intros x [<-|Hx]; simpl; [exact Hlt|now apply Hf].
  - exact Hs.
Qed.

Section Wrapped.
Context {World Params R : Type}.
Variable hasAny : bool.

(** The signal a wrapped call works with, in every case. *)
Lemma combineAbortSignals_cases (st : Signals) (signal : option nat)
    (abortSignal : nat) :
  wf st -> abortSignal < count st ->
  (forall a, signal = Some a -> a < count st) ->
  exists c st',
    combineAbortSignals hasAny signal (Some abortSignal) st = (Some c, st')
    /\ later st st'
    /\ (aborted st' c = true
        <-> aborted st abortSignal = true
            \/ exists a, signal = Some a /\ aborted st a = true)
    /\ (aborted st' c = true -> st' = st)
    /\ (forall st'',
          later st' st'' ->
          aborted st'' abortSignal = true
          \/ (exists a, signal = Some a /\ aborted st'' a = true) ->
          aborted st'' c = true).
Proof.
  intros Hwf Hb Hsig. destruct signal as [a|].
  - specialize (Hsig a eq_refl).
    destruct (aborted st a) eqn:Ha; [|destruct (aborted st abortSignal) eqn:Hab].
    + exists a, st.
      split; [unfold combineAbortSignals; now rewrite Ha|].
      split; [now apply later_refl|].
      split; [split; [right; now exists a|intros _; exact Ha]|].
      split; [reflexivity|].
      intros st'' Hl _. now apply (aborted_later st st'').
    + exists abortSignal, st.
      split; [unfold combineAbortSignals; now rewrite Ha, Hab|].
      split; [now apply later_refl|].
      split; [split; [now left|intros _; exact Hab]|].
      split; [reflexivity|].
      intros st'' Hl _. now apply (aborted_later st st'').
    + destruct (combineAbortSignals_fresh hasAny st a abortSignal Ha Hab)
        as [st' [Hcomb Hder]].
      exists (count st), st'. split; [exact Hcomb|].
      pose proof (derives_later _ _ _ _ _ Hwf Hsig Hb Hder) as Hlater.
      pose proof (derives_not_aborted _ _ _ _ _ Hwf Hsig Hb Hder Ha Hab) as Hc.
      split; [exact Hlater|]. rewrite Hc.
      split; [split; [discriminate|]|].
      { intros [H|[a' [Ha' H]]]; [congruence|].
        injection Ha' as <-. congruence. }
      split; [discriminate|].
      intros st'' [_ [_ [Hsrc Hwf'']]] Hab''.
      destruct Hder as [_ [_ [_ Hlinks]]].
      destruct Hab'' as [H|[a' [Ha' H]]].
      * apply (aborted_follows st'' _ abortSignal Hwf''); [|exact H].
        apply Hsrc, Hlinks. auto.
      * injection Ha' as <-.
        apply (aborted_follows st'' _ a Hwf''); [|exact H].
        apply Hsrc, Hlinks. auto.
  - exists abortSignal, st. split; [reflexivity|].
    split; [now apply later_refl|].
    split; [split; [now left|]|].
    { intros [H|[a [Ha _]]]; [exact H|discriminate]. }
    split; [reflexivity|].
    intros st'' _ [H|[a [Ha _]]]; [exact H|discriminate].
Qed.

(** C6.  A tool wrapped with the assembly-level signal works, at every
    call, with a signal [c] combined from the signal of the call and the
    assembly-level one: in every later state of the store, [c] is aborted
    as soon as either of the two is.  When [c] is already aborted at the
    call (which is when one of the two is), the call throws the error named
    [AbortError] and leaves the world as it was, whatever the [execute] of
    the underlying tool is: that function is not run.  Otherwise the call is
    the call of the underlying [execute] with [c] as its signal. *)
Theorem wrapToolWithAbortSignal_cancellation
    (tool : @Tool World Params R) (run : @ExecuteFn World Params R)
    (abortSignal : nat) (signal : option nat)
    (toolCallId : string) (params : Params) (st : Signals) (w : World) :
  execute tool = Some run ->
  wf st -> abortSignal < count st ->
  (forall a, signal = Some a -> a < count st) ->
  exists wrapped c st',
    execute (wrapToolWithAbortSignal hasAny tool (Some abortSignal))
    = Some wrapped
    /\ combineAbortSignals hasAny signal (Some abortSignal) st = (Some c, st')
    /\ (aborted st' c = true
        <-> aborted st abortSignal = true
            \/ exists a, signal = Some a /\ aborted st a = true)
    /\ (aborted st' c = true ->
        wrapped toolCallId params signal (st, w)
        = (Threw R "AbortError" "Aborted", (st, w)))
    /\ (aborted st' c = false ->
        wrapped toolCallId params signal (st, w)
        = run toolCallId params (Some c) (st', w))
    /\ (forall st'',
          later st' st'' ->
          aborted st'' abortSignal = true
          \/ (exists a, signal = Some a /\ aborted st'' a = true) ->
          aborted st'' c = true).
Proof.
  intros Hrun Hwf Hb Hsig.
  destruct (combineAbortSignals_cases st signal abortSignal Hwf Hb Hsig)
    as [c [st' [Hcomb [_ [Hiff [Hsame Hlater]]]]]].
  unfold wrapToolWithAbortSignal. rewrite Hrun.
  eexists. exists c, st'. split; [reflexivity|].
  split; [exact Hcomb|]. split; [exact Hiff|].
  split; [|split; [|exact Hlater]].
  - intros Hab. cbn [fst snd]. rewrite Hcomb, Hab.
    unfold throwAbortError. now rewrite (Hsame Hab).
  - intros Hab. cbn [fst snd]. now rewrite Hcomb, Hab.
Qed.
End Wrapped.

(** A sample world: the number of times the underlying tool has run. *)
Definition countingTool : @Tool nat unit nat :=
  mkTool "exec"
    (Some (fun _ _ _ w => (Returned nat (snd w), (fst w, S (snd w))))).

(** Two signals, the assembly-level signal 0 and the signal 1 of a call;
    in [bothLive] none is aborted, in [callAborted] the second one is. *)
Definition bothLive : Signals := mkSignals 2 [] [].

Definition callAborted : Signals := abort 1 bothLive.

Lemma wrapToolWithAbortSignal_cancellation_witness :
  (exists wrapped,
     execute (wrapToolWithAbortSignal false countingTool (Some 0))
     = Some wrapped
     /\ wrapped "call" tt (Some 1) (callAborted, 0)
        = (Threw nat "AbortError" "Aborted", (callAborted, 0)))
  /\ (exists wrapped c st',
        execute (wrapToolWithAbortSignal false countingTool (Some 0))
        = Some wrapped
        /\ wrapped "call" tt (Some 1) (bothLive, 0)
           = (Returned nat 0, (st', 1))
        /\ aborted st' c = false
        /\ aborted (abort 0 st') c = true
        /\ aborted (abort 1 st') c = true).
Proof.
  split.
  - destruct (wrapToolWithAbortSignal_cancellation false countingTool
                (fun _ _ _ w => (Returned nat (snd w), (fst w, S (snd w))))
                0 (Some 1) "call" tt callAborted 0 eq_refl)
      as [wrapped [c [st' [Hw [Hc [Hiff [Hthrow _]]]]]]].
    + split; intros; simpl in *; intuition lia.
    + simpl. lia.
    + intros a H. injection H as <-. simpl. lia.
    + exists wrapped. split; [exact Hw|]. apply Hthrow.
      apply Hiff. right. exists 1. split; reflexivity.
  - destruct (wrapToolWithAbortSignal_cancellation false countingTool
                (fun _ _ _ w => (Returned nat (snd w), (fst w, S (snd w))))
                0 (Some 1) "call" tt bothLive 0 eq_refl)
      as [wrapped [c [st' [Hw [Hc [Hiff [_ [Hrun Hlater]]]]]]]].
    + split; intros; simpl in *; intuition lia.
    + simpl. lia.
    + intros a H. injection H as <-. simpl. lia.
    + injection Hc as <- <-.
      exists wrapped, 2,
        (addAbortListener 0 2 (addAbortListener 1 2 (mkSignals 3 [] []))).
      split; [exact Hw|].
      split; [exact (Hrun eq_refl)|].
      assert (Hwf : wf (addAbortListener 0 2
                          (addAbortListener 1 2 (mkSignals 3 [] [])))).
      { split; [intros s []|].
        intros d s [H|[H|[]]]; injection H as <- <-; simpl; lia. }
      split; [reflexivity|]. split.
      * apply Hlater; [|left; reflexivity].
        apply later_abort; [exact Hwf|simpl; lia].
      * apply Hlater; [|right; exists 1; split; reflexivity].
        apply later_abort; [exact Hwf|simpl; lia].
Defined.

End AbortFacts.

(** ** Assembly *)

Module AssemblyFacts.
Import Js JsFacts Policy Schema Assembly.

(** *** The patch-application tool *)

(** [!!applyPatchConfig?.enabled]. *)
Definition flagEnabled (options : Options) : bool :=
  match applyPatchConfig options with
  | Some c => match enabled c with Some b => b | None => false end
  | None => false
  end.

(** [applyPatchConfig?.allowModels]. *)
Definition configuredAllowModels (options : Options) : option (list string) :=
  match applyPatchConfig options with
  | Some c => allowModels c
  | None => None
  end.

(** The sandbox has a workspace root and its workspace is read-only. *)
Definition readOnlySandbox (options : Options) : bool :=
  truthyOpt (sandboxRoot options) && negb (allowWorkspaceWrites options).

(** The model id in the forms an allow-list entry may take: alone, and
    behind the provider when the id has no slash. *)
Definition matchesModel (modelProvider : option string) (modelId entry : string)
    : Prop :=
  let id := toLowerCase (trim modelId) in
  let normalized := toLowerCase (trim entry) in
  trim modelId <> "" /\ normalized <> ""
  /\ (normalized = id
      \/ exists provider,
           modelProvider = Some provider
           /\ toLowerCase (trim provider) <> ""
           /\ includesChar id "/"%char = false
           /\ normalized
              = String.append (toLowerCase (trim provider))
                  (String.append "/" id)).

Lemma truthyStr_toLowerCase (s : string) :
  truthyStr (toLowerCase s) = truthyStr s.
Proof. now destruct s. Qed.

Lemma isApplyPatchAllowedForModel_iff
    (modelProvider : option string) (modelId : string) (l : list string) :
  l <> [] ->
  (isApplyPatchAllowedForModel modelProvider (Some modelId) (Some l) = true
   <-> exists entry, In entry l /\ matchesModel modelProvider modelId entry).
Proof.
  intros Hne. unfold isApplyPatchAllowedForModel, matchesModel.
  destruct l as [|e0 l0]; [congruence|].
  cbn [List.length Nat.eqb option_map]. cbv zeta.
  generalize (e0 :: l0) as l. intros l.
  destruct (truthyStr (trim modelId)) eqn:Hid; cbn [negb].
  - apply truthyStr_true in Hid. rewrite existsb_exists.
    split.
    + intros [entry [Hin Hm]]. exists entry. split; [exact Hin|].
      split; [exact Hid|].
      destruct (truthyStr (toLowerCase (trim entry))) eqn:Hn;
        cbn [negb] in Hm; [|discriminate].
      apply truthyStr_true in Hn. split; [exact Hn|].
      apply orb_true_iff in Hm as [Hm|Hm].
      * left. now apply String.eqb_eq.
      * apply String.eqb_eq in Hm.
        destruct modelProvider as [p|]; cbn [option_map] in Hm; [|now left].
        destruct (truthyStr (toLowerCase (trim p))) eqn:Hp; [|now left].
        destruct (includesChar (toLowerCase (trim modelId)) "/") eqn:Hs;
          cbn [negb andb] in Hm; [now left|].
        right. exists p. apply truthyStr_true in Hp. auto.
    + intros [entry [Hin [_ [Hn Hm]]]]. exists entry. split; [exact Hin|].
      apply truthyStr_true in Hn. rewrite Hn. cbn [negb].
      apply orb_true_iff. destruct Hm as [Hm|[p [-> [Hp [Hs Hm]]]]].
      * left. now apply String.eqb_eq.
      * right. cbn [option_map]. apply truthyStr_true in Hp.
        rewrite Hp, Hs. cbn [negb andb]. now apply String.eqb_eq.
  - split; [discriminate|].
    intros [entry [_ [Hid' _]]]. apply truthyStr_true in Hid'. congruence.
Qed.

Lemma applyPatchEnabled_eq (options : Options) :
  applyPatchEnabled options
  = flagEnabled options
    && isOpenAIProvider (modelProvider options)
    && isApplyPatchAllowedForModel (modelProvider options) (modelId options)
         (configuredAllowModels options).
Proof. reflexivity. Qed.

Lemma isOpenAIProvider_iff (provider : option string) :
  isOpenAIProvider provider = true
  <-> exists p, provider = Some p
                /\ (toLowerCase (trim p) = "openai"
                    \/ toLowerCase (trim p) = "openai-codex").
Proof.
  unfold isOpenAIProvider. destruct provider as [p|].
  - rewrite orb_true_iff, !String.eqb_eq. split.
    + intros H. now exists p.
    + intros [q [Hq H]]. now injection Hq as <-.
  - split; [discriminate|]. intros [q [Hq _]]. discriminate.
Qed.

(** C7, as amended.  The patch-application tool is constructed exactly
    when the feature flag is enabled, the provider of the model, trimmed and
    lower-cased, is [openai] or [openai-codex], the model passes the model
    allow-list, and the run is not one in a sandbox with a read-only
    workspace; it is then part of the assembled tools.  An absent or empty
    allow-list passes every model; a list with entries passes the model when
    some entry, trimmed and lower-cased, is the model id or
    [provider/id], and passes no run without a model id.  With
    [allowModels = ["openai/gpt-5"]] and provider [openai], [gpt-5] passes
    and [gpt-4] does not. *)
Theorem applyPatchTool_constructed (src : ToolSources) (options : Options) :
  (applyPatchTool src options <> None
   <-> flagEnabled options = true
       /\ isOpenAIProvider (modelProvider options) = true
       /\ isApplyPatchAllowedForModel (modelProvider options) (modelId options)
            (configuredAllowModels options) = true
       /\ readOnlySandbox options = false)
  /\ (forall tool, applyPatchTool src options = Some tool ->
                   In tool (tools src options))
  /\ (forall provider,
        isOpenAIProvider provider = true
        <-> exists p, provider = Some p
                      /\ (toLowerCase (trim p) = "openai"
                          \/ toLowerCase (trim p) = "openai-codex"))
  /\ (forall provider model,
        isApplyPatchAllowedForModel provider model None = true
        /\ isApplyPatchAllowedForModel provider model (Some []) = true)
  /\ (forall provider model l,
        l <> [] ->
        (isApplyPatchAllowedForModel provider model (Some l) = true
         <-> exists id entry,
               model = Some id /\ In entry l
               /\ matchesModel provider id entry))
  /\ isApplyPatchAllowedForModel (Some "openai") (Some "gpt-5")
       (Some ["openai/gpt-5"]) = true
  /\ isApplyPatchAllowedForModel (Some "openai") (Some "gpt-4")
       (Some ["openai/gpt-5"]) = false
  /\ isApplyPatchAllowedForModel (Some "openai") None
       (Some ["openai/gpt-5"]) = false
  /\ isOpenAIProvider (Some (String "160" "OpenAI-Codex ")) = true
  /\ (flagEnabled options = true
      <-> exists cfg t c,
            config options = Some cfg /\ Policy.tools cfg = Some t
            /\ exec_applyPatch t = Some c /\ enabled c = Some true)
  /\ (forall l,
        configuredAllowModels options = Some l
        <-> exists cfg t c,
              config options = Some cfg /\ Policy.tools cfg = Some t
              /\ exec_applyPatch t = Some c /\ allowModels c = Some l)
  /\ (readOnlySandbox options = true
      <-> exists sb,
            sandbox options = Some sb /\ sandbox_enabled sb = true
            /\ sandbox_workspaceDir sb <> ""
            /\ sandbox_workspaceAccess sb = "ro").
Proof.
  split; [|split; [|split; [|split; [|split; [|split; [|split; [|split;
    [|split; [|split; [|split]]]]]]]]]].
  - unfold applyPatchTool, readOnlySandbox. rewrite applyPatchEnabled_eq.
    destruct (flagEnabled options), (isOpenAIProvider (modelProvider options)),
      (isApplyPatchAllowedForModel _ _ _),
      (truthyOpt (sandboxRoot options) && negb (allowWorkspaceWrites options));
      simpl; split; try congruence; try tauto; intros [? [? [? ?]]];
      discriminate.
  - intros tool H. unfold tools. rewrite H.
    rewrite !in_app_iff. right. right. left. simpl. auto.
  - apply isOpenAIProvider_iff.
  - intros provider model. split; reflexivity.
  - intros provider model l Hne. destruct model as [id|].
    + rewrite (isApplyPatchAllowedForModel_iff provider id l Hne). split.
      * intros [entry H]. now exists id, entry.
      * intros [id' [entry [E H]]]. injection E as <-. now exists entry.
    + destruct l as [|e l]; [congruence|]. split; [discriminate|].
      intros [id [entry [E _]]]. discriminate.
  - reflexivity.
  - reflexivity.
  - reflexivity.
  - reflexivity.
  - unfold flagEnabled, applyPatchConfig. split.
    + destruct (config options) as [cfg|]; [|discriminate].
      destruct (Policy.tools cfg) as [t|] eqn:Et; [|discriminate].
      destruct (exec_applyPatch t) as [c|] eqn:Ec; [|discriminate].
      destruct (enabled c) as [[|]|] eqn:Ee; try discriminate.
      intros _. now exists cfg, t, c.
    + intros [cfg [t [c [-> [-> [-> ->]]]]]]. reflexivity.
  - intros l. unfold configuredAllowModels, applyPatchConfig. split.
    + destruct (config options) as [cfg|]; [|discriminate].
      destruct (Policy.tools cfg) as [t|] eqn:Et; [|discriminate].
      destruct (exec_applyPatch t) as [c|] eqn:Ec; [|discriminate].
      intros H. now exists cfg, t, c.
    + intros [cfg [t [c [-> [-> [-> ->]]]]]]. reflexivity.
  - unfold readOnlySandbox, sandboxRoot, allowWorkspaceWrites, theSandbox.
    split.
    + destruct (sandbox options) as [sb|]; [|discriminate].
      destruct (sandbox_enabled sb) eqn:En; [|discriminate].
      cbn [option_map truthyOpt]. intros H.
      apply andb_true_iff in H as [Hr Hw].
      apply truthyStr_true in Hr. apply negb_true_iff, negb_false_iff in Hw.
      apply String.eqb_eq in Hw. now exists sb.
    + intros [sb [-> [-> [Hr Hw]]]]. cbn [option_map truthyOpt].
      apply truthyStr_true in Hr. now rewrite Hr, Hw.
Qed.

(** *** Sample collaborators *)

Definition sampleTool (toolName : string) : AnyAgentTool :=
  mkTool toolName (JObj [("type", JStr "object"); ("properties", JObj [])])
    (Native toolName).

Definition sampleSources : ToolSources :=
  mkSources
    [sampleTool "read"; sampleTool "bash"; sampleTool "edit";
     sampleTool "write"]
    (sampleTool "read")
    (fun _ => sampleTool "read")
    (fun _ => sampleTool "write")
    (fun _ => sampleTool "edit")
    (fun _ _ _ _ => sampleTool "exec")
    (fun _ _ => sampleTool "process")
    (fun _ _ => sampleTool "apply_patch")
    (fun _ => [])
    (fun _ _ => [sampleTool "browser"; sampleTool "message"])
    "/home/user"
    (fun schema => schema)
    (mkScope (fun _ => "main") (fun _ _ => None) (fun _ => false)).

(** A configuration that enables the patch tool for [openai/gpt-5]. *)
Definition patchConfig : ClawdbotConfig :=
  mkConfig
    (Some (mkTools None None
             (Some (mkApplyPatch (Some true) (Some ["openai/gpt-5"]))) None))
    [].

Definition patchOptions (sb : option SandboxContext) : Options :=
  mkOptions None sb None (Some "/work") (Some patchConfig) None
    (Some "OpenAI") (Some "GPT-5").

Definition readOnly : SandboxContext := mkSandbox true "/sandbox" "ro" None.

Lemma applyPatchTool_constructed_witness :
  applyPatchTool sampleSources (patchOptions None) <> None
  /\ In (sampleTool "apply_patch") (tools sampleSources (patchOptions None)).
Proof.
  split.
  - apply (applyPatchTool_constructed sampleSources (patchOptions None)).
    repeat split.
  - apply (applyPatchTool_constructed sampleSources (patchOptions None)).
    reflexivity.
Defined.

(** C7, the claim as stated fails: the flag is enabled, the provider is in
    the provider list and the model passes the model allow-list, yet in a
    sandbox with a read-only workspace the tool is not constructed. *)
Lemma applyPatchTool_not_in_read_only_sandbox :
  let options := patchOptions (Some readOnly) in
  flagEnabled options = true
  /\ isOpenAIProvider (modelProvider options) = true
  /\ isApplyPatchAllowedForModel (modelProvider options) (modelId options)
       (configuredAllowModels options) = true
  /\ applyPatchTool sampleSources options = None.
Proof. cbv zeta. repeat split. Qed.

(** *** Write and edit tools in a read-only sandbox *)

Definition notWriteOrEdit (tool : AnyAgentTool) : Prop :=
  name tool <> "write" /\ name tool <> "edit".

(** The tools that come from collaborators under other names are not
    called [write] or [edit]: the read tool, the execution and process
    tools, and the provider and domain tools. *)
Definition suppliesNoWriteOrEdit (src : ToolSources) : Prop :=
  (forall root, notWriteOrEdit (createReadTool src root))
  /\ (forall o b k s, notWriteOrEdit (createExecTool src o b k s))
  /\ (forall o k, notWriteOrEdit (createProcessTool src o k))
  /\ (forall cfg tool,
        In tool (listProviderAgentTools src cfg) -> notWriteOrEdit tool)
  /\ (forall o s tool,
        In tool (createClawdbotTools src o s) -> notWriteOrEdit tool).

Lemma name_normalizeToolParameters (clean : JsVal -> JsVal)
    (tool : AnyAgentTool) :
  name (normalizeToolParameters clean tool) = name tool.
Proof.
  unfold normalizeToolParameters.
  repeat match goal with
         | |- context [if ?b then _ else _] => destruct b
         | |- context [match variantKey ?s with _ => _ end] =>
             destruct (variantKey s)
         end; reflexivity.
Qed.

Lemma name_wrapToolWithAbortSignal (tool : AnyAgentTool) (s : option nat) :
  name (Assembly.wrapToolWithAbortSignal tool s) = name tool.
Proof. now destruct s. Qed.

Lemma In_filterToolsByPolicy (l : list AnyAgentTool)
    (p : option SandboxToolPolicy) (tool : AnyAgentTool) :
  In tool (filterToolsByPolicy name l p) -> In tool l.
Proof.
  unfold filterToolsByPolicy. destruct p; [|auto].
  intros H. now apply filter_In in H.
Qed.

(** Every assembled tool is one of [tools] up to its schema and its
    [execute]; filtering only removes tools. *)
Lemma createClawdbotCodingTools_from_tools (src : ToolSources)
    (options : Options) (tool : AnyAgentTool) :
  In tool (createClawdbotCodingTools src options) ->
  exists source, In source (tools src options) /\ name tool = name source.
Proof.
  unfold createClawdbotCodingTools. cbv zeta.
  set (toolsFiltered := match policy (effective src options) with
                        | Some p => _
                        | None => _
                        end).
  set (sandboxed := match theSandbox options with
                    | Some sb => _
                    | None => _
                    end).
  set (subagentFiltered := match subagentPolicy src options with
                           | Some p => _
                           | None => _
                           end).
  assert (H1 : forall t, In t toolsFiltered -> In t (tools src options)).
  { intros t. unfold toolsFiltered.
    destruct (policy (effective src options)); [|auto].
    apply In_filterToolsByPolicy. }
  assert (H2 : forall t, In t sandboxed -> In t (tools src options)).
  { intros t Ht. apply H1. unfold sandboxed in Ht.
    destruct (theSandbox options); [|exact Ht].
    now apply In_filterToolsByPolicy in Ht. }
  assert (H3 : forall t, In t subagentFiltered -> In t (tools src options)).
  { intros t Ht. apply H2. unfold subagentFiltered in Ht.
    destruct (subagentPolicy src options); [|exact Ht].
    now apply In_filterToolsByPolicy in Ht. }
  intros Hin.
  assert (Hnorm : exists t, In t subagentFiltered /\ name tool = name t).
  { destruct (abortSignal options).
    - apply in_map_iff in Hin as [t1 [<- Hin]].
      apply in_map_iff in Hin as [t0 [<- Hin]].
      exists t0. split; [exact Hin|].
      now rewrite name_wrapToolWithAbortSignal, name_normalizeToolParameters.
    - apply in_map_iff in Hin as [t0 [<- Hin]].
      exists t0. split; [exact Hin|].
      apply name_normalizeToolParameters. }
  destruct Hnorm as [t [Ht Hname]]. exists t. split; [now apply H3|exact Hname].
Qed.

(** C8, as amended.  In a run with an enabled sandbox that has a workspace
    directory other than the empty string and read-only workspace access,
    no assembled tool is called [write] or [edit], whatever the global,
    per-agent, sandbox and subagent policies are, the collaborators
    supplying no tool of such a name on their own. *)
Theorem createClawdbotCodingTools_read_only (src : ToolSources)
    (options : Options) (sb : SandboxContext) :
  sandbox options = Some sb ->
  sandbox_enabled sb = true ->
  sandbox_workspaceDir sb <> "" ->
  sandbox_workspaceAccess sb = "ro" ->
  suppliesNoWriteOrEdit src ->
  forall tool,
    In tool (createClawdbotCodingTools src options) -> notWriteOrEdit tool.
Proof.
  intros Hsb Hen Hdir Hro [Hread [Hexec [Hproc [Hprov Hclaw]]]] tool Hin.
  apply createClawdbotCodingTools_from_tools in Hin as [source [Hin Hname]].
  unfold notWriteOrEdit. rewrite Hname. clear tool Hname.
  assert (Hthe : theSandbox options = Some sb).
  { unfold theSandbox. now rewrite Hsb, Hen. }
  assert (Hroot : sandboxRoot options = Some (sandbox_workspaceDir sb)).
  { unfold sandboxRoot. now rewrite Hthe. }
  assert (Htruthy : truthyStr (sandbox_workspaceDir sb) = true)
    by now apply truthyStr_true.
  assert (Hwrites : allowWorkspaceWrites options = false).
  { unfold allowWorkspaceWrites. now rewrite Hthe, Hro. }
  assert (Hpatch : applyPatchTool src options = None).
  { unfold applyPatchTool. rewrite Hroot, Hwrites. simpl. rewrite Htruthy.
    now rewrite orb_true_r. }
  unfold tools in Hin. rewrite Hroot, Htruthy, Hwrites, Hpatch in Hin.
  rewrite !in_app_iff in Hin.
  destruct Hin as [Hin|[[]|[[]|[Hin|[Hin|Hin]]]]].
  - unfold base in Hin. apply in_flat_map in Hin as [t [_ Hin]].
    unfold baseTool in Hin. rewrite Hroot in Hin. simpl in Hin.
    rewrite Htruthy in Hin.
    destruct (String.eqb (name t) (name (readTool src))).
    + destruct Hin as [<-|[]]. apply Hread.
    + destruct (String.eqb (name t) "bash" || String.eqb (name t) "exec");
        [destruct Hin|].
      destruct (String.eqb_spec (name t) "write") as [_|Hw]; [destruct Hin|].
      destruct (String.eqb_spec (name t) "edit") as [_|He]; [destruct Hin|].
      destruct Hin as [<-|[]]. now split.
  - destruct Hin as [<-|[<-|[]]]; [apply Hexec|apply Hproc].
  - now apply (Hprov _ _ Hin).
  - now apply (Hclaw _ _ _ Hin).
Qed.

Lemma sampleSources_suppliesNoWriteOrEdit : suppliesNoWriteOrEdit sampleSources.
Proof.
  unfold suppliesNoWriteOrEdit, notWriteOrEdit. simpl.
  repeat split; try discriminate; intros;
    repeat match goal with
           | H : _ \/ _ |- _ => destruct H
           | H : False |- _ => destruct H
           end; subst; discriminate.
Qed.

(** A read-only sandbox under policies that allow [write] and [edit] at
    every level. *)
Definition permissive : SandboxToolPolicy :=
  mkPolicy (Some ["write"; "edit"; "read"; "exec"]) (Some []).

Definition permissiveOptions : Options :=
  mkOptions None
    (Some (mkSandbox true "/sandbox" "ro" (Some permissive)))
    (Some "agent:main:main") (Some "/work")
    (Some (mkConfig
             (Some (mkTools (allow permissive) (deny permissive) None
                      (Some permissive)))
             []))
    None (Some "anthropic") (Some "claude").

Lemma createClawdbotCodingTools_read_only_witness :
  map name (createClawdbotCodingTools sampleSources permissiveOptions)
  = ["read"; "exec"]
  /\ forall tool,
       In tool (createClawdbotCodingTools sampleSources permissiveOptions) ->
       notWriteOrEdit tool.
Proof.
  split; [reflexivity|].
  apply (createClawdbotCodingTools_read_only sampleSources permissiveOptions
           (mkSandbox true "/sandbox" "ro" (Some permissive))).
  - reflexivity.
  - reflexivity.
  - discriminate.
  - reflexivity.
  - exact sampleSources_suppliesNoWriteOrEdit.
Defined.

(** C8, the claim as stated fails: the sandbox is enabled and its
    workspace access is read-only, but its workspace directory is the empty
    string; the assembly then takes the run for one without a sandbox root
    and builds the write and edit tools of the workspace, which reach the
    assembled list. *)
Lemma createClawdbotCodingTools_read_only_without_root :
  let sb := mkSandbox true "" "ro" None in
  let options :=
    mkOptions None (Some sb) None (Some "/work") None None None None in
  sandbox options = Some sb
  /\ sandbox_enabled sb = true
  /\ sandbox_workspaceAccess sb = "ro"
  /\ suppliesNoWriteOrEdit sampleSources
  /\ map name (createClawdbotCodingTools sampleSources options)
     = ["read"; "edit"; "write"; "exec"; "process"; "browser"; "message"]
  /\ In (wrapToolParamNormalization (createWriteTool sampleSources "/work"))
       (createClawdbotCodingTools sampleSources options)
  /\ In (wrapToolParamNormalization (createEditTool sampleSources "/work"))
       (createClawdbotCodingTools sampleSources options).
Proof.
  cbv zeta. split; [reflexivity|]. split; [reflexivity|].
  split; [reflexivity|].
  split; [exact sampleSources_suppliesNoWriteOrEdit|].
  split; [reflexivity|]. split; vm_compute; auto 10.
Qed.

End AssemblyFacts.

(** * Further properties of the tool pipeline *)

(** ** Canonical tool names *)

Module NameFacts.
Import Js JsFacts Policy PolicyFacts.

Lemma isWhiteSpace_lowerChar (c : ascii) :
  isWhiteSpace (lowerChar c) = isWhiteSpace c.
Proof. destruct c as [[] [] [] [] [] [] [] []]; reflexivity. Qed.

Lemma lowerChar_idem (c : ascii) : lowerChar (lowerChar c) = lowerChar c.
Proof. destruct c as [[] [] [] [] [] [] [] []]; reflexivity. Qed.

Lemma toLowerCase_idem (s : string) : toLowerCase (toLowerCase s) = toLowerCase s.
Proof.
  induction s as [|c s IH]; simpl; [reflexivity|].
  now rewrite lowerChar_idem, IH.
Qed.

Lemma trimStart_toLowerCase (s : string) :
  trimStart (toLowerCase s) = toLowerCase (trimStart s).
Proof.
  induction s as [|c s IH]; simpl; [reflexivity|].
  rewrite isWhiteSpace_lowerChar. now destruct (isWhiteSpace c).
Qed.

Lemma trimEnd_toLowerCase (s : string) :
  trimEnd (toLowerCase s) = toLowerCase (trimEnd s).
Proof.
  induction s as [|c s IH]; simpl; [reflexivity|].
  rewrite IH, isWhiteSpace_lowerChar.
  destruct (trimEnd s); simpl; [now destruct (isWhiteSpace c)|reflexivity].
Qed.

Lemma trim_toLowerCase (s : string) : trim (toLowerCase s) = toLowerCase (trim s).
Proof. unfold trim. now rewrite trimStart_toLowerCase, trimEnd_toLowerCase. Qed.

Lemma trimEnd_idem (s : string) : trimEnd (trimEnd s) = trimEnd s.
Proof.
  induction s as [|c s IH]; simpl; [reflexivity|].
  destruct (trimEnd s) as [|d kept] eqn:E.
  - destruct (isWhiteSpace c) eqn:W; simpl; [reflexivity|now rewrite W].
  - change (trimEnd (String c (String d kept)))
      with (match trimEnd (String d kept) with
            | EmptyString =>
                if isWhiteSpace c then EmptyString else String c EmptyString
            | k => String c k
            end).
    now rewrite IH.
Qed.

(** The string does not begin with white space. *)
Definition startsBlack (s : string) : Prop :=
  match s with
  | EmptyString => True
  | String c _ => isWhiteSpace c = false
  end.

Lemma trimStart_startsBlack (s : string) : startsBlack (trimStart s).
Proof.
  induction s as [|c s IH]; simpl; [exact I|].
  destruct (isWhiteSpace c) eqn:W; [exact IH|exact W].
Qed.

Lemma trimStart_fixed (s : string) : startsBlack s -> trimStart s = s.
Proof. destruct s as [|c s]; simpl; [reflexivity|]. now intros ->. Qed.

Lemma trimEnd_startsBlack (s : string) : startsBlack s -> startsBlack (trimEnd s).
Proof.
  destruct s as [|c s]; simpl; [auto|]. intros W.
  destruct (trimEnd s); [now rewrite W|exact W].
Qed.

Lemma trim_idem (s : string) : trim (trim s) = trim s.
Proof.
  unfold trim.
  rewrite (trimStart_fixed (trimEnd (trimStart s))).
  - apply trimEnd_idem.
  - apply trimEnd_startsBlack, trimStart_startsBlack.
Qed.

(** Trimming and lower-casing a string that is already trimmed and
    lower-cased changes nothing. *)
Lemma canonical_fixed (s : string) :
  toLowerCase (trim (toLowerCase (trim s))) = toLowerCase (trim s).
Proof. now rewrite trim_toLowerCase, trim_idem, toLowerCase_idem. Qed.

Lemma normalizeToolName_string (name s : string) :
  normalizeToolName name = NStr s -> normalizeToolName s = NStr s.
Proof.
  unfold normalizeToolName.
  destruct (TOOL_NAME_ALIASES (toLowerCase (trim name))) as [c|] eqn:Ha.
  - intros ->. revert Ha. unfold TOOL_NAME_ALIASES.
    repeat match goal with
           | |- (if ?b then _ else _) = _ -> _ => destruct b
           end; intros H; inversion H; reflexivity.
  - intros H. injection H as <-. now rewrite canonical_fixed, Ha.
Qed.

(** X1.  Normalizing a tool name is idempotent: a name whose normal form is
    the string [s] has a normal form that normalizes to itself, and the
    canonical names of the alias table are their own normal forms. *)
Theorem normalizeToolName_idempotent (name s : string) :
  normalizeToolName name = NStr s ->
  normalizeToolName s = NStr s
  /\ trim s = s /\ toLowerCase s = s
  /\ s <> "bash" /\ s <> "apply-patch".
Proof.
  intros H. split; [now apply (normalizeToolName_string name)|].
  unfold normalizeToolName in H.
  destruct (TOOL_NAME_ALIASES (toLowerCase (trim name))) as [c|] eqn:Ha.
  - subst c. revert Ha. unfold TOOL_NAME_ALIASES.
    repeat match goal with
           | |- (if ?b then _ else _) = _ -> _ => destruct b
           end; intros H; inversion H; repeat split; discriminate.
  - injection H as <-. split; [|split].
    + now rewrite trim_toLowerCase, trim_idem.
    + apply toLowerCase_idem.
    + unfold TOOL_NAME_ALIASES in Ha.
      split; intros E; rewrite E in Ha; discriminate.
Qed.

Lemma normalizeToolName_idempotent_witness :
  normalizeToolName "exec" = NStr "exec"
  /\ normalizeToolName "web_search" = NStr "web_search".
Proof.
  split.
  - apply (normalizeToolName_idempotent "  BASH " "exec"). reflexivity.
  - apply (normalizeToolName_idempotent " Web_Search" "web_search").
    reflexivity.
Defined.

(** X2.  The decision of a policy depends on a tool name through its normal
    form only: two names with the same normal form (differing in case, in
    surrounding white space, or alias against canonical name) are decided
    alike, and a name is decided like its canonical string. *)
Theorem isToolAllowedByPolicyName_canonical
    (name name' : string) (policy : option SandboxToolPolicy) :
  normalizeToolName name = normalizeToolName name' ->
  isToolAllowedByPolicyName name policy
  = isToolAllowedByPolicyName name' policy
  /\ (forall s, normalizeToolName name = NStr s ->
                isToolAllowedByPolicyName name policy
                = isToolAllowedByPolicyName s policy).
Proof.
  intros H. destruct policy as [p|]; [|split; reflexivity].
  split.
  - rewrite !isToolAllowedByPolicyName_eq. cbv zeta. now rewrite H.
  - intros s Hs. rewrite !isToolAllowedByPolicyName_eq. cbv zeta.
    now rewrite (normalizeToolName_string name s Hs), Hs.
Qed.

Lemma isToolAllowedByPolicyName_canonical_witness :
  isToolAllowedByPolicyName " BASH "
    (Some (mkPolicy (Some ["read"]) (Some ["Exec"])))
  = isToolAllowedByPolicyName "exec"
      (Some (mkPolicy (Some ["read"]) (Some ["Exec"]))).
Proof.
  apply (proj1 (isToolAllowedByPolicyName_canonical " BASH " "exec"
                  (Some (mkPolicy (Some ["read"]) (Some ["Exec"])))
                  eq_refl)).
Defined.

End NameFacts.

(** ** The assembled list as a pipeline *)

Module PipelineFacts.
Import Js JsFacts Policy PolicyFacts Schema Assembly.

(** The three policies of a run, in the order the filters apply them. *)
Definition levels (src : ToolSources) (options : Options)
    : list (option SandboxToolPolicy) :=
  [policy (effective src options); sandboxTools options;
   subagentPolicy src options].

(** What becomes of a surviving tool: its schema is normalized, then the
    cancellation signal of the run, if any, is bound. *)
Definition finish (src : ToolSources) (options : Options)
    (tool : AnyAgentTool) : AnyAgentTool :=
  Assembly.wrapToolWithAbortSignal
    (normalizeToolParameters (cleanSchemaForGemini src) tool)
    (abortSignal options).

Lemma filterToolsByPolicy_filter (l : list AnyAgentTool)
    (p : option SandboxToolPolicy) :
  filterToolsByPolicy name l p
  = filter (fun tool => isToolAllowedByPolicyName (name tool) p) l.
Proof.
  destruct p as [p|]; [reflexivity|]. simpl.
  induction l as [|a l IH]; simpl; [reflexivity|]. now rewrite <- IH.
Qed.

Lemma filter_filter {A : Type} (f g : A -> bool) (l : list A) :
  filter f (filter g l) = filter (fun x => g x && f x) l.
Proof.
  induction l as [|a l IH]; simpl; [reflexivity|].
  destruct (g a); simpl; [destruct (f a)|]; now rewrite IH.
Qed.

(** The three filters in a row keep the tools that pass all three levels. *)
Lemma filter_chain (src : ToolSources) (options : Options) :
  match subagentPolicy src options with
  | Some p =>
      filterToolsByPolicy name
        match theSandbox options with
        | Some sb =>
            filterToolsByPolicy name
              match policy (effective src options) with
              | Some p => filterToolsByPolicy name (tools src options) (Some p)
              | None => tools src options
              end (sandbox_tools sb)
        | None =>
            match policy (effective src options) with
            | Some p => filterToolsByPolicy name (tools src options) (Some p)
            | None => tools src options
            end
        end (Some p)
  | None =>
      match theSandbox options with
      | Some sb =>
          filterToolsByPolicy name
            match policy (effective src options) with
            | Some p => filterToolsByPolicy name (tools src options) (Some p)
            | None => tools src options
            end (sandbox_tools sb)
      | None =>
          match policy (effective src options) with
          | Some p => filterToolsByPolicy name (tools src options) (Some p)
          | None => tools src options
          end
      end
  end
  = filter (fun tool => isToolAllowedByPolicies (name tool) (levels src options))
      (tools src options).
Proof.
  assert (H1 : match policy (effective src options) with
               | Some p => filterToolsByPolicy name (tools src options) (Some p)
               | None => tools src options
               end
               = filterToolsByPolicy name (tools src options)
                   (policy (effective src options))).
  { now destruct (policy (effective src options)). }
  rewrite H1.
  assert (H2 : forall l,
             match theSandbox options with
             | Some sb => filterToolsByPolicy name l (sandbox_tools sb)
             | None => l
             end = filterToolsByPolicy name l (sandboxTools options)).
  { intros l. unfold sandboxTools. now destruct (theSandbox options). }
  rewrite H2.
  assert (H3 : forall l,
             match subagentPolicy src options with
             | Some p => filterToolsByPolicy name l (Some p)
             | None => l
             end = filterToolsByPolicy name l (subagentPolicy src options)).
  { intros l. now destruct (subagentPolicy src options). }
  rewrite H3, !filterToolsByPolicy_filter, !filter_filter.
  apply filter_ext. intros tool. unfold isToolAllowedByPolicies, levels.
  unfold isToolAllowedByPolicy. simpl. now rewrite andb_true_r, andb_assoc.
Qed.

Lemma finish_name (src : ToolSources) (options : Options)
    (tool : AnyAgentTool) :
  name (finish src options tool) = name tool.
Proof.
  unfold finish.
  rewrite AssemblyFacts.name_wrapToolWithAbortSignal.
  apply AssemblyFacts.name_normalizeToolParameters.
Qed.

Lemma createClawdbotCodingTools_pipeline (src : ToolSources)
    (options : Options) :
  createClawdbotCodingTools src options
  = map (finish src options)
      (filter
         (fun tool => isToolAllowedByPolicies (name tool) (levels src options))
         (tools src options)).
Proof.
  unfold createClawdbotCodingTools. cbv zeta. rewrite filter_chain.
  unfold finish. destruct (abortSignal options).
  - now rewrite map_map.
  - reflexivity.
Qed.

Lemma createClawdbotCodingTools_In (src : ToolSources) (options : Options)
    (tool : AnyAgentTool) :
  In tool (createClawdbotCodingTools src options)
  <-> exists source,
        In source (tools src options)
        /\ isToolAllowedByPolicies (name source) (levels src options) = true
        /\ tool = finish src options source.
Proof.
  rewrite createClawdbotCodingTools_pipeline, in_map_iff. split.
  - intros [source [<- Hin]]. apply filter_In in Hin as [Hin Hp].
    now exists source.
  - intros [source [Hin [Hp ->]]]. exists source. split; [reflexivity|].
    now apply filter_In.
Qed.

Lemma map_filter_name {A B : Type} (f : A -> B) (p : B -> bool) (l : list A) :
  map f (filter (fun x => p (f x)) l) = filter p (map f l).
Proof.
  induction l as [|a l IH]; simpl; [reflexivity|].
  destruct (p (f a)); simpl; now rewrite IH.
Qed.

(** X3.  The assembled list is the list of constructed tools, in its
    order, restricted to the tools that pass the effective policy, the
    sandbox policy and the subagent policy, each survivor with its schema
    normalized and the signal bound: the names that come out are the names
    that went in, filtered; nothing is added, renamed, repeated or moved. *)
Theorem createClawdbotCodingTools_order (src : ToolSources)
    (options : Options) :
  createClawdbotCodingTools src options
  = map (finish src options)
      (filter
         (fun tool => isToolAllowedByPolicies (name tool) (levels src options))
         (tools src options))
  /\ map name (createClawdbotCodingTools src options)
     = filter (fun n => isToolAllowedByPolicies n (levels src options))
         (map name (tools src options))
  /\ List.length (createClawdbotCodingTools src options)
     <= List.length (tools src options).
Proof.
  rewrite createClawdbotCodingTools_pipeline.
  split; [reflexivity|]. split.
  - rewrite map_map.
    rewrite (map_ext _ name (finish_name src options)).
    apply (map_filter_name name
             (fun n => isToolAllowedByPolicies n (levels src options))).
  - rewrite length_map. apply filter_length_le.
Qed.

(** X4.  A tool survives only if every one of the three levels accepts its
    name on its own: no assembled tool has a name that the effective policy,
    the sandbox policy or the subagent policy denies, whatever the other two
    levels allow. *)
Theorem createClawdbotCodingTools_every_level (src : ToolSources)
    (options : Options) (tool : AnyAgentTool) (level : option SandboxToolPolicy) :
  In tool (createClawdbotCodingTools src options) ->
  In level (levels src options) ->
  isToolAllowedByPolicyName (name tool) level = true
  /\ (forall p, level = Some p ->
                ~ In (normalizeToolName (name tool))
                    (normalizeToolNames (deny p))).
Proof.
  intros Hin Hlevel.
  apply createClawdbotCodingTools_In in Hin as [source [_ [Hpass ->]]].
  rewrite finish_name.
  assert (Hok : isToolAllowedByPolicyName (name source) level = true).
  { unfold isToolAllowedByPolicies in Hpass.
    rewrite forallb_forall in Hpass. now apply Hpass. }
  split; [exact Hok|].
  intros p -> Hden. rewrite isToolAllowedByPolicyName_eq in Hok.
  cbv zeta in Hok. apply has_name_iff in Hden. now rewrite Hden in Hok.
Qed.

Lemma createClawdbotCodingTools_every_level_witness :
  Forall (fun tool => normalizeToolName (name tool) <> NStr "exec")
    (createClawdbotCodingTools AssemblyFacts.sampleSources
       (mkOptions None
          (Some (mkSandbox true "/sandbox" "rw"
                   (Some (mkPolicy None (Some ["Bash"])))))
          None None None None None None)).
Proof.
  apply Forall_forall. intros tool Hin Hexec.
  destruct (createClawdbotCodingTools_every_level AssemblyFacts.sampleSources
              _ tool (Some (mkPolicy None (Some ["Bash"]))) Hin) as [_ H].
  - simpl. auto.
  - apply (H _ eq_refl). rewrite Hexec. simpl. auto.
Defined.

(** *** Subagent sessions *)

Lemma In_normalizeToolNames_app (a b : list string) (n : NormName) :
  In n (normalizeToolNames (Some (a ++ b)))
  <-> In n (normalizeToolNames (Some a)) \/ In n (normalizeToolNames (Some b)).
Proof.
  unfold normalizeToolNames. rewrite map_app, filter_app. apply in_app_iff.
Qed.

(** The configured extra denies of [tools.subagents.tools]. *)
Definition configuredSubagentDeny (cfg : option ClawdbotConfig) : list string :=
  match cfg with
  | Some c =>
      match Policy.tools c with
      | Some t =>
          match subagents_tools t with
          | Some p => match deny p with Some d => d | None => [] end
          | None => []
          end
      | None => []
      end
  | None => []
  end.

Lemma resolveSubagentToolPolicy_deny (cfg : option ClawdbotConfig) :
  deny (resolveSubagentToolPolicy cfg)
  = Some (DEFAULT_SUBAGENT_TOOL_DENY ++ configuredSubagentDeny cfg).
Proof.
  unfold resolveSubagentToolPolicy, configuredSubagentDeny.
  destruct cfg as [c|]; [|reflexivity].
  destruct (Policy.tools c) as [t|]; [|reflexivity].
  now destruct (subagents_tools t).
Qed.

Lemma baseline_denied (cfg : option ClawdbotConfig) (b : string) :
  In b DEFAULT_SUBAGENT_TOOL_DENY ->
  In (NStr b) (normalizeToolNames (deny (resolveSubagentToolPolicy cfg))).
Proof.
  intros Hb. rewrite resolveSubagentToolPolicy_deny.
  apply In_normalizeToolNames_app. left.
  destruct Hb as [<-|[<-|[<-|[<-|[]]]]]; simpl; auto.
Qed.

(** X5.  The policy of a subagent session rejects the four session tools
    of the baseline and every configured extra deny, under any spelling that
    normalizes to them and whatever the configured allow list holds; the
    allow list itself is the configured one. *)
Theorem resolveSubagentToolPolicy_baseline
    (cfg : option ClawdbotConfig) (name entry : string) :
  In entry (DEFAULT_SUBAGENT_TOOL_DENY ++ configuredSubagentDeny cfg) ->
  normalizeToolName name = normalizeToolName entry ->
  truthyName (normalizeToolName entry) = true ->
  isToolAllowedByPolicyName name (Some (resolveSubagentToolPolicy cfg)) = false.
Proof.
  intros Hin Hname Htruthy.
  rewrite isToolAllowedByPolicyName_eq. cbv zeta.
  rewrite resolveSubagentToolPolicy_deny.
  assert (Hd : In (normalizeToolName name)
                 (normalizeToolNames
                    (Some (DEFAULT_SUBAGENT_TOOL_DENY
                           ++ configuredSubagentDeny cfg)))).
  { apply In_normalizeToolNames. exists entry. rewrite Hname. auto. }
  apply has_name_iff in Hd. now rewrite Hd.
Qed.

Lemma resolveSubagentToolPolicy_baseline_witness :
  isToolAllowedByPolicyName " Sessions_Spawn "
    (Some (resolveSubagentToolPolicy
             (Some (mkConfig
                      (Some (mkTools None None None
                               (Some (mkPolicy (Some ["sessions_spawn"])
                                        (Some ["browser"])))))
                      [])))) = false.
Proof.
  apply (resolveSubagentToolPolicy_baseline _ " Sessions_Spawn "
           "sessions_spawn").
  - simpl. auto.
  - reflexivity.
  - reflexivity.
Defined.

(** X6.  In the run of a subagent session, no assembled tool is one of the
    four session tools of the baseline, whatever the global, per-agent and
    sandbox policies allow. *)
Theorem createClawdbotCodingTools_subagent (src : ToolSources)
    (options : Options) (key : string) :
  sessionKey options = Some key -> key <> "" ->
  isSubagentSessionKey (agentScope src) (Some key) = true ->
  forall tool b,
    In tool (createClawdbotCodingTools src options) ->
    In b DEFAULT_SUBAGENT_TOOL_DENY ->
    normalizeToolName (name tool) <> NStr b.
Proof.
  intros Hkey Hne Hsub tool b Hin Hb Hname.
  apply createClawdbotCodingTools_In in Hin as [source [_ [Hpass ->]]].
  rewrite finish_name in Hname.
  unfold isToolAllowedByPolicies in Hpass. rewrite forallb_forall in Hpass.
  specialize (Hpass (subagentPolicy src options)).
  unfold subagentPolicy in Hpass. rewrite Hkey, Hsub in Hpass.
  apply truthyStr_true in Hne. simpl in Hpass. rewrite Hne in Hpass.
  assert (Hfalse : isToolAllowedByPolicy (name source)
                     (Some (resolveSubagentToolPolicy (config options)))
                   = false).
  { unfold isToolAllowedByPolicy. rewrite isToolAllowedByPolicyName_eq.
    cbv zeta. rewrite Hname.
    pose proof (baseline_denied (config options) b Hb) as Hd.
    apply has_name_iff in Hd. now rewrite Hd. }
  rewrite Hpass in Hfalse; [discriminate|].
  unfold levels, subagentPolicy. rewrite Hkey, Hsub. simpl. rewrite Hne.
  simpl. auto.
Qed.

(** A subagent session under a global policy that allows the session
    tools, the domain tools being two of them. *)
Definition subagentSources : ToolSources :=
  mkSources
    (codingTools AssemblyFacts.sampleSources)
    (readTool AssemblyFacts.sampleSources)
    (createReadTool AssemblyFacts.sampleSources)
    (createWriteTool AssemblyFacts.sampleSources)
    (createEditTool AssemblyFacts.sampleSources)
    (createExecTool AssemblyFacts.sampleSources)
    (createProcessTool AssemblyFacts.sampleSources)
    (createApplyPatchTool AssemblyFacts.sampleSources)
    (fun _ => [])
    (fun _ _ => [AssemblyFacts.sampleTool "sessions_list";
                 AssemblyFacts.sampleTool "sessions_spawn";
                 AssemblyFacts.sampleTool "message"])
    "/home/user"
    (fun schema => schema)
    (mkScope (fun _ => "main") (fun _ _ => None)
       (fun key => match key with
                   | Some k => Js.startsWith k "subagent:"
                   | None => false
                   end)).

Definition subagentOptions : Options :=
  mkOptions None None (Some "subagent:42") None
    (Some (mkConfig
             (Some (mkTools (Some ["sessions_list"; "sessions_spawn";
                                   "message"; "read"])
                      None None None))
             []))
    None None None.

Lemma createClawdbotCodingTools_subagent_witness :
  map name (createClawdbotCodingTools subagentSources subagentOptions)
  = ["read"; "message"]
  /\ Forall (fun tool => normalizeToolName (name tool) <> NStr "sessions_spawn")
       (createClawdbotCodingTools subagentSources subagentOptions).
Proof.
  split; [reflexivity|].
  apply Forall_forall. intros tool Hin.
  apply (createClawdbotCodingTools_subagent subagentSources subagentOptions
           "subagent:42" eq_refl ltac:(discriminate) eq_refl tool
           "sessions_spawn" Hin).
  simpl. auto.
Defined.

(** *** Background execution, cancellation, file tools *)

Lemma execute_normalizeToolParameters (clean : JsVal -> JsVal)
    (tool : AnyAgentTool) :
  execute (normalizeToolParameters clean tool) = execute tool.
Proof.
  unfold normalizeToolParameters.
  repeat match goal with
         | |- context [if ?b then _ else _] => destruct b
         | |- context [match variantKey ?s with _ => _ end] =>
             destruct (variantKey s)
         end; reflexivity.
Qed.

(** X7.  The flag handed to the execution tool tells whether the process
    tool is there: a constructed tool called [process] reaches the assembled
    list exactly when [allowBackground] holds, and the process tool is always
    among the constructed tools. *)
Theorem allowBackground_process (src : ToolSources) (options : Options)
    (tool : AnyAgentTool) :
  In tool (tools src options) -> name tool = "process" ->
  (In (finish src options tool) (createClawdbotCodingTools src options)
   <-> allowBackground src options = true)
  /\ (allowBackground src options = false ->
      forall t, In t (createClawdbotCodingTools src options) ->
                name t <> "process")
  /\ In (processTool src options) (tools src options).
Proof.
  intros Hin Hname. split; [|split].
  - rewrite createClawdbotCodingTools_In. split.
    + intros [source [_ [Hpass Heq]]].
      assert (Hn : name source = "process").
      { rewrite <- (finish_name src options source), <- Heq, finish_name.
        exact Hname. }
      rewrite Hn in Hpass. exact Hpass.
    + intros Hallow. exists tool. rewrite Hname. auto.
  - intros Hfalse t Ht Hn.
    apply createClawdbotCodingTools_In in Ht as [source [_ [Hpass ->]]].
    rewrite finish_name in Hn. rewrite Hn in Hpass.
    unfold allowBackground in Hfalse. fold (levels src options) in Hfalse.
    congruence.
  - unfold tools. rewrite !in_app_iff. right. right. right. left.
    simpl. auto.
Qed.

Lemma allowBackground_process_witness :
  In (finish AssemblyFacts.sampleSources (AssemblyFacts.patchOptions None)
        (AssemblyFacts.sampleTool "process"))
    (createClawdbotCodingTools AssemblyFacts.sampleSources
       (AssemblyFacts.patchOptions None)).
Proof.
  assert (Hin : In (AssemblyFacts.sampleTool "process")
                  (tools AssemblyFacts.sampleSources
                     (AssemblyFacts.patchOptions None))).
  { simpl. auto 10. }
  apply (proj1 (allowBackground_process AssemblyFacts.sampleSources
                  (AssemblyFacts.patchOptions None)
                  (AssemblyFacts.sampleTool "process") Hin eq_refl)).
  reflexivity.
Defined.

(** X8.  When the run carries a cancellation signal, the [execute] of every
    assembled tool is the signal wrapper around the [execute] of the
    constructed tool; without one, every [execute] is the constructed one. *)
Theorem createClawdbotCodingTools_abort_bound (src : ToolSources)
    (options : Options) (tool : AnyAgentTool) :
  In tool (createClawdbotCodingTools src options) ->
  exists source,
    In source (tools src options)
    /\ name tool = name source
    /\ execute tool
       = match abortSignal options with
         | Some signal => WithAbortSignal signal (execute source)
         | None => execute source
         end.
Proof.
  intros Hin.
  apply createClawdbotCodingTools_In in Hin as [source [Hs [_ ->]]].
  exists source. split; [exact Hs|]. split; [apply finish_name|].
  unfold finish. destruct (abortSignal options); simpl;
    now rewrite execute_normalizeToolParameters.
Qed.

Lemma createClawdbotCodingTools_abort_bound_witness :
  Forall (fun tool => exists inner, execute tool = WithAbortSignal 7 inner)
    (createClawdbotCodingTools AssemblyFacts.sampleSources
       (mkOptions None None None None None (Some 7) None None)).
Proof.
  apply Forall_forall. intros tool Hin.
  destruct (createClawdbotCodingTools_abort_bound _ _ tool Hin)
    as [source [_ [_ He]]].
  now exists (execute source).
Defined.

(** The variants of the file tools that the assembly builds itself. *)
Definition builtFileTools (src : ToolSources) (options : Options)
    : list AnyAgentTool :=
  match sandboxRoot options with
  | Some root =>
      if truthyStr root
      then [createSandboxedReadTool src root]
      else [createClawdbotReadTool (createReadTool src (workspaceRoot src options));
            wrapToolParamNormalization
              (createWriteTool src (workspaceRoot src options));
            wrapToolParamNormalization
              (createEditTool src (workspaceRoot src options))]
  | None =>
      [createClawdbotReadTool (createReadTool src (workspaceRoot src options));
       wrapToolParamNormalization
         (createWriteTool src (workspaceRoot src options));
       wrapToolParamNormalization
         (createEditTool src (workspaceRoot src options))]
  end.

(** X9.  Of the tools of the coding collaborator, none called [bash],
    [exec], [write], [edit] or like its read tool is passed on as it is:
    each base tool is either a collaborator tool under another name, or a
    variant built here; with a sandbox root the only variant is the read
    tool behind the path guard at that root. *)
Theorem base_replaces_file_tools (src : ToolSources) (options : Options)
    (tool : AnyAgentTool) :
  In tool (base src options) ->
  (In tool (codingTools src)
   /\ name tool <> name (readTool src)
   /\ name tool <> "bash" /\ name tool <> "exec"
   /\ name tool <> "write" /\ name tool <> "edit")
  \/ In tool (builtFileTools src options).
Proof.
  unfold base. rewrite in_flat_map. intros [t [Ht Hin]].
  unfold baseTool, truthyOpt in Hin. unfold builtFileTools. revert Hin.
  destruct (String.eqb_spec (name t) (name (readTool src))) as [_|Hr];
    [|destruct (String.eqb_spec (name t) "bash") as [_|Hb];
      [|destruct (String.eqb_spec (name t) "exec") as [_|He];
        [|destruct (String.eqb_spec (name t) "write") as [_|Hw];
          [|destruct (String.eqb_spec (name t) "edit") as [_|Hd]]]]];
    (destruct (sandboxRoot options) as [root|];
     [destruct (truthyStr root)|]);
    simpl; intros Hin; try contradiction;
    destruct Hin as [<-|[]]; auto 10.
Qed.

Lemma base_replaces_file_tools_witness :
  Forall (fun tool => name tool = "read")
    (base AssemblyFacts.sampleSources
       (AssemblyFacts.patchOptions (Some AssemblyFacts.readOnly))).
Proof.
  apply Forall_forall. intros tool Hin.
  destruct (base_replaces_file_tools _ _ tool Hin) as [[Hc [Hr [Hb [_ [Hw He]]]]]|H].
  - simpl in Hc, Hr.
    destruct Hc as [<-|[<-|[<-|[<-|[]]]]]; simpl in *; congruence.
  - simpl in H. destruct H as [<-|[]]. reflexivity.
Defined.

(** X10.  In a sandbox with a workspace root and write access, the edit and
    write tools are constructed behind the path guard at the sandbox root,
    the patch tool, when constructed, is confined to that root, and in a
    sandbox with a root of either access mode every file tool built here
    runs behind the guard at the root. *)
Theorem sandboxed_file_tools_guarded (src : ToolSources) (options : Options)
    (sb : SandboxContext) :
  sandbox options = Some sb -> sandbox_enabled sb = true ->
  sandbox_workspaceDir sb <> "" ->
  let root := sandbox_workspaceDir sb in
  (forall tool, In tool (builtFileTools src options) ->
                exists inner, execute tool = SandboxPathGuard root inner)
  /\ (sandbox_workspaceAccess sb <> "ro" ->
      In (createSandboxedEditTool src root) (tools src options)
      /\ In (createSandboxedWriteTool src root) (tools src options)
      /\ execute (createSandboxedEditTool src root)
         = SandboxPathGuard root
             (ParamNormalization (execute (createEditTool src root)))
      /\ execute (createSandboxedWriteTool src root)
         = SandboxPathGuard root
             (ParamNormalization (execute (createWriteTool src root)))
      /\ (forall tool, applyPatchTool src options = Some tool ->
                       tool = createApplyPatchTool src root (Some root))).
Proof.
  intros Hsb Hen Hdir root.
  assert (Hthe : theSandbox options = Some sb).
  { unfold theSandbox. now rewrite Hsb, Hen. }
  assert (Hroot : sandboxRoot options = Some root).
  { unfold sandboxRoot. now rewrite Hthe. }
  assert (Htruthy : truthyStr root = true) by now apply truthyStr_true.
  split.
  - intros tool Hin. unfold builtFileTools in Hin.
    rewrite Hroot, Htruthy in Hin. destruct Hin as [<-|[]].
    eexists. reflexivity.
  - intros Hrw. apply String.eqb_neq in Hrw.
    assert (Hwrites : allowWorkspaceWrites options = true).
    { unfold allowWorkspaceWrites. rewrite Hthe. fold root.
      unfold root. now rewrite Hrw. }
    split; [|split; [|split; [reflexivity|split; [reflexivity|]]]].
    + unfold tools. rewrite Hroot, Htruthy, Hwrites.
      rewrite !in_app_iff. right. left. simpl. auto.
    + unfold tools. rewrite Hroot, Htruthy, Hwrites.
      rewrite !in_app_iff. right. left. simpl. auto.
    + intros tool. unfold applyPatchTool.
      rewrite Hroot, Hwrites. simpl. rewrite Htruthy. simpl.
      destruct (negb (applyPatchEnabled options) || false); [discriminate|].
      intros H. now injection H as <-.
Qed.

Lemma sandboxed_file_tools_guarded_witness :
  In (createSandboxedWriteTool AssemblyFacts.sampleSources "/sandbox")
    (tools AssemblyFacts.sampleSources
       (AssemblyFacts.patchOptions (Some (mkSandbox true "/sandbox" "rw" None)))).
Proof.
  apply (sandboxed_file_tools_guarded AssemblyFacts.sampleSources
           (AssemblyFacts.patchOptions (Some (mkSandbox true "/sandbox" "rw" None)))
           (mkSandbox true "/sandbox" "rw" None) eq_refl eq_refl
           ltac:(discriminate)).
  discriminate.
Defined.

End PipelineFacts.

(** ** The shape of normalized schemas *)

Module ShapeFacts.
Import Js JsFacts Schema SchemaFacts.

(** The keys of a flattened schema. *)
Definition flattenedKeys : list string :=
  ["type"; "title"; "description"; "properties"; "required";
   "additionalProperties"].

Lemma hasKey_keys (r : Fields) (k : string) :
  hasKey r k = true <-> In k (map fst r).
Proof.
  induction r as [|[k0 v] r IH]; simpl; [split; [discriminate|tauto]|].
  rewrite orb_true_iff, IH, String.eqb_eq. tauto.
Qed.

Lemma flattenedSchema_fields (schema : Fields) (st : FlattenState) :
  exists fields,
    flattenedSchema schema schema st = JObj fields
    /\ get fields "type" = JStr "object"
    /\ hasKey fields "properties" = true
    /\ hasKey fields "additionalProperties" = true
    /\ get fields "additionalProperties"
       = (if hasKey schema "additionalProperties"
          then get schema "additionalProperties" else JBool true)
    /\ (forall k, hasKey fields k = true -> In k flattenedKeys).
Proof.
  unfold flattenedSchema. eexists. split; [reflexivity|].
  destruct (isStr (get schema "title")), (isStr (get schema "description")),
    (mergedRequired schema st) as [[|key keys]|];
    (split; [reflexivity|]); (split; [reflexivity|]);
    (split; [reflexivity|]); (split; [reflexivity|]);
    intros k Hk; apply hasKey_keys in Hk; unfold flattenedKeys;
    simpl in *; intuition auto.
Qed.

(** X11.  A tool whose schema has no top-level [type]: when the schema is
    object-shaped (a [properties] of type object or a [required] array) or
    a union ([anyOf] or [oneOf] array), the schema handed to the cleaner
    has [type: "object"]; when it is object-shaped and no union, every other
    key is kept with its value; when it is neither, the tool is returned as
    it is and the cleaner is not applied. *)
Theorem normalizeToolParameters_top_level_type
    (clean : JsVal -> JsVal) (tool : AnyAgentTool) (schema : Fields) :
  parameters tool = JObj schema ->
  hasKey schema "type" = false ->
  let objectShaped :=
    isObjectType (get schema "properties")
    || isArrayVal (get schema "required") in
  let union :=
    isArrayVal (get schema "anyOf") || isArrayVal (get schema "oneOf") in
  (objectShaped || union = true ->
   exists fields,
     parameters (normalizeToolParameters clean tool) = clean (JObj fields)
     /\ get fields "type" = JStr "object"
     /\ (union = false ->
         forall k, k <> "type" ->
                   get fields k = get schema k
                   /\ hasKey fields k = hasKey schema k))
  /\ (objectShaped || union = false ->
      normalizeToolParameters clean tool = tool).
Proof.
  intros Hp Ht. cbv zeta.
  rewrite (normalizeToolParameters_object clean tool schema Hp).
  unfold variantKey. rewrite Ht. cbn [andb negb].
  destruct (isArrayVal (get schema "anyOf")) eqn:Ha,
    (isArrayVal (get schema "oneOf")) eqn:Ho,
    (isObjectType (get schema "properties")
     || isArrayVal (get schema "required")) eqn:Hs;
    cbn [andb orb negb]; (split; [|try discriminate; reflexivity]);
    try discriminate; intros _.
  1-6: destruct (flattenedSchema_fields schema
                   (visitVariants (items (get schema "anyOf"))))
         as [f1 [E1 [T1 _]]];
       destruct (flattenedSchema_fields schema
                   (visitVariants (items (get schema "oneOf"))))
         as [f2 [E2 [T2 _]]];
       first [exists f1; rewrite E1 | exists f2; rewrite E2];
       (split; [reflexivity|]); (split; [assumption|]); discriminate.
  exists (setProp schema "type" (JStr "object")).
  split; [reflexivity|]. split; [now rewrite get_setProp|].
  intros _ k Hk. rewrite get_setProp, hasKey_setProp.
  destruct (String.eqb_spec "type" k) as [E|_]; [congruence|]. auto.
Qed.

Lemma normalizeToolParameters_top_level_type_witness :
  (exists fields,
     parameters
       (normalizeToolParameters (fun s => s)
          (mkTool "wait"
             (JObj [("properties",
                     JObj [("ms", JObj [("type", JStr "number")])]);
                    ("required", JArr [JStr "ms"])])
             (Native "wait")))
     = JObj fields
     /\ get fields "type" = JStr "object"
     /\ get fields "required" = JArr [JStr "ms"])
  /\ normalizeToolParameters (fun _ => JNull)
       (mkTool "ping" (JObj []) (Native "ping"))
     = mkTool "ping" (JObj []) (Native "ping").
Proof.
  split.
  - destruct (normalizeToolParameters_top_level_type (fun s => s)
                (mkTool "wait"
                   (JObj [("properties",
                           JObj [("ms", JObj [("type", JStr "number")])]);
                          ("required", JArr [JStr "ms"])])
                   (Native "wait")) _ eq_refl eq_refl) as [H _].
    destruct (H eq_refl) as [fields [Hp [Ht Hk]]].
    exists fields. split; [exact Hp|]. split; [exact Ht|].
    now rewrite (proj1 (Hk eq_refl "required" ltac:(discriminate))).
  - apply (normalizeToolParameters_top_level_type (fun _ => JNull)
             (mkTool "ping" (JObj []) (Native "ping")) [] eq_refl eq_refl).
    reflexivity.
Defined.

(** X12.  A union schema that is flattened reaches the cleaner as an object
    schema without [anyOf] and [oneOf]: it has [type: "object"], a
    [properties] and an [additionalProperties] key (the union's own value,
    [true] by default) and no key besides these, [title], [description] and
    [required]; every other keyword of the union is dropped.  A schema that
    already has [type] and [properties] and no [anyOf] array is not
    flattened, also when it has a [oneOf] array: it is cleaned as it is. *)
Theorem normalizeToolParameters_union_shape
    (clean : JsVal -> JsVal) (tool : AnyAgentTool) (schema : Fields) :
  parameters tool = JObj schema ->
  (hasKey schema "type" && hasKey schema "properties"
   && negb (isArrayVal (get schema "anyOf")) = true ->
   parameters (normalizeToolParameters clean tool) = clean (JObj schema))
  /\ (hasKey schema "type" && hasKey schema "properties"
      && negb (isArrayVal (get schema "anyOf")) = false ->
      isArrayVal (get schema "anyOf") || isArrayVal (get schema "oneOf") = true ->
      exists fields,
        parameters (normalizeToolParameters clean tool) = clean (JObj fields)
        /\ get fields "type" = JStr "object"
        /\ hasKey fields "anyOf" = false
        /\ hasKey fields "oneOf" = false
        /\ hasKey fields "properties" = true
        /\ get fields "additionalProperties"
           = (if hasKey schema "additionalProperties"
              then get schema "additionalProperties" else JBool true)
        /\ (forall k, hasKey fields k = true -> In k flattenedKeys)).
Proof.
  intros Hp. rewrite (normalizeToolParameters_object clean tool schema Hp).
  unfold variantKey.
  split.
  - intros H1. now rewrite H1.
  - intros H1 Hu. rewrite H1.
    assert (H2 : negb (hasKey schema "type")
                 && (isObjectType (get schema "properties")
                     || isArrayVal (get schema "required"))
                 && negb (isArrayVal (get schema "anyOf"))
                 && negb (isArrayVal (get schema "oneOf")) = false).
    { destruct (isArrayVal (get schema "anyOf")),
        (isArrayVal (get schema "oneOf")); try discriminate;
        now rewrite ?andb_false_r. }
    rewrite H2.
    assert (Hshape : forall st,
               exists fields,
                 flattenedSchema schema schema st = JObj fields
                 /\ get fields "type" = JStr "object"
                 /\ hasKey fields "anyOf" = false
                 /\ hasKey fields "oneOf" = false
                 /\ hasKey fields "properties" = true
                 /\ get fields "additionalProperties"
                    = (if hasKey schema "additionalProperties"
                       then get schema "additionalProperties" else JBool true)
                 /\ (forall k, hasKey fields k = true -> In k flattenedKeys)).
    { intros st.
      destruct (flattenedSchema_fields schema st)
        as [f [E [T [P [_ [A K]]]]]].
      exists f. repeat split; auto.
      - destruct (hasKey f "anyOf") eqn:Ek; [|reflexivity].
        apply K in Ek. simpl in Ek. intuition discriminate.
      - destruct (hasKey f "oneOf") eqn:Ek; [|reflexivity].
        apply K in Ek. simpl in Ek. intuition discriminate. }
    destruct (isArrayVal (get schema "anyOf")).
    + destruct (Hshape (visitVariants (items (get schema "anyOf"))))
        as [f [E H]]. exists f. simpl. now rewrite E.
    + destruct (isArrayVal (get schema "oneOf")); [|discriminate].
      destruct (Hshape (visitVariants (items (get schema "oneOf"))))
        as [f [E H]]. exists f. simpl. now rewrite E.
Qed.

Lemma normalizeToolParameters_union_shape_witness :
  exists fields,
    parameters (normalizeToolParameters (fun s => s)
                  (mkTool "act" actionUnion (Native "act")))
    = JObj fields
    /\ hasKey fields "anyOf" = false
    /\ get fields "type" = JStr "object".
Proof.
  destruct (normalizeToolParameters_union_shape (fun s => s)
              (mkTool "act" actionUnion (Native "act")) _ eq_refl)
    as [_ H].
  destruct (H eq_refl eq_refl) as [fields [Hp [Ht [Ha _]]]].
  exists fields. auto.
Defined.

(** *** The properties of a flattened union *)

(** The alternative defines the property [k]. *)
Definition definesProperty (k : string) (entry : JsVal) : bool :=
  definesObjectProperties entry && hasKey (entries (propertiesOf entry)) k.

(** The loop body for a key other than [__proto__]: the key becomes or
    stays an own property. *)
Lemma mergeProperty_own (acc : Accumulator) (key : string) (value : JsVal) :
  String.eqb key "__proto__" = false ->
  mergeProperty acc (key, value)
  = mkAccumulator
      (setProp (ownProperties acc) key
         (if inMerged acc key
          then mergePropertySchemas (readMerged acc key) value
          else value))
      (replacedPrototype acc).
Proof.
  intros Hk. unfold mergeProperty, writeMerged. rewrite Hk. cbn [andb].
  now destruct (inMerged acc key).
Qed.

Lemma mergeProperties_own (es : Fields) (acc : Accumulator) (k : string) :
  hasKey es "__proto__" = false ->
  replacedPrototype (fold_left mergeProperty es acc) = replacedPrototype acc
  /\ hasKey (ownProperties (fold_left mergeProperty es acc)) k
     = hasKey (ownProperties acc) k || hasKey es k
  /\ (hasKey es k = false ->
      get (ownProperties (fold_left mergeProperty es acc)) k
      = get (ownProperties acc) k).
Proof.
  revert acc; induction es as [|[key v] es IH]; intros acc;
    cbn [fold_left hasKey].
  - intros _. now rewrite orb_false_r.
  - intros H. apply orb_false_iff in H as [Hkey Hes].
    destruct (IH (mergeProperty acc (key, v)) Hes) as [Hp [Hh Hg]].
    rewrite (mergeProperty_own acc key v Hkey) in *.
    cbn [replacedPrototype ownProperties] in *.
    split; [exact Hp|]. split.
    + rewrite Hh, hasKey_setProp.
      now destruct (String.eqb key k), (hasKey (ownProperties acc) k).
    + intros Hk. apply orb_false_iff in Hk as [Hk1 Hk2].
      rewrite (Hg Hk2), get_setProp. now rewrite Hk1.
Qed.

(** A key that is new to the accumulator and no member of
    [Object.prototype] takes the schema it has in the alternative. *)
Lemma mergeProperties_new (es : Fields) (acc : Accumulator) (k : string) :
  hasKey es "__proto__" = false ->
  NoDup (map fst es) -> inMerged acc k = false -> hasKey es k = true ->
  get (ownProperties (fold_left mergeProperty es acc)) k = get es k.
Proof.
  revert acc; induction es as [|[key v] es IH]; intros acc Hproto Hnd Hm;
    cbn [fold_left hasKey get map fst] in *; [discriminate|].
  apply orb_false_iff in Hproto as [Hkey Hes].
  inversion Hnd as [|? ? Hnotin Hnd']; subst.
  rewrite (mergeProperty_own acc key v Hkey).
  destruct (String.eqb_spec key k) as [->|Hne]; cbn [orb].
  - intros _.
    assert (Habs : hasKey es k = false).
    { destruct (hasKey es k) eqn:E; [|reflexivity].
      exfalso. apply Hnotin. clear - E.
      induction es as [|[k0 v0] es IH]; simpl in *; [discriminate|].
      apply orb_true_iff in E as [E|E];
        [left; now apply String.eqb_eq|right; auto]. }
    rewrite (proj2 (proj2 (mergeProperties_own es _ k Hes)) Habs).
    cbn [ownProperties]. now rewrite get_setProp, String.eqb_refl, Hm.
  - intros Hk. apply IH; [exact Hes|exact Hnd'| |exact Hk].
    unfold inMerged in *. cbn [ownProperties replacedPrototype].
    rewrite hasKey_setProp.
    apply String.eqb_neq in Hne. now rewrite Hne.
Qed.

(** What the loop assigns under [__proto__] is the prototype itself or a
    new object literal: the cases of [writeMerged]. *)
Lemma mergeProperty_prototype (acc : Accumulator) (value : JsVal) :
  mergePropertySchemas (prototypeOf acc) value = prototypeOf acc
  \/ exists merged, mergePropertySchemas (prototypeOf acc) value = JObj merged.
Proof.
  assert (Ht : truthy (prototypeOf acc) = true).
  { unfold prototypeOf. now destruct (replacedPrototype acc). }
  unfold mergePropertySchemas. rewrite Ht. cbn [negb].
  destruct (truthy value); cbn [negb]; [|now left].
  destruct (isSome (extractEnumValues (prototypeOf acc))
            || isSome (extractEnumValues value)); [|now left].
  right. eexists. reflexivity.
Qed.

Lemma visitVariant_properties (st : FlattenState) (entry : JsVal) :
  mergedProperties (visitVariant st entry)
  = if definesObjectProperties entry
    then fold_left mergeProperty (entries (propertiesOf entry))
           (mergedProperties st)
    else mergedProperties st.
Proof.
  rewrite visitVariant_eq. now destruct (definesObjectProperties entry).
Qed.

(** The accumulator is an object literal, so a property named like a
    member of [Object.prototype] is merged with the inherited member from
    the first alternative on, and a property called [__proto__] goes
    through the setter. *)
Example mergeProperty_inherited :
  mergeProperty (mkAccumulator [] None)
    ("toString", JObj [("type", JStr "string")])
  = mkAccumulator [("toString", JFunction "toString")] None
  /\ mergeProperty (mkAccumulator [] None)
       ("constructor", JObj [("const", JStr "a")])
     = mkAccumulator
         [("constructor",
           JObj [("type", JStr "string"); ("enum", JArr [JStr "a"])])]
         None
  /\ mergeProperty (mkAccumulator [] None)
       ("__proto__", JObj [("type", JStr "string")])
     = mkAccumulator [] None
  /\ mergeProperty (mkAccumulator [] None)
       ("__proto__", JObj [("const", JStr "a")])
     = mkAccumulator []
         (Some [("type", JStr "string"); ("enum", JArr [JStr "a"])])
  /\ map (inMerged (mkAccumulator [] None))
       ["constructor"; "__defineGetter__"; "__defineSetter__";
        "hasOwnProperty"; "__lookupGetter__"; "__lookupSetter__";
        "isPrototypeOf"; "propertyIsEnumerable"; "toString"; "valueOf";
        "__proto__"; "toLocaleString"; "tostring"; "prototype"; "name"]
     = [true; true; true; true; true; true; true; true; true; true; true;
        true; false; false; false].
Proof. repeat split. Qed.

(** No alternative has a property called [__proto__]. *)
Definition plainKeys (variants : list JsVal) : Prop :=
  forall entry, In entry variants -> definesProperty "__proto__" entry = false.

Lemma plainKeys_cons (entry : JsVal) (variants : list JsVal) :
  plainKeys (entry :: variants)
  -> definesProperty "__proto__" entry = false /\ plainKeys variants.
Proof.
  intros H. split; [apply H; now left|].
  intros e He. apply H. now right.
Qed.

Lemma visitVariants_own (variants : list JsVal) (st : FlattenState)
    (k : string) :
  plainKeys variants ->
  let st' := fold_left visitVariant variants st in
  replacedPrototype (mergedProperties st')
  = replacedPrototype (mergedProperties st)
  /\ hasKey (ownProperties (mergedProperties st')) k
     = hasKey (ownProperties (mergedProperties st)) k
       || existsb (definesProperty k) variants
  /\ (existsb (definesProperty k) variants = false ->
      get (ownProperties (mergedProperties st')) k
      = get (ownProperties (mergedProperties st)) k).
Proof.
  revert st; induction variants as [|entry variants IH]; intros st Hplain;
    cbv zeta; cbn [fold_left existsb].
  - split; [reflexivity|]. now rewrite orb_false_r.
  - apply plainKeys_cons in Hplain as [He Hrest].
    destruct (IH (visitVariant st entry) Hrest) as [Hp [Hh Hg]].
    cbv zeta in Hp, Hh, Hg.
    rewrite visitVariant_properties in Hp, Hh, Hg.
    assert (Hd : definesProperty k entry
                 = definesObjectProperties entry
                   && hasKey (entries (propertiesOf entry)) k)
      by reflexivity.
    rewrite Hd. unfold definesProperty in He.
    destruct (definesObjectProperties entry); cbn [andb orb] in *.
    + destruct (mergeProperties_own (entries (propertiesOf entry))
                  (mergedProperties st) k He) as [Hp' [Hh' Hg']].
      split; [now rewrite Hp, Hp'|]. split.
      * now rewrite Hh, Hh', orb_assoc.
      * intros H. apply orb_false_iff in H as [H1 H2].
        rewrite (Hg H2). now apply Hg'.
    + split; [exact Hp|]. split; [exact Hh|exact Hg].
Qed.

(** X13.  The properties of a flattened union are the properties of its
    alternatives taken together.  For a union whose alternatives have no
    property called [__proto__] and of which one defines a property: the
    [properties] handed to the cleaner is an object literal; a key is among
    its keys exactly when some alternative that defines object properties
    has it; and a key that is no member of [Object.prototype] and that a
    single alternative has keeps the schema that alternative gives it. *)
Theorem mergedProperties_union (clean : JsVal -> JsVal) (tool : AnyAgentTool)
    (k : string) :
  truthy (parameters tool) && isObjectType (parameters tool) = true ->
  let schema := visible (parameters tool) in
  isFlattened schema = true ->
  let variants := alternatives schema in
  plainKeys variants ->
  (exists entry, In entry variants /\ definesProperty k entry = true) ->
  exists flat props,
    parameters (normalizeToolParameters clean tool) = clean (JObj flat)
    /\ get flat "properties" = JObj props
    /\ (forall key,
          hasKey props key = true
          <-> exists entry, In entry variants /\ definesProperty key entry = true)
    /\ (inObjectPrototype k = false ->
        forall before entry after,
          variants = before ++ entry :: after ->
          existsb (definesProperty k) before = false ->
          existsb (definesProperty k) after = false ->
          NoDup (map fst (entries (propertiesOf entry))) ->
          get props k = get (entries (propertiesOf entry)) k).
Proof.
  intros Hobj schema Hflat variants Hplain Hsome.
  rewrite (normalizeToolParameters_flattened clean tool Hobj Hflat).
  fold schema. fold variants.
  set (acc := mergedProperties (visitVariants variants)).
  assert (Hown : forall key,
             replacedPrototype acc = None
             /\ hasKey (ownProperties acc) key
                = existsb (definesProperty key) variants).
  { intros key.
    destruct (visitVariants_own variants
                (mkFlatten (mkAccumulator [] None) [] 0) key Hplain)
      as [Hp [Hh _]].
    split; [exact Hp|exact Hh]. }
  assert (Hlen : (0 <? List.length (ownProperties acc)) = true).
  { destruct Hsome as [entry [Hin Hd]].
    destruct (Hown k) as [_ Hk].
    assert (Hex : existsb (definesProperty k) variants = true).
    { apply existsb_exists. now exists entry. }
    rewrite Hex in Hk. destruct (ownProperties acc); [discriminate|].
    reflexivity. }
  exists (match flattenedSchema schema (entries (parameters tool))
                  (visitVariants variants) with
          | JObj flat => flat
          | _ => []
          end), (ownProperties acc).
  split; [reflexivity|]. split; [|split].
  - unfold flattenedSchema. fold acc. rewrite Hlen.
    unfold accumulated. rewrite (proj1 (Hown k)).
    now destruct (isStr (get (entries (parameters tool)) "title")),
      (isStr (get (entries (parameters tool)) "description")).
  - intros key. rewrite (proj2 (Hown key)). apply existsb_exists.
  - intros Hmember before entry after Hsplit Hb Ha Hnd.
    assert (Hd : definesProperty k entry = true).
    { destruct Hsome as [e [Hin Hd]]. rewrite Hsplit in Hin.
      apply in_app_iff in Hin as [Hin|[<-|Hin]]; [|exact Hd|].
      - assert (existsb (definesProperty k) before = true); [|congruence].
        apply existsb_exists. now exists e.
      - assert (existsb (definesProperty k) after = true); [|congruence].
        apply existsb_exists. now exists e. }
    assert (Hparts : plainKeys before /\ plainKeys (entry :: after)).
    { split; intros e He; apply Hplain; rewrite Hsplit, in_app_iff; auto. }
    destruct Hparts as [Hpb Hpa].
    apply plainKeys_cons in Hpa as [He Hpa].
    unfold acc, visitVariants. rewrite Hsplit, fold_left_app.
    cbn [fold_left].
    set (st0 := fold_left visitVariant before _).
    destruct (visitVariants_own after (visitVariant st0 entry) k Hpa)
      as [_ [_ Hg]].
    rewrite (Hg Ha), visitVariant_properties.
    unfold definesProperty in Hd, He.
    apply andb_true_iff in Hd as [Hdo Hk]. rewrite Hdo in *.
    cbn [andb] in He.
    apply mergeProperties_new; [exact He|exact Hnd| |exact Hk].
    destruct (visitVariants_own before
                (mkFlatten (mkAccumulator [] None) [] 0) k Hpb)
      as [Hp0 [Hh0 _]].
    fold st0 in Hp0, Hh0. unfold inMerged.
    rewrite Hp0, Hh0, Hb, Hmember. reflexivity.
Qed.

Lemma mergedProperties_union_witness :
  exists flat props,
    parameters (normalizeToolParameters (fun s => s)
                  (mkTool "act" (JObj requiredUnion) (Native "act")))
    = JObj flat
    /\ get flat "properties" = JObj props
    /\ get props "b" = JObj [("type", JStr "string")].
Proof.
  destruct (mergedProperties_union (fun s => s)
              (mkTool "act" (JObj requiredUnion) (Native "act")) "b"
              eq_refl eq_refl) as [flat [props [Hp [Hprops [_ Hget]]]]].
  - intros entry Hin. vm_compute in Hin.
    destruct Hin as [<-|[<-|[]]]; reflexivity.
  - eexists. split; [left; reflexivity|reflexivity].
  - exists flat, props. split; [exact Hp|]. split; [exact Hprops|].
    rewrite (Hget eq_refl []
               (JObj [("type", JStr "object");
                      ("properties",
                       JObj [("a", JObj [("type", JStr "string")]);
                             ("b", JObj [("type", JStr "string")])]);
                      ("required", JArr [JStr "a"; JStr "b"])])
               [JObj [("type", JStr "object");
                      ("properties",
                       JObj [("a", JObj [("type", JStr "string")])]);
                      ("required", JArr [JStr "a"])]]);
      try reflexivity.
    simpl. repeat constructor; simpl; intuition discriminate.
Defined.

(** *** Enumerations *)

(** The schema of a literal: [{const: value}]. *)
Definition literal (value : JsVal) : JsVal := JObj [("const", value)].

Lemma unionValues_literals (values : list JsVal) :
  unionValues (map literal values) = values.
Proof.
  induction values as [|v values IH]; [reflexivity|].
  cbn [map unionValues flat_map]. fold (unionValues (map literal values)).
  rewrite IH. reflexivity.
Qed.

(** X14.  A union is an enumeration through its alternatives: for a schema
    with no [enum] array and no [const], the values are the values of the
    alternatives of [anyOf] (of [oneOf] when [anyOf] is no array), in order,
    alternatives that are no enumerations adding nothing, and a union
    without any value is no enumeration.  A union of literals has the
    literals as its values. *)
Theorem extractEnumValues_union (record : Fields) (variants : list JsVal) :
  isArrayVal (get record "enum") = false ->
  hasKey record "const" = false ->
  get record "anyOf" = JArr variants
  \/ (isArrayVal (get record "anyOf") = false
      /\ get record "oneOf" = JArr variants) ->
  extractEnumValues (JObj record) = nonEmpty (unionValues variants)
  /\ (forall before variant after,
        variants = before ++ variant :: after ->
        extractEnumValues variant = None ->
        unionValues variants = unionValues (before ++ after))
  /\ (forall values, variants = map literal values ->
                     extractEnumValues (JObj record) = nonEmpty values).
Proof.
  intros He Hc Hv.
  assert (Heq : extractEnumValues (JObj record)
                = nonEmpty (unionValues variants)).
  { rewrite extractEnumValues_object, Hc.
    destruct Hv as [Ha|[Ha Ho]].
    - rewrite Ha. now destruct (get record "enum").
    - rewrite Ho.
      destruct (get record "enum"); try discriminate;
        destruct (get record "anyOf"); try discriminate; reflexivity. }
  split; [exact Heq|]. split.
  - intros before variant after -> Hnone. unfold unionValues.
    rewrite !flat_map_app. cbn [flat_map]. now rewrite Hnone.
  - intros values ->. now rewrite Heq, unionValues_literals.
Qed.

Lemma extractEnumValues_union_witness :
  extractEnumValues
    (JObj [("description", JStr "mode");
           ("anyOf", JArr [literal (JStr "fast"); literal (JStr "slow")])])
  = Some [JStr "fast"; JStr "slow"].
Proof.
  apply (proj2 (proj2 (extractEnumValues_union
                         [("description", JStr "mode");
                          ("anyOf", JArr [literal (JStr "fast");
                                          literal (JStr "slow")])]
                         [literal (JStr "fast"); literal (JStr "slow")]
                         eq_refl eq_refl (or_introl eq_refl)))
           [JStr "fast"; JStr "slow"]).
  reflexivity.
Defined.

(** The keys a merged enumeration can have. *)
Definition mergedKeys : list string :=
  ["title"; "description"; "default"; "type"; "enum"].

(** X15.  Merging two property schemas of which one is an enumeration
    keeps nothing but [title], [description], [default], [type] and [enum]:
    every other keyword of either side is absent from the merged schema. *)
Theorem mergePropertySchemas_keywords (existing incoming : JsVal) :
  truthy existing = true -> truthy incoming = true ->
  extractEnumValues existing <> None \/ extractEnumValues incoming <> None ->
  exists merged,
    mergePropertySchemas existing incoming = JObj merged
    /\ hasKey merged "enum" = true
    /\ (forall k, hasKey merged k = true -> In k mergedKeys)
    /\ (forall k, ~ In k mergedKeys -> get merged k = JUndefined).
Proof.
  intros He Hi Hsome.
  rewrite (mergePropertySchemas_eq _ _ He Hi).
  assert (Hb : isSome (extractEnumValues existing)
               || isSome (extractEnumValues incoming) = true).
  { destruct (extractEnumValues existing), (extractEnumValues incoming);
      simpl; auto. destruct Hsome; congruence. }
  rewrite Hb. exists (mergedEnumeration existing incoming).
  split; [reflexivity|].
  assert (Hkeys : forall k,
             hasKey (mergedEnumeration existing incoming) k = true ->
             In k mergedKeys).
  { intros k. unfold mergedEnumeration. cbv zeta.
    rewrite hasKey_setProp.
    destruct (String.eqb_spec "enum" k) as [<-|_];
      [intros _; simpl; auto 10|]. cbn [orb].
    assert (Hann : hasKey (copyAnnotations (copyAnnotations [] existing)
                             incoming) k = true -> In k mergedKeys).
    { rewrite hasKey_annotations. intros H.
      apply andb_true_iff in H as [H _]. unfold isAnnotationKey in H.
      apply existsb_exists in H as [x [Hx Heq]].
      apply String.eqb_eq in Heq. subst x.
      unfold annotationKeys in Hx. simpl in *. intuition auto. }
    destruct (newSet String.eqb _) as [|t0 [|t1 l]]; try exact Hann.
    rewrite hasKey_setProp.
    destruct (String.eqb_spec "type" k) as [<-|_];
      [intros _; simpl; auto 10|exact Hann]. }
  split; [|split; [exact Hkeys|]].
  - unfold mergedEnumeration. cbv zeta.
    now rewrite hasKey_setProp, String.eqb_refl.
  - intros k Hk. apply get_absent.
    destruct (hasKey (mergedEnumeration existing incoming) k) eqn:E;
      [|reflexivity].
    exfalso. apply Hk. now apply Hkeys.
Qed.

Lemma mergePropertySchemas_keywords_witness :
  exists merged,
    mergePropertySchemas
      (JObj [("type", JStr "string"); ("minLength", JNum 1)])
      (JObj [("enum", JArr [JStr "a"]); ("pattern", JStr "^a$")])
    = JObj merged
    /\ get merged "minLength" = JUndefined
    /\ get merged "pattern" = JUndefined.
Proof.
  destruct (mergePropertySchemas_keywords
              (JObj [("type", JStr "string"); ("minLength", JNum 1)])
              (JObj [("enum", JArr [JStr "a"]); ("pattern", JStr "^a$")])
              eq_refl eq_refl) as [merged [Hm [_ [_ Hk]]]].
  - right. discriminate.
  - exists merged. split; [exact Hm|].
    split; apply Hk; simpl; intuition discriminate.
Defined.

(** *** Merging along the alternatives *)

Section Resets.
Context {A : Type} (same : A -> A -> bool).

Lemma addAll_app (l m acc : list A) :
  addAll same acc (l ++ m) = addAll same (addAll same acc l) m.
Proof.
  revert acc; induction l as [|x l IH]; intros acc; simpl; [reflexivity|].
  apply IH.
Qed.

Lemma distinct_has (acc r : list A) (x : A) :
  distinct same (acc ++ x :: r) -> has same acc x = false.
Proof.
  unfold distinct, has. induction acc as [|a acc IH]; simpl; intros H;
    [reflexivity|].
  inversion H as [|? ? Hfa Hrest]; subst.
  apply orb_false_iff. split.
  - apply Forall_app in Hfa as [_ Hfa].
    now inversion Hfa.
  - now apply IH.
Qed.

(** Inserting the members of a set into a set of their own changes nothing. *)
Lemma addAll_distinct_id (xs acc : list A) :
  distinct same (acc ++ xs) -> addAll same acc xs = acc ++ xs.
Proof.
  revert acc; induction xs as [|x xs IH]; intros acc H; simpl.
  - now rewrite app_nil_r.
  - rewrite (distinct_has acc xs x H).
    rewrite IH; rewrite <- app_assoc; [reflexivity|exact H].
Qed.

Lemma newSet_newSet_app (l m : list A) :
  newSet same (newSet same l ++ m) = newSet same (l ++ m).
Proof.
  unfold newSet. rewrite !addAll_app. f_equal.
  apply (addAll_distinct_id (addAll same [] l) []).
  apply newSet_distinct.
Qed.
End Resets.

Lemma extractEnumValues_mergedEnumeration (existing incoming : JsVal) :
  extractEnumValues (JObj (mergedEnumeration existing incoming))
  = Some (newSet sameValueZero
            (orEmpty (extractEnumValues existing)
             ++ orEmpty (extractEnumValues incoming))).
Proof.
  rewrite extractEnumValues_object, mergedEnumeration_enum.
  now rewrite newSet_firstSeen.
Qed.

(** X16.  Merging composes along the alternatives: when the first or the
    second of three truthy schemas of a property is an enumeration, merging
    the first two and then the third gives the enumeration of the values of
    all three in first-seen order, as one pass over the three lists. *)
Theorem mergePropertySchemas_three (first second third : JsVal) :
  truthy first = true -> truthy second = true -> truthy third = true ->
  extractEnumValues first <> None \/ extractEnumValues second <> None ->
  exists merged,
    mergePropertySchemas (mergePropertySchemas first second) third
    = JObj merged
    /\ get merged "enum"
       = JArr (firstSeen sameValueZero []
                 (orEmpty (extractEnumValues first)
                  ++ orEmpty (extractEnumValues second)
                  ++ orEmpty (extractEnumValues third))).
Proof.
  intros H1 H2 H3 Hsome.
  assert (Hb : isSome (extractEnumValues first)
               || isSome (extractEnumValues second) = true).
  { destruct (extractEnumValues first), (extractEnumValues second);
      simpl; auto. destruct Hsome; congruence. }
  rewrite (mergePropertySchemas_eq first second H1 H2), Hb.
  rewrite (mergePropertySchemas_eq
             (JObj (mergedEnumeration first second)) third eq_refl H3).
  rewrite extractEnumValues_mergedEnumeration. cbn [isSome orb].
  eexists. split; [reflexivity|].
  rewrite mergedEnumeration_enum, extractEnumValues_mergedEnumeration.
  cbn [orEmpty]. rewrite <- !newSet_firstSeen.
  now rewrite newSet_newSet_app, app_assoc.
Qed.

Lemma mergePropertySchemas_three_witness :
  exists merged,
    mergePropertySchemas
      (mergePropertySchemas (JObj [("enum", JArr [JStr "x"; JStr "y"])])
         (literal (JStr "y")))
      (JObj [("enum", JArr [JStr "z"; JStr "x"])])
    = JObj merged
    /\ get merged "enum" = JArr [JStr "x"; JStr "y"; JStr "z"].
Proof.
  destruct (mergePropertySchemas_three
              (JObj [("enum", JArr [JStr "x"; JStr "y"])])
              (literal (JStr "y"))
              (JObj [("enum", JArr [JStr "z"; JStr "x"])])
              eq_refl eq_refl eq_refl) as [merged [Hm He]].
  - left. discriminate.
  - exists merged. split; [exact Hm|]. exact He.
Defined.

End ShapeFacts.

(** ** Legacy parameters and the wrappers of [execute] *)

Module Wrappers.
Import Js Schema ReadImage.

(** [delete record[key]]. *)
Definition deleteProp (record : Fields) (key : string) : Fields :=
  filter (fun kv => negb (String.eqb (fst kv) key)) record.

(** One of the three rewrites of [normalizeToolParams]: the legacy key
    becomes the canonical key unless that one is present. *)
Definition remap (legacy canonical : string) (normalized : Fields) : Fields :=
  if hasKey normalized legacy && negb (hasKey normalized canonical)
  then deleteProp (setProp normalized canonical (get normalized legacy)) legacy
  else normalized.

(** [undefined] is [None].  The spread of an array has its indices as keys. *)
Definition normalizeToolParams (params : JsVal) : option Fields :=
  if truthy params && isObjectType params then
    let normalized := entries params in
    let normalized := remap "file_path" "path" normalized in
    let normalized := remap "old_string" "oldText" normalized in
    let normalized := remap "new_string" "newText" normalized in
    Some normalized
  else None.

(** [normalized ?? params]. *)
Definition orParams (normalized : option Fields) (params : JsVal) : JsVal :=
  match normalized with
  | Some n => JObj n
  | None => params
  end.

Section Execute.
(** [World] is what a tool acts on besides the signals. *)
Context {World : Type}.

(** An [execute]: tool call id, parameters, signal; the result of a tool is
    an [AgentToolResult]. *)
Definition Exec : Type :=
  string -> JsVal -> option nat -> Abort.Signals * World
  -> Abort.Outcome AgentToolResult * (Abort.Signals * World).

(** The collaborators of the wrappers: [assertSandboxPath] of
    [sandbox-paths.js], called with file path, [cwd] and [root], which
    throws or returns; [sanitizeToolResultImages] of [tool-images.js]; the
    functions used for sniffing; and the [execute] of the tools that
    collaborators build, by origin. *)
Record Runtime : Type := mkRuntime {
  assertSandboxPath :
    string -> string -> string -> Abort.Signals * World
    -> Abort.Outcome unit * (Abort.Signals * World);
  sanitizeToolResultImages :
    AgentToolResult -> string -> Abort.Signals * World
    -> Abort.Outcome AgentToolResult * (Abort.Signals * World);
  sniffer : Sniffer;
  hasAbortSignalAny : bool;
  native : string -> Exec
}.

Variable rt : Runtime.

Definition wrapToolParamNormalization (execute : Exec) : Exec :=
  fun toolCallId params signal w =>
    let normalized := normalizeToolParams params in
    execute toolCallId (orParams normalized params) signal w.

(** When [normalized] is undefined, [args] is no object and [record] is
    undefined as well, so that [record] is [normalized]. *)
Definition wrapSandboxPathGuard (execute : Exec) (root : string) : Exec :=
  fun toolCallId args signal w =>
    let normalized := normalizeToolParams args in
    let filePath :=
      match normalized with
      | Some record => get record "path"
      | None => JUndefined
      end in
    let checked :=
      match filePath with
      | JStr path =>
          if truthyStr (trim path)
          then assertSandboxPath rt path root root w
          else (Abort.Returned unit tt, w)
      | _ => (Abort.Returned unit tt, w)
      end in
    match checked with
    | (Abort.Threw _ errName message, w) =>
        (Abort.Threw AgentToolResult errName message, w)
    | (Abort.Returned _ _, w) =>
        execute toolCallId (orParams normalized args) signal w
    end.

Definition createClawdbotReadTool (base : Exec) : Exec :=
  fun toolCallId params signal w =>
    let normalized := normalizeToolParams params in
    match base toolCallId (orParams normalized params) signal w with
    | (Abort.Threw _ errName message, w) =>
        (Abort.Threw AgentToolResult errName message, w)
    | (Abort.Returned _ result, w) =>
        let filePath :=
          match orParams normalized params with
          | JObj record =>
              match get record "path" with
              | JStr path => path
              | _ => "<unknown>"
              end
          | _ => "<unknown>"
          end in
        match normalizeReadImageResult (sniffer rt) result filePath with
        | inl message => (Abort.Threw AgentToolResult "Error" message, w)
        | inr normalizedResult =>
            sanitizeToolResultImages rt normalizedResult
              (String.append "read:" filePath) w
        end
    end.

(** The wrapped [execute] of [wrapToolWithAbortSignal]. *)
Definition withAbortSignal (signal : nat) (execute : Exec) : Exec :=
  match Abort.execute
          (Abort.wrapToolWithAbortSignal (hasAbortSignalAny rt)
             (Abort.mkTool "" (Some execute)) (Some signal)) with
  | Some wrapped => wrapped
  | None => execute
  end.

(** The function behind the [execute] of an assembled tool. *)
Fixpoint run (e : Execute) : Exec :=
  match e with
  | Native origin => native rt origin
  | ParamNormalization inner => wrapToolParamNormalization (run inner)
  | SandboxPathGuard root inner => wrapSandboxPathGuard (run inner) root
  | ClawdbotRead inner => createClawdbotReadTool (run inner)
  | WithAbortSignal signal inner => withAbortSignal signal (run inner)
  end.
End Execute.

End Wrappers.

Module WrapperFacts.
Import Js JsFacts Schema SchemaFacts ReadImage Wrappers.

Lemma hasKey_deleteProp (r : Fields) (k k' : string) :
  hasKey (deleteProp r k) k' = negb (String.eqb k k') && hasKey r k'.
Proof.
  unfold deleteProp. induction r as [|[k0 v] r IH]; simpl.
  - now rewrite andb_false_r.
  - destruct (String.eqb_spec k0 k) as [->|Hne]; simpl.
    + rewrite IH. destruct (String.eqb k k'); reflexivity.
    + rewrite IH. destruct (String.eqb_spec k0 k') as [->|_]; simpl.
      * destruct (String.eqb_spec k k') as [->|_]; [congruence|reflexivity].
      * reflexivity.
Qed.

Lemma get_deleteProp (r : Fields) (k k' : string) :
  get (deleteProp r k) k' = if String.eqb k k' then JUndefined else get r k'.
Proof.
  unfold deleteProp. induction r as [|[k0 v] r IH]; simpl.
  - now destruct (String.eqb k k').
  - destruct (String.eqb_spec k0 k) as [->|Hne]; simpl.
    + rewrite IH. destruct (String.eqb k k'); reflexivity.
    + rewrite IH. destruct (String.eqb_spec k0 k') as [->|_]; simpl.
      * destruct (String.eqb_spec k k') as [->|_]; [congruence|reflexivity].
      * reflexivity.
Qed.

Lemma hasKey_remap (legacy canonical : string) (r : Fields) (k : string) :
  hasKey (remap legacy canonical r) k
  = if hasKey r legacy && negb (hasKey r canonical)
    then negb (String.eqb legacy k) && (String.eqb canonical k || hasKey r k)
    else hasKey r k.
Proof.
  unfold remap. destruct (hasKey r legacy && negb (hasKey r canonical));
    [|reflexivity].
  now rewrite hasKey_deleteProp, hasKey_setProp.
Qed.

Lemma get_remap (legacy canonical : string) (r : Fields) (k : string) :
  get (remap legacy canonical r) k
  = if hasKey r legacy && negb (hasKey r canonical)
    then if String.eqb legacy k then JUndefined
         else if String.eqb canonical k then get r legacy
         else get r k
    else get r k.
Proof.
  unfold remap. destruct (hasKey r legacy && negb (hasKey r canonical));
    [|reflexivity].
  now rewrite get_deleteProp, get_setProp.
Qed.

(** The legacy keys with their canonical keys. *)
Definition legacyKeys : list (string * string) :=
  [("file_path", "path"); ("old_string", "oldText");
   ("new_string", "newText")].

Lemma normalizeToolParams_object (record : Fields) :
  normalizeToolParams (JObj record)
  = Some (remap "new_string" "newText"
            (remap "old_string" "oldText"
               (remap "file_path" "path" record))).
Proof. reflexivity. Qed.

Ltac remap_keys :=
  rewrite ?get_remap, ?hasKey_remap; cbn;
  repeat match goal with
         | |- context [hasKey ?r ?k] =>
             let E := fresh "E" in destruct (hasKey r k) eqn:E; cbn
         end.

(** X17.  The legacy remap: for each of [file_path]/[path],
    [old_string]/[oldText] and [new_string]/[newText], a canonical key that
    is present keeps its value and the legacy key is left alone; a legacy
    key without its canonical key is moved to the canonical key and
    removed; every key outside the six is untouched. *)
Theorem normalizeToolParams_remap (record : Fields)
    (legacy canonical : string) :
  In (legacy, canonical) legacyKeys ->
  exists normalized,
    normalizeToolParams (JObj record) = Some normalized
    /\ (hasKey record canonical = true ->
        get normalized canonical = get record canonical
        /\ hasKey normalized legacy = hasKey record legacy
        /\ get normalized legacy = get record legacy)
    /\ (hasKey record canonical = false -> hasKey record legacy = true ->
        hasKey normalized canonical = true
        /\ get normalized canonical = get record legacy
        /\ hasKey normalized legacy = false)
    /\ (hasKey record canonical = false -> hasKey record legacy = false ->
        hasKey normalized canonical = false)
    /\ (forall k,
          (forall pair, In pair legacyKeys -> k <> fst pair /\ k <> snd pair) ->
          hasKey normalized k = hasKey record k
          /\ get normalized k = get record k).
Proof.
  intros Hin. rewrite normalizeToolParams_object. eexists.
  split; [reflexivity|].
  split; [|split; [|split]].
  - intros Hc.
    destruct Hin as [E|[E|[E|[]]]]; injection E as <- <-;
      rewrite ?get_remap, ?hasKey_remap; cbn; rewrite ?Hc; cbn;
      repeat match goal with
             | |- context [hasKey record ?k] => destruct (hasKey record k); cbn
             end; auto.
  - intros Hc Hl.
    destruct Hin as [E|[E|[E|[]]]]; injection E as <- <-;
      rewrite ?get_remap, ?hasKey_remap; cbn; rewrite ?Hc, ?Hl; cbn;
      repeat match goal with
             | |- context [hasKey record ?k] => destruct (hasKey record k); cbn
             end; auto.
  - intros Hc Hl.
    destruct Hin as [E|[E|[E|[]]]]; injection E as <- <-;
      rewrite ?get_remap, ?hasKey_remap; cbn; rewrite ?Hc, ?Hl; cbn;
      repeat match goal with
             | |- context [hasKey record ?k] => destruct (hasKey record k); cbn
             end; auto.
  - intros k Hk.
    assert (Hne : forall key,
               In key ["file_path"; "path"; "old_string"; "oldText";
                       "new_string"; "newText"] ->
               String.eqb key k = false).
    { intros key Hkey. apply String.eqb_neq. intros Heq.
      destruct (Hk ("file_path", "path")) as [A1 A2]; [simpl; auto|].
      destruct (Hk ("old_string", "oldText")) as [B1 B2]; [simpl; auto|].
      destruct (Hk ("new_string", "newText")) as [C1 C2]; [simpl; auto 10|].
      simpl in *.
      destruct Hkey as [<-|[<-|[<-|[<-|[<-|[<-|[]]]]]]]; congruence. }
    rewrite !get_remap, !hasKey_remap.
    rewrite !Hne by (simpl; auto 10). cbn [negb andb orb].
    repeat match goal with
           | |- context [if ?b then _ else _] => destruct b
           end; auto.
Qed.

Lemma normalizeToolParams_remap_witness :
  exists normalized,
    normalizeToolParams
      (JObj [("file_path", JStr "a.txt"); ("old_string", JStr "x");
             ("oldText", JStr "y")])
    = Some normalized
    /\ get normalized "path" = JStr "a.txt"
    /\ hasKey normalized "file_path" = false
    /\ get normalized "oldText" = JStr "y".
Proof.
  destruct (normalizeToolParams_remap
              [("file_path", JStr "a.txt"); ("old_string", JStr "x");
               ("oldText", JStr "y")] "file_path" "path")
    as [n [Hn [_ [Hmove _]]]]; [simpl; auto|].
  destruct (normalizeToolParams_remap
              [("file_path", JStr "a.txt"); ("old_string", JStr "x");
               ("oldText", JStr "y")] "old_string" "oldText")
    as [n' [Hn' [Hkeep _]]]; [simpl; auto|].
  rewrite Hn in Hn'. injection Hn' as <-.
  exists n. split; [exact Hn|].
  destruct (Hmove eq_refl eq_refl) as [_ [Hp Hf]].
  destruct (Hkeep eq_refl) as [Ho _].
  auto.
Defined.

(** X18.  Normalizing parameters is idempotent: parameters that have been
    normalized are left as they are by a second pass, so that wrapping a
    tool twice changes nothing. *)
Theorem normalizeToolParams_idempotent (params : JsVal) (normalized : Fields) :
  normalizeToolParams params = Some normalized ->
  normalizeToolParams (JObj normalized) = Some normalized.
Proof.
  intros H. unfold normalizeToolParams in H.
  destruct (truthy params && isObjectType params); [|discriminate].
  injection H as <-. rewrite normalizeToolParams_object. f_equal.
  generalize (entries params) as r. intros r.
  set (n := remap "new_string" "newText"
              (remap "old_string" "oldText" (remap "file_path" "path" r))).
  assert (Hfix : forall legacy canonical,
             hasKey n legacy && negb (hasKey n canonical) = false ->
             remap legacy canonical n = n).
  { intros legacy canonical H. unfold remap. now rewrite H. }
  rewrite (Hfix "file_path" "path"); [rewrite (Hfix "old_string" "oldText");
                                      [apply Hfix|]|];
    unfold n; rewrite !hasKey_remap; cbn;
    repeat match goal with
           | |- context [hasKey r ?k] => destruct (hasKey r k); cbn
           end; reflexivity.
Qed.

Lemma normalizeToolParams_idempotent_witness :
  normalizeToolParams
    (JObj [("new_string", JStr "b"); ("path", JStr "a.txt")])
  = Some [("path", JStr "a.txt"); ("newText", JStr "b")]
  /\ normalizeToolParams (JObj [("path", JStr "a.txt"); ("newText", JStr "b")])
     = Some [("path", JStr "a.txt"); ("newText", JStr "b")].
Proof.
  split; [reflexivity|].
  apply (normalizeToolParams_idempotent
           (JObj [("new_string", JStr "b"); ("path", JStr "a.txt")])).
  reflexivity.
Defined.

(** A legacy [file_path] without a [path] is the [path] after the remap. *)
Lemma normalizeToolParams_file_path (r : Fields) (p : JsVal) :
  hasKey r "path" = false -> hasKey r "file_path" = true ->
  get r "file_path" = p ->
  exists record,
    normalizeToolParams (JObj r) = Some record /\ get record "path" = p.
Proof.
  intros Hp Hf Hg. rewrite normalizeToolParams_object. eexists.
  split; [reflexivity|].
  rewrite !get_remap, !hasKey_remap. cbn. rewrite Hp, Hf, Hg. cbn.
  repeat match goal with
         | |- context [hasKey r ?k] => destruct (hasKey r k); cbn
         end; reflexivity.
Qed.

Section Guard.
Context {World : Type}.
Variable rt : @Runtime World.

(** X19.  The path guard decides before the tool runs.  The path it checks
    is the [path] of the normalized parameters, so a legacy [file_path] is
    checked as well.  When the check throws, the call throws that error
    whatever the [execute] of the tool is; when it passes, or when there is
    no path that is a string with a character other than white space, the
    call is the call of the tool on the normalized parameters. *)
Theorem wrapSandboxPathGuard_checks (execute : Exec) (root toolCallId : string)
    (args : JsVal) (signal : option nat) (w : Abort.Signals * World) :
  (forall record path,
     normalizeToolParams args = Some record ->
     get record "path" = JStr path -> trim path <> "" ->
     (forall errName message w',
        assertSandboxPath rt path root root w
        = (Abort.Threw unit errName message, w') ->
        forall other : Exec,
          wrapSandboxPathGuard rt other root toolCallId args signal w
          = (Abort.Threw AgentToolResult errName message, w'))
     /\ (forall w',
           assertSandboxPath rt path root root w = (Abort.Returned unit tt, w') ->
           wrapSandboxPathGuard rt execute root toolCallId args signal w
           = execute toolCallId (JObj record) signal w'))
  /\ (forall r path,
        args = JObj r -> hasKey r "path" = false ->
        hasKey r "file_path" = true -> get r "file_path" = JStr path ->
        trim path <> "" ->
        forall errName message w',
          assertSandboxPath rt path root root w
          = (Abort.Threw unit errName message, w') ->
          wrapSandboxPathGuard rt execute root toolCallId args signal w
          = (Abort.Threw AgentToolResult errName message, w'))
  /\ ((forall record, normalizeToolParams args = Some record ->
                      forall path, get record "path" = JStr path ->
                                   trim path = "") ->
      wrapSandboxPathGuard rt execute root toolCallId args signal w
      = execute toolCallId (orParams (normalizeToolParams args) args) signal w).
Proof.
  assert (Hmain : forall record path,
             normalizeToolParams args = Some record ->
             get record "path" = JStr path -> trim path <> "" ->
             forall other : Exec,
               wrapSandboxPathGuard rt other root toolCallId args signal w
               = match assertSandboxPath rt path root root w with
                 | (Abort.Threw _ errName message, w') =>
                     (Abort.Threw AgentToolResult errName message, w')
                 | (Abort.Returned _ _, w') =>
                     other toolCallId (JObj record) signal w'
                 end).
  { intros record path Hn Hg Ht other. unfold wrapSandboxPathGuard.
    rewrite Hn, Hg. apply truthyStr_true in Ht. rewrite Ht. reflexivity. }
  split; [|split].
  - intros record path Hn Hg Ht. split.
    + intros errName message w' Ha other.
      now rewrite (Hmain record path Hn Hg Ht other), Ha.
    + intros w' Ha. now rewrite (Hmain record path Hn Hg Ht execute), Ha.
  - intros r path -> Hp Hf Hg Ht errName message w' Ha.
    destruct (normalizeToolParams_file_path r (JStr path) Hp Hf Hg)
      as [record [Hn Hpath]].
    now rewrite (Hmain record path Hn Hpath Ht execute), Ha.
  - intros Hblank. unfold wrapSandboxPathGuard.
    destruct (normalizeToolParams args) as [record|] eqn:Hn; [|reflexivity].
    destruct (get record "path") eqn:Hg; try reflexivity.
    rewrite (proj2 (truthyStr_false _) (Hblank record eq_refl s Hg)).
    reflexivity.
Qed.
End Guard.

(** A sample runtime: a path passes the containment check when it does not
    begin with a slash; the native tools count their runs in the world and
    return an empty result. *)
Definition sampleRuntime : @Runtime nat :=
  mkRuntime
    (fun filePath _ _ w =>
       if Js.startsWith filePath "/"
       then (Abort.Threw unit "Error" "Path escapes sandbox root", w)
       else (Abort.Returned unit tt, w))
    (fun result _ w => (Abort.Returned AgentToolResult result, w))
    ReadImageFacts.sampleSniffer
    false
    (fun _ _ _ _ w =>
       (Abort.Returned AgentToolResult (mkResult [] 0), (fst w, S (snd w)))).

Lemma wrapSandboxPathGuard_checks_witness :
  run sampleRuntime
    (SandboxPathGuard "/sandbox" (ParamNormalization (Native "write")))
    "call" (JObj [("file_path", JStr "/etc/passwd")]) None
    (Abort.mkSignals 0 [] [], 0)
  = (Abort.Threw AgentToolResult "Error" "Path escapes sandbox root",
     (Abort.mkSignals 0 [] [], 0))
  /\ run sampleRuntime
       (SandboxPathGuard "/sandbox" (ParamNormalization (Native "write")))
       "call" (JObj [("file_path", JStr "notes.txt")]) None
       (Abort.mkSignals 0 [] [], 0)
     = (Abort.Returned AgentToolResult (mkResult [] 0),
        (Abort.mkSignals 0 [] [], 1)).
Proof.
  split.
  - apply (proj1 (proj2 (wrapSandboxPathGuard_checks sampleRuntime
                           (run sampleRuntime (ParamNormalization (Native "write")))
                           "/sandbox" "call"
                           (JObj [("file_path", JStr "/etc/passwd")]) None
                           (Abort.mkSignals 0 [] [], 0)))
             [("file_path", JStr "/etc/passwd")] "/etc/passwd");
      try reflexivity. discriminate.
  - destruct (proj1 (wrapSandboxPathGuard_checks sampleRuntime
                       (run sampleRuntime (ParamNormalization (Native "write")))
                       "/sandbox" "call"
                       (JObj [("file_path", JStr "notes.txt")]) None
                       (Abort.mkSignals 0 [] [], 0))
                [("path", JStr "notes.txt")] "notes.txt" eq_refl eq_refl
                ltac:(discriminate)) as [_ H].
    exact (H _ eq_refl).
Defined.


Section Read.
Context {World : Type}.
Variable rt : @Runtime World.

End Read.


End WrapperFacts.

(** ** More on image results *)

Module ImageFacts.
Import Js JsFacts ReadImage ReadImageFacts.

(** X21.  The sniffer can make the read of an image fail only by naming a
    type that is not an image type: a payload of fewer than eight characters
    after trimming is not decoded at all, and a detector that throws is
    taken as no answer; in both cases the result is returned as it is. *)
Theorem normalizeReadImageResult_inconclusive (env : Sniffer)
    (result : AgentToolResult) (filePath data mimeType : string) :
  findImage (content result) = Some (data, mimeType) ->
  trim data <> "" ->
  (String.length (trim data) < 8 ->
   forall env', normalizeReadImageResult env' result filePath = inr result)
  /\ (forall message,
        detectMime env
          (bufferFromBase64 env
             (String.substring 0 (sliceLen data) (trim data)))
        = inl message ->
        normalizeReadImageResult env result filePath = inr result).
Proof.
  intros Hfind Hdata. apply truthyStr_true in Hdata. split.
  - intros Hlen env'. unfold normalizeReadImageResult.
    rewrite Hfind, Hdata. cbn [negb].
    rewrite sniffMimeFromBase64_eq, Hdata. cbn [negb].
    destruct (sliceLen_bound data) as [_ [Hle _]].
    assert (Hs : (sliceLen data <? 8) = true) by (apply Nat.ltb_lt; lia).
    now rewrite Hs.
  - intros message Hd. unfold normalizeReadImageResult.
    rewrite Hfind, Hdata. cbn [negb].
    rewrite sniffMimeFromBase64_eq, Hdata, Hd. cbn [negb].
    now destruct (sliceLen data <? 8).
Qed.

Lemma normalizeReadImageResult_inconclusive_witness :
  normalizeReadImageResult sampleSniffer
    (mkResult [ImageBlock (Some " iVBORw ") (Some "image/jpeg")] 0) "a.jpg"
  = inr (mkResult [ImageBlock (Some " iVBORw ") (Some "image/jpeg")] 0).
Proof.
  apply (proj1 (normalizeReadImageResult_inconclusive sampleSniffer
                  (mkResult [ImageBlock (Some " iVBORw ") (Some "image/jpeg")] 0)
                  "a.jpg" " iVBORw " "image/jpeg" eq_refl
                  ltac:(discriminate))).
  simpl. lia.
Defined.

(** X22.  Rewriting the header of the read tool: the outcome is the text
    itself or the header for the given type, nothing else; a text that does
    not begin with ["Read image file ["] or does not end with ["]"] is kept;
    and rewriting twice is rewriting once. *)
Theorem rewriteReadImageHeader_outcomes (text mimeType : string) :
  (rewriteReadImageHeader text mimeType = text
   \/ rewriteReadImageHeader text mimeType = readImageHeader mimeType)
  /\ (startsWith text "Read image file [" = false \/ endsWith text "]" = false ->
      rewriteReadImageHeader text mimeType = text)
  /\ rewriteReadImageHeader (rewriteReadImageHeader text mimeType) mimeType
     = rewriteReadImageHeader text mimeType
  /\ (forall other,
        rewriteReadImageHeader (rewriteReadImageHeader text other) mimeType
        = rewriteReadImageHeader text mimeType).
Proof.
  assert (Hr : forall m,
             rewriteReadImageHeader text m
             = if startsWith text "Read image file [" && endsWith text "]"
               then readImageHeader m else text) by reflexivity.
  rewrite !Hr.
  assert (Ho : forall other,
             rewriteReadImageHeader (rewriteReadImageHeader text other)
               mimeType
             = rewriteReadImageHeader text mimeType).
  { intros other. rewrite !Hr.
    destruct (startsWith text "Read image file [" && endsWith text "]") eqn:E.
    - apply rewriteReadImageHeader_header.
    - apply Hr. }
  split; [|split; [|split]].
  - destruct (startsWith text "Read image file [" && endsWith text "]"); auto.
  - intros [H|H]; rewrite H; now rewrite ?andb_false_r.
  - rewrite <- Hr. apply Ho.
  - intros other. rewrite Ho. apply Hr.
Qed.

Lemma rewriteReadImageHeader_outcomes_witness :
  rewriteReadImageHeader "Read text file [a]" "image/png"
  = "Read text file [a]".
Proof.
  apply (proj1 (proj2 (rewriteReadImageHeader_outcomes "Read text file [a]"
                         "image/png"))).
  left. reflexivity.
Defined.

Lemma findImage_rewritten (sniffed data mimeType : string)
    (content : list ContentBlock) :
  (forall d, ~ In (ImageBlock (Some d) None) content) ->
  findImage content = Some (data, mimeType) ->
  findImage (map (rewriteBlock sniffed) content) = Some (data, sniffed).
Proof.
  induction content as [|block content IH]; simpl; [discriminate|].
  intros Hwf Hfind.
  assert (Hrest : forall d, ~ In (ImageBlock (Some d) None) content).
  { intros d Hd. apply (Hwf d). now right. }
  destruct block as [text|[d|] [m|]|tag]; simpl; auto.
  - now injection Hfind as <- _.
  - exfalso. apply (Hwf d). now left.
Qed.

(** X23.  Normalizing a read result is idempotent: when every image block
    with a payload has a type, a result that came out of the normalization
    comes out of a second one as it is, under any file path. *)
Theorem normalizeReadImageResult_idempotent (env : Sniffer)
    (result result' : AgentToolResult) (filePath filePath' : string) :
  (forall d, ~ In (ImageBlock (Some d) None) (content result)) ->
  normalizeReadImageResult env result filePath = inr result' ->
  normalizeReadImageResult env result' filePath' = inr result'.
Proof.
  intros Hwf. unfold normalizeReadImageResult.
  destruct (findImage (content result)) as [[data mimeType]|] eqn:Hfind.
  2:{ intros H. injection H as <-. now rewrite Hfind. }
  destruct (truthyStr (trim data)) eqn:Hdata; cbn [negb]; [|discriminate].
  destruct (sniffMimeFromBase64 env data) as [sniffed|] eqn:Hs.
  2:{ intros H. injection H as <-. now rewrite Hfind, Hdata, Hs. }
  destruct (truthyStr sniffed) eqn:Hts; cbn [negb].
  2:{ intros H. injection H as <-. now rewrite Hfind, Hdata, Hs, Hts. }
  destruct (startsWith sniffed "image/") eqn:Himg; cbn [negb]; [|discriminate].
  destruct (String.eqb sniffed mimeType) eqn:Heq.
  - intros H. injection H as <-.
    now rewrite Hfind, Hdata, Hs, Hts, Himg, Heq.
  - intros H. injection H as <-. cbn [content].
    rewrite (findImage_rewritten sniffed data mimeType _ Hwf Hfind).
    now rewrite Hdata, Hs, Hts, Himg, String.eqb_refl.
Qed.

Lemma normalizeReadImageResult_idempotent_witness :
  normalizeReadImageResult sampleSniffer
    (mkResult
       [TextBlock "Read image file [image/png]";
        ImageBlock (Some "iVBORw0KGgo=") (Some "image/png")] 0) "b.png"
  = inr (mkResult
           [TextBlock "Read image file [image/png]";
            ImageBlock (Some "iVBORw0KGgo=") (Some "image/png")] 0).
Proof.
  apply (normalizeReadImageResult_idempotent sampleSniffer mislabelled _
           "a.jpg" "b.png").
  - intros d [H|[H|[]]]; discriminate.
  - reflexivity.
Defined.

End ImageFacts.

(** ** More on cancellation *)

Module SignalFacts.
Import Abort AbortFacts.

(** The store after the controllers of [events] have aborted. *)
Definition aborts (events : list nat) (st : Signals) : Signals :=
  fold_right abort st events.

Lemma aborts_fields (events : list nat) (st : Signals) :
  count (aborts events st) = count st
  /\ fired (aborts events st) = events ++ fired st
  /\ sources (aborts events st) = sources st.
Proof.
  induction events as [|s events [Hc [Hf Hs]]]; simpl; [auto|].
  rewrite Hc, Hf, Hs. auto.
Qed.

Lemma aborts_wf (events : list nat) (st : Signals) :
  wf st -> Forall (fun s => s < count st) events -> wf (aborts events st).
Proof.
  intros [Hf Hs] Hev. destruct (aborts_fields events st) as [Hc [Hfi Hso]].
  split.
  - intros s. rewrite Hfi, Hc, in_app_iff. intros [H|H]; [|now apply Hf].
    rewrite Forall_forall in Hev. now apply Hev.
  - intros d s. rewrite Hso, Hc. apply Hs.
Qed.

Lemma aborts_derives (events : list nat) (st st' : Signals) (a b c : nat) :
  derives st a b c st' -> derives (aborts events st) a b c (aborts events st').
Proof.
  intros [Hc [Hc' [Hf Hs]]].
  destruct (aborts_fields events st) as [E1 [E2 E3]].
  destruct (aborts_fields events st') as [E1' [E2' E3']].
  unfold derives. rewrite E1, E1', E2, E2', E3, E3', Hf. auto.
Qed.

Section Independent.
Variable hasAny : bool.

(** X24.  Combining two signals couples neither to the other and touches no
    signal there is: whatever controllers abort afterwards, every signal
    that existed before the combination is aborted exactly when it would be
    without the combination; and the combination adds one signal at most
    and fires none. *)
Theorem combineAbortSignals_independent (st : Signals) (a b : option nat) :
  wf st ->
  (forall s, a = Some s -> s < count st) ->
  (forall s, b = Some s -> s < count st) ->
  let st' := snd (combineAbortSignals hasAny a b st) in
  fired st' = fired st
  /\ count st <= count st' <= S (count st)
  /\ (forall events x,
        Forall (fun s => s < count st) events -> x < count st ->
        aborted (aborts events st') x = aborted (aborts events st) x).
Proof.
  intros Hwf Ha Hb. cbv zeta.
  assert (Hsame : forall st0 : Signals,
             fired st0 = fired st0
             /\ count st0 <= count st0 <= S (count st0)
             /\ (forall events x,
                   Forall (fun s => s < count st0) events -> x < count st0 ->
                   aborted (aborts events st0) x
                   = aborted (aborts events st0) x)).
  { intros st0. split; [reflexivity|]. split; [lia|reflexivity]. }
  destruct a as [a|], b as [b|]; try apply Hsame.
  specialize (Ha a eq_refl). specialize (Hb b eq_refl).
  destruct (aborted st a) eqn:Eab.
  { unfold combineAbortSignals. rewrite Eab. apply Hsame. }
  destruct (aborted st b) eqn:Ebb.
  { unfold combineAbortSignals. rewrite Eab, Ebb. apply Hsame. }
  destruct (combineAbortSignals_fresh hasAny st a b Eab Ebb)
    as [st' [Hcomb Hder]].
  rewrite Hcomb. cbn [snd].
  pose proof Hder as [Hc [Hc' [Hf _]]].
  split; [exact Hf|]. split; [lia|].
  intros events x Hev Hx. unfold aborted.
  apply (derives_old (aborts events st) (aborts events st') a b (count st)).
  - now apply aborts_wf.
  - now apply aborts_derives.
  - now rewrite (proj1 (aborts_fields events st)).
Qed.
End Independent.

Lemma combineAbortSignals_independent_witness :
  aborted
    (aborts [0] (snd (combineAbortSignals false (Some 0) (Some 1) bothLive))) 1
  = false.
Proof.
  assert (Hwf : wf bothLive).
  { split; [intros s []|intros d s []]. }
  destruct (combineAbortSignals_independent false bothLive (Some 0) (Some 1)
              Hwf) as [_ [_ H]].
  - intros s E. injection E as <-. simpl. lia.
  - intros s E. injection E as <-. simpl. lia.
  - rewrite (H [0] 1); [reflexivity| |simpl; lia].
    repeat constructor.
Defined.

End SignalFacts.
